(** * VPC-Chronology: the capture and restore paths of [vpchron.py]

    A shallow embedding of class [VpcRestore] and of [cmd_restore], and of
    class [VpcBackup] and of [cmd_backup].

    - The snapshot (the dicts produced by the capture step and read back
      from the blob store) is modelled by records; a key that the code
      reads with [.get] or tests with [in] is an [option] field.
    - The two boto3 clients are collaborators: the EC2 client is an
      oracle from the calls issued so far and the next call to its
      outcome, the S3 client an oracle from its arguments to its outcome.
    - [self.created_resources], [self.timestamp], the calls issued and the
      log records are threaded through a state-and-exception monad;
      [try ... except ClientError] catches one kind of exception only.
    - The capture step has a monad of the same shape over the uploads it
      attempted and its log records (module [VpcBackup]). *)

From Stdlib Require Import String Ascii List ZArith Bool Arith Lia.
From Stdlib Require Import DecimalString Sorted Permutation.
Import ListNotations.
Open Scope string_scope.

Set Implicit Arguments.

(** ** Python values the code relies on *)

(** Truthiness of a value that is [None] or a string. *)
Definition truthy (o : option string) : bool :=
  match o with
  | Some s => negb (s =? "")
  | None => false
  end.

(** [x or y] on values that are [None] or a string. *)
Definition py_or (x y : option string) : option string :=
  if truthy x then x else y.

(** [d.get(k, default)]. *)
Definition get_default {A : Type} (o : option A) (default : A) : A :=
  match o with
  | Some a => a
  | None => default
  end.

(** Truthiness of a list. *)
Definition nonempty {A : Type} (l : list A) : bool :=
  match l with
  | [] => false
  | _ :: _ => true
  end.

(** [s.startswith(p)]. *)
Definition startswith (s p : string) : bool := String.prefix p s.

(** [sub in s] on strings. *)
Fixpoint str_in (sub s : string) : bool :=
  String.prefix sub s ||
  match s with
  | EmptyString => false
  | String _ s' => str_in sub s'
  end.

(** [s.split(sep)] for a one-character separator. *)
Fixpoint split (sep : ascii) (s : string) : list string :=
  match s with
  | EmptyString => [EmptyString]
  | String c s' =>
      if Ascii.eqb c sep then EmptyString :: split sep s'
      else match split sep s' with
           | [] => [String c EmptyString]
           | w :: ws => String c w :: ws
           end
  end.

(** [l[-2]]; [None] stands for IndexError. *)
Definition index_m2 {A : Type} (l : list A) : option A :=
  match rev l with
  | _ :: x :: _ => Some x
  | _ => None
  end.

(** [l[-1]]. *)
Definition index_m1 {A : Type} (l : list A) : option A :=
  match rev l with
  | x :: _ => Some x
  | [] => None
  end.

(** [sorted(l)] on strings: the order is [String.leb], code point by code
    point, as Python compares [str]. *)
Fixpoint insert_sorted (x : string) (l : list string) : list string :=
  match l with
  | [] => [x]
  | y :: l' => if String.leb x y then x :: l else y :: insert_sorted x l'
  end.

Fixpoint sorted (l : list string) : list string :=
  match l with
  | [] => []
  | x :: l' => insert_sorted x (sorted l')
  end.

(** [f"{x}"] for a value that is [None] or a string. *)
Definition fmt (o : option string) : string :=
  match o with
  | Some s => s
  | None => "None"
  end.

(** ** Dicts that keep insertion order *)

Section Dict.
Variables K V : Type.
Variable K_eq_dec : forall x y : K, {x = y} + {x <> y}.

Definition dict := list (K * V).

Fixpoint dict_get (k : K) (d : dict) : option V :=
  match d with
  | [] => None
  | (k', v) :: d' => if K_eq_dec k k' then Some v else dict_get k d'
  end.

Definition dict_mem (k : K) (d : dict) : bool :=
  match dict_get k d with
  | Some _ => true
  | None => false
  end.

(** [d[k] = v]: an existing key keeps its place, a new key goes last. *)
Fixpoint dict_set (k : K) (v : V) (d : dict) : dict :=
  match d with
  | [] => [(k, v)]
  | (k', v') :: d' =>
      if K_eq_dec k k' then (k, v) :: d' else (k', v') :: dict_set k v d'
  end.
End Dict.

Definition opt_string_dec (x y : option string) : {x = y} + {x <> y}.
Proof. decide equality. apply string_dec. Defined.

(** ** The captured configuration (Resource Graph) *)

Record Tag := { Key : string; Value : string }.

(** A captured internet gateway (an element of ['internet_gateways']). *)
Module Igw.
Record t := { InternetGatewayId : option string; Tags : option (list Tag) }.
(** A dict is falsy when it has no key. *)
Definition is_empty (d : t) : bool :=
  match InternetGatewayId d, Tags d with
  | None, None => true
  | _, _ => false
  end.
End Igw.

Module Subnet.
Record t := {
  SubnetId : option string;
  CidrBlock : option string;
  AvailabilityZone : option string;
  Tags : option (list Tag);
  MapPublicIpOnLaunch : option bool
}.
End Subnet.

Module Route.
Record t := {
  GatewayId : option string;
  DestinationCidrBlock : option string
}.
End Route.

Module Assoc.
Record t := { Main : option bool; SubnetId : option string }.
End Assoc.

Module RouteTable.
Record t := {
  RouteTableId : option string;
  Tags : option (list Tag);
  Routes : option (list Route.t);
  Associations : option (list Assoc.t)
}.
End RouteTable.

Module IpRange.
Record t := { CidrIp : option string; Description : option string }.
End IpRange.

Module Ipv6Range.
Record t := { CidrIpv6 : option string; Description : option string }.
End Ipv6Range.

(** A captured rule (an element of ['IpPermissions'] or
    ['IpPermissionsEgress']). *)
Module Rule.
Record t := {
  IpProtocol : option string;
  FromPort : option Z;
  ToPort : option Z;
  IpRanges : option (list IpRange.t);
  Ipv6Ranges : option (list Ipv6Range.t)
}.
End Rule.

(** What [_clean_sg_rule] builds. *)
Module CleanIpRange.
Record t := { CidrIp : string; Description : option string }.
End CleanIpRange.

Module CleanIpv6Range.
Record t := { CidrIpv6 : string; Description : option string }.
End CleanIpv6Range.

Module CleanRule.
Record t := {
  IpProtocol : string;
  FromPort : option Z;
  ToPort : option Z;
  IpRanges : option (list CleanIpRange.t);
  Ipv6Ranges : option (list CleanIpv6Range.t)
}.
End CleanRule.

Module Sg.
Record t := {
  GroupId : option string;
  GroupName : option string;
  Description : option string;
  Tags : option (list Tag);
  IpPermissions : option (list Rule.t);
  IpPermissionsEgress : option (list Rule.t)
}.
End Sg.

(** One captured network: the dict built by [get_vpc_details]. *)
Module Vpc.
Record t := {
  vpc_id : string;
  CidrBlock : option string;
  Tags : option (list Tag);
  EnableDnsSupport : option bool;
  EnableDnsHostnames : option bool;
  internet_gateways : option (list Igw.t);
  subnets : option (list Subnet.t);
  route_tables : option (list RouteTable.t);
  security_groups : option (list Sg.t)
}.
End Vpc.

Module Metadata.
Record t := { timestamp : string; account_id : string; vpc_count : nat }.
End Metadata.

(** The snapshot as loaded; ['vpcs'] is a dict from the original network
    identifier to the captured network, in insertion order. *)
Module Backup.
Record t := {
  metadata : option Metadata.t;
  vpcs : option (list (string * Vpc.t))
}.
Definition is_empty (d : t) : bool :=
  match metadata d, vpcs d with
  | None, None => true
  | _, _ => false
  end.
End Backup.

(** ** The provisioning API: the calls restore issues on the EC2 client *)

Inductive VpcAttribute :=
| EnableDnsSupport (v : bool)
| EnableDnsHostnames (v : bool).

Inductive Call :=
| create_vpc (CidrBlock : string)
| wait_vpc_available (VpcId : string)
| create_tags (Resource : string) (Tags : list Tag)
| modify_vpc_attribute (VpcId : string) (attr : VpcAttribute)
| create_internet_gateway
| attach_internet_gateway (InternetGatewayId VpcId : string)
| create_subnet (VpcId CidrBlock : string) (AvailabilityZone : option string)
| modify_subnet_attribute (SubnetId : string) (MapPublicIpOnLaunch : bool)
| create_route_table (VpcId : string)
| create_route (RouteTableId DestinationCidrBlock GatewayId : string)
| associate_route_table (RouteTableId SubnetId : string)
| create_security_group (GroupName : option string) (Description : string)
    (VpcId : string)
| authorize_security_group_ingress (GroupId : string)
    (IpPermissions : list CleanRule.t)
| authorize_security_group_egress (GroupId : string)
    (IpPermissions : list CleanRule.t)
| revoke_security_group_egress (GroupId : string)
    (IpPermissions : list CleanRule.t).

(** ** Exceptions, outcomes and the state of a run *)

(** [ClientError] carries its error code and its rendering [str(e)];
    [OtherError] is any exception that is not a [ClientError] (a waiter
    or parameter-validation error, a decoding error). *)
Inductive exn :=
| ClientError (Code : string) (text : string)
| OtherError (text : string).

Inductive outcome (A : Type) :=
| Ret (a : A)
| Raise (e : exn).
Arguments Ret {A} a.
Arguments Raise {A} e.

Inductive Level := INFO | ERROR.

(** [self.created_resources]. The keys of the three mappings are what
    [.get] returned for the original identifier, [None] included. *)
Record CreatedResources := {
  cr_vpc : option string;
  cr_subnets : dict (option string) string;
  cr_route_tables : dict (option string) string;
  cr_security_groups : dict (option string) string;
  cr_internet_gateways : dict string Igw.t;
  cr_nat_gateways : dict string string
}.

(** The value [__init__] gives to [self.created_resources]. *)
Definition init_created_resources : CreatedResources :=
  {| cr_vpc := None; cr_subnets := []; cr_route_tables := [];
     cr_security_groups := []; cr_internet_gateways := [];
     cr_nat_gateways := [] |}.

Record State := {
  self_timestamp : option string;
  created_resources : CreatedResources;
  calls : list Call;
  logs : list (Level * string)
}.

Definition M (A : Type) : Type := State -> outcome A * State.

Definition ret {A} (a : A) : M A := fun st => (Ret a, st).

Definition bind {A B} (m : M A) (f : A -> M B) : M B :=
  fun st =>
    match m st with
    | (Ret a, st') => f a st'
    | (Raise e, st') => (Raise e, st')
    end.

Declare Scope monad_scope.
Delimit Scope monad_scope with monad.
Notation "x <- m ;; k" := (bind m (fun x => k))
  (at level 61, m at next level, right associativity) : monad_scope.
Notation "m ;; k" := (bind m (fun _ => k))
  (at level 61, right associativity) : monad_scope.
Open Scope monad_scope.

(** [try: body except ClientError as e: handler(e)]. *)
Definition try_ClientError {A} (body : M A) (handler : string -> string -> M A)
  : M A :=
  fun st =>
    match body st with
    | (Raise (ClientError code text), st') => handler code text st'
    | r => r
    end.

Definition when (b : bool) (m : M unit) : M unit :=
  if b then m else ret tt.

(** A loop whose body neither breaks nor returns. *)
Fixpoint for_each {A} (l : list A) (body : A -> M unit) : M unit :=
  match l with
  | [] => ret tt
  | x :: l' => body x ;; for_each l' body
  end.

Definition log (lvl : Level) (msg : string) : M unit :=
  fun st =>
    (Ret tt, {| self_timestamp := self_timestamp st;
                created_resources := created_resources st;
                calls := calls st;
                logs := logs st ++ [(lvl, msg)] |}).

Definition get_created : M CreatedResources :=
  fun st => (Ret (created_resources st), st).

Definition put_created (cr : CreatedResources) : M unit :=
  fun st =>
    (Ret tt, {| self_timestamp := self_timestamp st;
                created_resources := cr;
                calls := calls st;
                logs := logs st |}).

Definition get_timestamp : M (option string) :=
  fun st => (Ret (self_timestamp st), st).

Definition put_timestamp (ts : option string) : M unit :=
  fun st =>
    (Ret tt, {| self_timestamp := ts;
                created_resources := created_resources st;
                calls := calls st;
                logs := logs st |}).

Definition raise {A} (e : exn) : M A := fun st => (Raise e, st).

(** Updates of one entry of [self.created_resources]. *)
Definition set_vpc (v : option string) (cr : CreatedResources) :=
  {| cr_vpc := v; cr_subnets := cr_subnets cr;
     cr_route_tables := cr_route_tables cr;
     cr_security_groups := cr_security_groups cr;
     cr_internet_gateways := cr_internet_gateways cr;
     cr_nat_gateways := cr_nat_gateways cr |}.

Definition set_subnets (d : dict (option string) string) (cr : CreatedResources) :=
  {| cr_vpc := cr_vpc cr; cr_subnets := d;
     cr_route_tables := cr_route_tables cr;
     cr_security_groups := cr_security_groups cr;
     cr_internet_gateways := cr_internet_gateways cr;
     cr_nat_gateways := cr_nat_gateways cr |}.

Definition set_route_tables (d : dict (option string) string) (cr : CreatedResources) :=
  {| cr_vpc := cr_vpc cr; cr_subnets := cr_subnets cr;
     cr_route_tables := d;
     cr_security_groups := cr_security_groups cr;
     cr_internet_gateways := cr_internet_gateways cr;
     cr_nat_gateways := cr_nat_gateways cr |}.

Definition set_security_groups (d : dict (option string) string) (cr : CreatedResources) :=
  {| cr_vpc := cr_vpc cr; cr_subnets := cr_subnets cr;
     cr_route_tables := cr_route_tables cr;
     cr_security_groups := d;
     cr_internet_gateways := cr_internet_gateways cr;
     cr_nat_gateways := cr_nat_gateways cr |}.

Definition set_internet_gateways (d : dict string Igw.t) (cr : CreatedResources) :=
  {| cr_vpc := cr_vpc cr; cr_subnets := cr_subnets cr;
     cr_route_tables := cr_route_tables cr;
     cr_security_groups := cr_security_groups cr;
     cr_internet_gateways := d;
     cr_nat_gateways := cr_nat_gateways cr |}.

Definition modify_created (f : CreatedResources -> CreatedResources) : M unit :=
  cr <- get_created ;; put_created (f cr).

(** The tag filter of the gateway, subnet, route-table and security-group
    paths: [[tag for tag in Tags if not tag['Key'].startswith('aws:')]]. *)
Definition not_aws_tag (tag : Tag) : bool := negb (startswith (Key tag) "aws:").

(** The tag filter of the network path:
    [tag['Key'] != 'aws:cloudformation:stack-name']. *)
Definition not_stack_name_tag (tag : Tag) : bool :=
  negb (Key tag =? "aws:cloudformation:stack-name").

Definition filter_map {A B} (f : A -> option B) (l : list A) : list B :=
  flat_map (fun a => match f a with Some b => [b] | None => [] end) l.

(** ** [_clean_sg_rule] *)

Definition clean_ip_range (ip_range : IpRange.t) : option CleanIpRange.t :=
  match IpRange.CidrIp ip_range with
  | Some cidr =>
      Some {| CleanIpRange.CidrIp := cidr;
              CleanIpRange.Description := IpRange.Description ip_range |}
  | None => None
  end.

Definition clean_ipv6_range (ip_range : Ipv6Range.t) : option CleanIpv6Range.t :=
  match Ipv6Range.CidrIpv6 ip_range with
  | Some cidr =>
      Some {| CleanIpv6Range.CidrIpv6 := cidr;
              CleanIpv6Range.Description := Ipv6Range.Description ip_range |}
  | None => None
  end.

Definition _clean_sg_rule (rule : Rule.t) : option CleanRule.t :=
  match Rule.IpProtocol rule with
  | None => None
  | Some proto =>
      Some {|
        CleanRule.IpProtocol := proto;
        CleanRule.FromPort := Rule.FromPort rule;
        CleanRule.ToPort := Rule.ToPort rule;
        CleanRule.IpRanges :=
          match Rule.IpRanges rule with
          | Some (r :: rs) => Some (filter_map clean_ip_range (r :: rs))
          | _ => None
          end;
        CleanRule.Ipv6Ranges :=
          match Rule.Ipv6Ranges rule with
          | Some (r :: rs) => Some (filter_map clean_ipv6_range (r :: rs))
          | _ => None
          end
      |}
  end.

(** The rule [restore_security_groups] revokes before adding egress rules. *)
Definition default_egress_rule : CleanRule.t :=
  {| CleanRule.IpProtocol := "-1";
     CleanRule.FromPort := None;
     CleanRule.ToPort := None;
     CleanRule.IpRanges :=
       Some [ {| CleanIpRange.CidrIp := "0.0.0.0/0";
                 CleanIpRange.Description := None |} ];
     CleanRule.Ipv6Ranges := None |}.

(** Arguments of the [restore] command and what [__init__] derives. *)
Record Args := {
  arg_bucket : string;
  arg_timestamp : option string;
  arg_vpc_id : option string;
  arg_region : option string;
  arg_profile : option string
}.

Record Session := { sess_account_id : string; sess_region : option string }.

(** ** Class [VpcRestore] *)

Section VpcRestore.
(** [self.ec2]: from the calls issued so far and the call to its outcome;
    a creation call returns the new identifier. *)
Variable ec2 : list Call -> Call -> outcome string.
(** [self.s3.list_objects_v2(Bucket, Prefix, Delimiter='/')]: the
    ['Prefix'] values of ['CommonPrefixes'], [None] when the key is
    missing from the response. *)
Variable s3_list_objects_v2 : string -> string -> outcome (option (list string)).
(** [self.s3.get_object(Bucket, Key)['Body'].read().decode('utf-8')]. *)
Variable s3_get_object : string -> string -> outcome string.
(** [json.loads] and [yaml.safe_load]; [None] is a document that
    decodes to [None]. *)
Variable json_loads : string -> outcome (option Backup.t).
Variable yaml_safe_load : string -> outcome (option Backup.t).

(** The attributes [__init__] sets besides [self.timestamp] and
    [self.created_resources]. *)
Variable bucket : string.
Variable target_vpc_id : option string.
Variable region : option string.
Variable account_id : string.
Variable current_region : option string.

(** One call on [self.ec2]: the call is issued, then returns or raises. *)
Definition call (c : Call) : M string :=
  fun st =>
    (ec2 (calls st) c,
     {| self_timestamp := self_timestamp st;
        created_resources := created_resources st;
        calls := calls st ++ [c];
        logs := logs st |}).

Definition lift {A} (o : outcome A) : M A := fun st => (o, st).

Definition backups_prefix : string :=
  "vpc-backups/" ++ account_id ++ "/" ++ fmt (py_or region current_region) ++ "/".

Definition find_latest_backup : M (option string) :=
  let prefix := backups_prefix in
  try_ClientError
    (response <- lift (s3_list_objects_v2 bucket prefix) ;;
     match response with
     | None | Some [] =>
         log ERROR ("No backups found with prefix: " ++ prefix) ;;
         ret None
     | Some common_prefixes =>
         match index_m1 (sorted common_prefixes) with
         | None => raise (OtherError "IndexError")
         | Some latest_prefix =>
             match index_m2 (split "/" latest_prefix) with
             | None => raise (OtherError "IndexError")
             | Some ts =>
                 put_timestamp (Some ts) ;;
                 log INFO ("Found latest backup from " ++ ts) ;;
                 ret (Some latest_prefix)
             end
         end
     end)
    (fun _ e =>
       log ERROR ("Error finding latest backup: " ++ e) ;;
       ret None).

Definition load_from (prefix : string) : M (option Backup.t) :=
  try_ClientError
    (let s3_key := prefix ++ "vpc_config.json" in
     log INFO ("Loading backup from s3://" ++ bucket ++ "/" ++ s3_key) ;;
     body <- lift (s3_get_object bucket s3_key) ;;
     backup_data <- lift (json_loads body) ;;
     ts <- get_timestamp ;;
     log INFO ("Successfully loaded JSON backup from " ++ fmt ts) ;;
     ret backup_data)
    (fun code e =>
       if code =? "NoSuchKey" then
         try_ClientError
           (let s3_key := prefix ++ "vpc_config.yaml" in
            log INFO ("JSON not found, trying YAML: s3://" ++ bucket ++ "/" ++ s3_key) ;;
            body <- lift (s3_get_object bucket s3_key) ;;
            backup_data <- lift (yaml_safe_load body) ;;
            ts <- get_timestamp ;;
            log INFO ("Successfully loaded YAML backup from " ++ fmt ts) ;;
            ret backup_data)
           (fun _ e2 =>
              log ERROR ("Error loading YAML backup: " ++ e2) ;;
              ret None)
       else
         log ERROR ("Error loading JSON backup: " ++ e) ;;
         ret None).

Definition load_backup_data : M (option Backup.t) :=
  ts <- get_timestamp ;;
  if negb (truthy ts) then
    prefix <- find_latest_backup ;;
    if negb (truthy prefix) then ret None
    else load_from (get_default prefix "")
  else
    load_from (backups_prefix ++ get_default ts "" ++ "/").

Definition restore_vpc (vpc_data : Vpc.t) : M (option string) :=
  let vpc_id := Vpc.vpc_id vpc_data in
  let cidr_block := Vpc.CidrBlock vpc_data in
  if negb (truthy cidr_block) then
    log ERROR ("Missing CIDR block for VPC " ++ vpc_id) ;;
    ret None
  else
    let cidr_block := get_default cidr_block "" in
    let tags := get_default (Vpc.Tags vpc_data) [] in
    try_ClientError
      (log INFO ("Creating new VPC with CIDR " ++ cidr_block) ;;
       new_vpc_id <- call (create_vpc cidr_block) ;;
       call (wait_vpc_available new_vpc_id) ;;
       when (nonempty tags)
         (let tag_specs := filter not_stack_name_tag tags in
          when (nonempty tag_specs)
            (call (create_tags new_vpc_id tag_specs) ;; ret tt)) ;;
       when (get_default (Vpc.EnableDnsSupport vpc_data) true)
         (call (modify_vpc_attribute new_vpc_id (EnableDnsSupport true)) ;;
          ret tt) ;;
       when (get_default (Vpc.EnableDnsHostnames vpc_data) false)
         (call (modify_vpc_attribute new_vpc_id (EnableDnsHostnames true)) ;;
          ret tt) ;;
       log INFO ("Successfully created new VPC: " ++ new_vpc_id) ;;
       modify_created (set_vpc (Some new_vpc_id)) ;;
       ret (Some new_vpc_id))
      (fun _ e =>
         log ERROR ("Error creating VPC: " ++ e) ;;
         ret None).

(** [if 'Tags' in data: ... create_tags(...)] of the four child paths. *)
Definition apply_tags (tags : option (list Tag)) (new_id : string) : M unit :=
  match tags with
  | Some tags =>
      let tag_specs := filter not_aws_tag tags in
      when (nonempty tag_specs) (call (create_tags new_id tag_specs) ;; ret tt)
  | None => ret tt
  end.

Definition restore_internet_gateway (igw_data : Igw.t) (new_vpc_id : string)
  : M (option string) :=
  if Igw.is_empty igw_data then ret None
  else
    try_ClientError
      (log INFO "Creating new Internet Gateway" ;;
       new_igw_id <- call create_internet_gateway ;;
       apply_tags (Igw.Tags igw_data) new_igw_id ;;
       log INFO ("Attaching Internet Gateway " ++ new_igw_id ++ " to VPC " ++ new_vpc_id) ;;
       call (attach_internet_gateway new_igw_id new_vpc_id) ;;
       modify_created (fun cr =>
         set_internet_gateways
           (dict_set string_dec new_igw_id igw_data (cr_internet_gateways cr)) cr) ;;
       ret (Some new_igw_id))
      (fun _ e =>
         log ERROR ("Error restoring Internet Gateway: " ++ e) ;;
         ret None).

(** Body of the loop of [restore_subnets]. *)
Definition restore_subnet (new_vpc_id : string) (subnet_data : Subnet.t) : M unit :=
  let subnet_id := Subnet.SubnetId subnet_data in
  let cidr_block := Subnet.CidrBlock subnet_data in
  let az := Subnet.AvailabilityZone subnet_data in
  if negb (truthy cidr_block) then
    log ERROR ("Missing CIDR block for subnet " ++ fmt subnet_id)
  else
    let cidr_block := get_default cidr_block "" in
    try_ClientError
      (log INFO ("Creating new subnet with CIDR " ++ cidr_block ++ " in AZ " ++ fmt az) ;;
       new_subnet_id <-
         call (create_subnet new_vpc_id cidr_block (if truthy az then az else None)) ;;
       apply_tags (Subnet.Tags subnet_data) new_subnet_id ;;
       when (get_default (Subnet.MapPublicIpOnLaunch subnet_data) false)
         (call (modify_subnet_attribute new_subnet_id true) ;; ret tt) ;;
       log INFO ("Created subnet " ++ new_subnet_id) ;;
       modify_created (fun cr =>
         set_subnets
           (dict_set opt_string_dec subnet_id new_subnet_id (cr_subnets cr)) cr))
      (fun _ e => log ERROR ("Error creating subnet: " ++ e)).

Definition restore_subnets (subnet_data_list : list Subnet.t) (new_vpc_id : string)
  : M unit :=
  for_each subnet_data_list (restore_subnet new_vpc_id).

(** Body of the loop over [rt_data['Routes']]. *)
Definition restore_route (new_rt_id : string) (igw_id : option string)
    (route : Route.t) : M unit :=
  let gateway_id := Route.GatewayId route in
  if opt_string_dec gateway_id (Some "local") then ret tt
  else
    let dest_cidr := Route.DestinationCidrBlock route in
    if negb (truthy dest_cidr) then ret tt
    else
      let dest_cidr := get_default dest_cidr "" in
      if truthy gateway_id && str_in "igw-" (get_default gateway_id "")
         && truthy igw_id
      then
        log INFO ("Creating route to " ++ dest_cidr ++ " via Internet Gateway") ;;
        try_ClientError
          (call (create_route new_rt_id dest_cidr (get_default igw_id "")) ;;
           ret tt)
          (fun _ e => log ERROR ("Error creating route: " ++ e))
      else ret tt.

(** Body of the loop over [rt_data['Associations']]. *)
Definition restore_association (new_rt_id : string) (assoc : Assoc.t) : M unit :=
  if get_default (Assoc.Main assoc) false then ret tt
  else
    let subnet_id := Assoc.SubnetId assoc in
    cr <- get_created ;;
    if truthy subnet_id && dict_mem opt_string_dec subnet_id (cr_subnets cr) then
      match dict_get opt_string_dec subnet_id (cr_subnets cr) with
      | None => raise (OtherError "KeyError")
      | Some new_subnet_id =>
          log INFO ("Associating route table " ++ new_rt_id ++ " with subnet "
                    ++ new_subnet_id) ;;
          try_ClientError
            (call (associate_route_table new_rt_id new_subnet_id) ;; ret tt)
            (fun _ e => log ERROR ("Error associating route table: " ++ e))
      end
    else ret tt.

(** Body of the loop of [restore_route_tables]. *)
Definition restore_route_table (new_vpc_id : string) (igw_id : option string)
    (rt_data : RouteTable.t) : M unit :=
  let rt_id := RouteTable.RouteTableId rt_data in
  try_ClientError
    (log INFO "Creating new route table" ;;
     new_rt_id <- call (create_route_table new_vpc_id) ;;
     apply_tags (RouteTable.Tags rt_data) new_rt_id ;;
     match RouteTable.Routes rt_data with
     | Some routes => for_each routes (restore_route new_rt_id igw_id)
     | None => ret tt
     end ;;
     match RouteTable.Associations rt_data with
     | Some assocs => for_each assocs (restore_association new_rt_id)
     | None => ret tt
     end ;;
     modify_created (fun cr =>
       set_route_tables
         (dict_set opt_string_dec rt_id new_rt_id (cr_route_tables cr)) cr) ;;
     log INFO ("Created route table " ++ new_rt_id))
    (fun _ e => log ERROR ("Error creating route table: " ++ e)).

Definition restore_route_tables (rt_data_list : list RouteTable.t)
    (new_vpc_id : string) (igw_id : option string) : M unit :=
  for_each rt_data_list (restore_route_table new_vpc_id igw_id).

(** Body of the first loop of [restore_security_groups]. *)
Definition create_group (new_vpc_id : string) (sg_data : Sg.t) : M unit :=
  let sg_id := Sg.GroupId sg_data in
  let sg_name := Sg.GroupName sg_data in
  let sg_desc := get_default (Sg.Description sg_data) "Restored security group" in
  if opt_string_dec sg_name (Some "default") then ret tt
  else
    try_ClientError
      (log INFO ("Creating security group " ++ fmt sg_name) ;;
       new_sg_id <- call (create_security_group sg_name sg_desc new_vpc_id) ;;
       apply_tags (Sg.Tags sg_data) new_sg_id ;;
       modify_created (fun cr =>
         set_security_groups
           (dict_set opt_string_dec sg_id new_sg_id (cr_security_groups cr)) cr))
      (fun _ e => log ERROR ("Error creating security group: " ++ e)).

Definition add_ingress_rule (new_sg_id : string) (rule : Rule.t) : M unit :=
  try_ClientError
    (match _clean_sg_rule rule with
     | Some clean_rule =>
         log INFO ("Adding ingress rule to security group " ++ new_sg_id) ;;
         call (authorize_security_group_ingress new_sg_id [clean_rule]) ;;
         ret tt
     | None => ret tt
     end)
    (fun _ e =>
       when (negb (str_in "InvalidPermission.Duplicate" e))
         (log ERROR ("Error adding ingress rule: " ++ e))).

Definition add_egress_rule (new_sg_id : string) (rule : Rule.t) : M unit :=
  try_ClientError
    (match _clean_sg_rule rule with
     | Some clean_rule =>
         log INFO ("Adding egress rule to security group " ++ new_sg_id) ;;
         call (authorize_security_group_egress new_sg_id [clean_rule]) ;;
         ret tt
     | None => ret tt
     end)
    (fun _ e =>
       when (negb (str_in "InvalidPermission.Duplicate" e))
         (log ERROR ("Error adding egress rule: " ++ e))).

(** Body of the second loop of [restore_security_groups]. *)
Definition add_group_rules (sg_data : Sg.t) : M unit :=
  let sg_id := Sg.GroupId sg_data in
  cr <- get_created ;;
  if (if opt_string_dec (Sg.GroupName sg_data) (Some "default") then true else false)
     || negb (dict_mem opt_string_dec sg_id (cr_security_groups cr))
  then ret tt
  else
    match dict_get opt_string_dec sg_id (cr_security_groups cr) with
    | None => raise (OtherError "KeyError")
    | Some new_sg_id =>
        match Sg.IpPermissions sg_data with
        | Some rules => for_each rules (add_ingress_rule new_sg_id)
        | None => ret tt
        end ;;
        match Sg.IpPermissionsEgress sg_data with
        | Some rules =>
            try_ClientError
              (call (revoke_security_group_egress new_sg_id [default_egress_rule]) ;;
               ret tt)
              (fun _ _ => ret tt) ;;
            for_each rules (add_egress_rule new_sg_id)
        | None => ret tt
        end
    end.

Definition restore_security_groups (sg_data_list : list Sg.t) (new_vpc_id : string)
  : M unit :=
  for_each sg_data_list (create_group new_vpc_id) ;;
  for_each sg_data_list add_group_rules.

(** The report at the end of one network's restore. *)
Definition report_mapping (kind : string) (d : dict (option string) string) : M unit :=
  for_each d (fun kv => log INFO ("  " ++ kind ++ ": " ++ fmt (fst kv) ++ " -> " ++ snd kv)).

(** Body of the loop of [restore_vpc_from_backup]. *)
Definition restore_network (vpcs : list (string * Vpc.t)) (vpc_id : string) : M unit :=
  match dict_get string_dec vpc_id vpcs with
  | None => raise (OtherError "KeyError")
  | Some vpc_details =>
      log INFO ("Restoring VPC " ++ vpc_id ++ "...") ;;
      new_vpc_id <- restore_vpc vpc_details ;;
      if negb (truthy new_vpc_id) then
        log ERROR ("Failed to restore VPC " ++ vpc_id)
      else
        let new_vpc_id := get_default new_vpc_id "" in
        new_igw_id <-
          match Vpc.internet_gateways vpc_details with
          | Some (igw_data :: _) =>
              if negb (Igw.is_empty igw_data)
              then restore_internet_gateway igw_data new_vpc_id
              else ret None
          | _ => ret None
          end ;;
        log INFO "Restoring subnets..." ;;
        restore_subnets (get_default (Vpc.subnets vpc_details) []) new_vpc_id ;;
        log INFO "Restoring route tables..." ;;
        restore_route_tables (get_default (Vpc.route_tables vpc_details) [])
          new_vpc_id new_igw_id ;;
        log INFO "Restoring security groups..." ;;
        restore_security_groups (get_default (Vpc.security_groups vpc_details) [])
          new_vpc_id ;;
        log INFO ("VPC " ++ vpc_id ++ " has been restored to " ++ new_vpc_id) ;;
        log INFO "Resource mappings (original ID -> new ID):" ;;
        log INFO ("  VPC: " ++ vpc_id ++ " -> " ++ new_vpc_id) ;;
        cr <- get_created ;;
        report_mapping "Subnet" (cr_subnets cr) ;;
        cr <- get_created ;;
        report_mapping "Route Table" (cr_route_tables cr) ;;
        cr <- get_created ;;
        report_mapping "Security Group" (cr_security_groups cr)
  end.

(** The networks the run restores, once the snapshot is loaded. *)
Definition vpc_ids_of (vpcs : list (string * Vpc.t)) : list string :=
  if truthy target_vpc_id then [get_default target_vpc_id ""]
  else map fst vpcs.

Definition restore_vpc_from_backup : M bool :=
  backup_data <- load_backup_data ;;
  match backup_data with
  | None =>
      log ERROR "Failed to load backup data" ;; ret false
  | Some backup_data =>
      if Backup.is_empty backup_data then
        log ERROR "Failed to load backup data" ;; ret false
      else
        let vpcs := get_default (Backup.vpcs backup_data) [] in
        if negb (nonempty vpcs) then
          log ERROR "No VPCs found in backup data" ;; ret false
        else if truthy target_vpc_id
                && negb (dict_mem string_dec (get_default target_vpc_id "") vpcs)
        then
          log ERROR ("VPC " ++ fmt target_vpc_id ++ " not found in backup data") ;;
          ret false
        else
          for_each (vpc_ids_of vpcs) (restore_network vpcs) ;;
          ret true
  end.
End VpcRestore.

(** ** The [restore] command *)

Section Commands.
Variable ec2 : list Call -> Call -> outcome string.
Variable s3_list_objects_v2 : string -> string -> outcome (option (list string)).
Variable s3_get_object : string -> string -> outcome string.
Variable json_loads : string -> outcome (option Backup.t).
Variable yaml_safe_load : string -> outcome (option Backup.t).
(** [boto3.Session(profile_name, region_name)], its three clients and
    [sts.get_caller_identity()['Account']]. *)
Variable new_session : option string -> option string -> outcome Session.

(** The state [VpcRestore.__init__] leaves. *)
Definition init_state (args : Args) (sess : Session) : State :=
  {| self_timestamp := arg_timestamp args;
     created_resources := init_created_resources;
     calls := [];
     logs := [(INFO, "Initialized VPC restore for account " ++ sess_account_id sess
                     ++ " in region " ++ fmt (sess_region sess))] |}.

(** [restore = VpcRestore(...); restore.restore_vpc_from_backup()]. *)
Definition run_restore (args : Args) (sess : Session) : outcome bool * State :=
  restore_vpc_from_backup ec2 s3_list_objects_v2 s3_get_object json_loads
    yaml_safe_load (arg_bucket args) (arg_vpc_id args) (arg_region args)
    (sess_account_id sess) (sess_region sess) (init_state args sess).

(** The exit code of [cmd_restore]. *)
Definition cmd_restore (args : Args) : Z :=
  match new_session (arg_profile args) (arg_region args) with
  | Raise _ => 1
  | Ret sess =>
      match fst (run_restore args sess) with
      | Ret true => 0
      | Ret false => 1
      | Raise _ => 1
      end
  end.
End Commands.


(** ** Observations on a run *)

Definition is_create_route (c : Call) : bool :=
  match c with create_route _ _ _ => true | _ => false end.

Definition is_authorize_ingress (c : Call) : bool :=
  match c with authorize_security_group_ingress _ _ => true | _ => false end.

Definition is_authorize_egress (c : Call) : bool :=
  match c with authorize_security_group_egress _ _ => true | _ => false end.

Definition is_modify_vpc_attribute (c : Call) : bool :=
  match c with modify_vpc_attribute _ _ => true | _ => false end.

(** The log records a computation emits from a state. *)
Definition emitted {A} (m : M A) (st : State) : list (Level * string) :=
  skipn (length (logs st)) (logs (snd (m st))).

(** The DNS attributes the provisioning API holds for a network: the
    value a new network starts with, then what the [modify_vpc_attribute]
    calls issued for it set, the last one winning. *)
Record DnsAttributes := { dns_support : bool; dns_hostnames : bool }.

Definition apply_call (vpc : string) (a : DnsAttributes) (c : Call) : DnsAttributes :=
  match c with
  | modify_vpc_attribute v attr =>
      if v =? vpc then
        match attr with
        | EnableDnsSupport b =>
            {| dns_support := b; dns_hostnames := dns_hostnames a |}
        | EnableDnsHostnames b =>
            {| dns_support := dns_support a; dns_hostnames := b |}
        end
      else a
  | _ => a
  end.

Definition dns_attributes (new_network : DnsAttributes) (vpc : string)
    (cs : list Call) : DnsAttributes :=
  fold_left (apply_call vpc) cs new_network.

(** What the provisioning API gives a network created without further
    calls: DNS support enabled, DNS hostnames disabled. *)
Definition api_new_network : DnsAttributes :=
  {| dns_support := true; dns_hostnames := false |}.

(** The timestamp [VpcBackup.__init__] writes,
    [strftime('%Y-%m-%d-%H-%M-%S')]: in the pattern, [d] is a digit and any
    other character is itself. *)
Definition is_digit (c : ascii) : bool :=
  (48 <=? nat_of_ascii c)%nat && (nat_of_ascii c <=? 57)%nat.

Fixpoint matches (pattern s : string) : bool :=
  match pattern, s with
  | EmptyString, EmptyString => true
  | String p pattern', String c s' =>
      (if Ascii.eqb p "d" then is_digit c else Ascii.eqb c p)
      && matches pattern' s'
  | _, _ => false
  end.

Definition is_timestamp (s : string) : bool := matches "dddd-dd-dd-dd-dd-dd" s.

(** ** Collaborators used to run the model on concrete inputs *)

Definition fresh_id (n : nat) : string :=
  "new-" ++ NilEmpty.string_of_uint (Nat.to_uint n).

(** An EC2 client on which every call succeeds; a creation call returns
    an identifier numbered by the calls issued before it. *)
Definition ec2_ok : list Call -> Call -> outcome string :=
  fun history _ => Ret (fresh_id (length history)).

(** An EC2 client on which every call fails with a [ClientError]. *)
Definition ec2_down : list Call -> Call -> outcome string :=
  fun _ _ => Raise (ClientError "RequestLimitExceeded"
                      "An error occurred (RequestLimitExceeded)").

Definition empty_state : State :=
  {| self_timestamp := None; created_resources := init_created_resources;
     calls := []; logs := [] |}.

(** A captured route targets an internet gateway when its ['GatewayId']
    is set and contains [igw-]: the test [restore_route_tables] makes. *)
Definition targets_internet_gateway (route : Route.t) : bool :=
  truthy (Route.GatewayId route)
  && str_in "igw-" (get_default (Route.GatewayId route) "").

(** The captured routes of the example of the specification. *)
Definition local_route : Route.t :=
  {| Route.GatewayId := Some "local";
     Route.DestinationCidrBlock := Some "10.0.0.0/16" |}.

Definition igw_route : Route.t :=
  {| Route.GatewayId := Some "igw-A";
     Route.DestinationCidrBlock := Some "0.0.0.0/0" |}.

(** A route through a NAT gateway, as [describe_route_tables] gives it (no
    ['GatewayId']), and one through a virtual private gateway. *)
Definition nat_route : Route.t :=
  {| Route.GatewayId := None;
     Route.DestinationCidrBlock := Some "0.0.0.0/0" |}.

Definition vgw_route : Route.t :=
  {| Route.GatewayId := Some "vgw-0a1b2c";
     Route.DestinationCidrBlock := Some "192.168.0.0/16" |}.

(** [same_calls p a b]: from state [a] to state [b] no call satisfying
    [p] was issued. *)
Definition same_calls (p : Call -> bool) (a b : State) : Prop :=
  filter p (calls b) = filter p (calls a).

(** [on_created R a b]: the mappings of states [a] and [b] are related
    by [R]. *)
Definition on_created (R : CreatedResources -> CreatedResources -> Prop)
    (a b : State) : Prop :=
  R (created_resources a) (created_resources b).

(** A call that creates the reserved default security group. *)
Definition creates_default_group (c : Call) : bool :=
  match c with
  | create_security_group (Some name) _ _ => name =? "default"
  | _ => false
  end.

(** An EC2 client of which no call raises anything but [ClientError]. *)
Definition only_ClientError (ec2 : list Call -> Call -> outcome string) : Prop :=
  forall history c text, ec2 history c <> Raise (OtherError text).

(** [new_keys_satisfy proj Q a b]: every key of mapping [proj] in [b] is
    a key of it in [a] or satisfies [Q]. *)
Definition new_keys_satisfy (proj : CreatedResources -> dict (option string) string)
    (Q : option string -> Prop) (a b : CreatedResources) : Prop :=
  forall k, dict_mem opt_string_dec k (proj b) = true ->
            dict_mem opt_string_dec k (proj a) = true \/ Q k.

(** [k] is the original identifier of a captured group of the list that is
    not the default group. *)
Definition named_group_id (sg_data_list : list Sg.t) (k : option string) : Prop :=
  exists sg_data, In sg_data sg_data_list /\ Sg.GroupId sg_data = k
                  /\ Sg.GroupName sg_data <> Some "default".

(** Captured rules and groups used to run the model. *)
Definition rule_no_protocol : Rule.t :=
  {| Rule.IpProtocol := None;
     Rule.FromPort := Some 22%Z;
     Rule.ToPort := Some 22%Z;
     Rule.IpRanges :=
       Some [ {| IpRange.CidrIp := Some "10.0.0.0/8";
                 IpRange.Description := None |} ];
     Rule.Ipv6Ranges := None |}.

Definition rule_mixed_ranges : Rule.t :=
  {| Rule.IpProtocol := Some "tcp";
     Rule.FromPort := Some 443%Z;
     Rule.ToPort := Some 443%Z;
     Rule.IpRanges :=
       Some [ {| IpRange.CidrIp := Some "10.0.0.0/8";
                 IpRange.Description := Some "office" |};
              {| IpRange.CidrIp := None;
                 IpRange.Description := Some "no address" |};
              {| IpRange.CidrIp := Some "192.168.0.0/16";
                 IpRange.Description := None |} ];
     Rule.Ipv6Ranges := None |}.

Definition rule_mixed_ranges_clean : CleanRule.t :=
  {| CleanRule.IpProtocol := "tcp";
     CleanRule.FromPort := Some 443%Z;
     CleanRule.ToPort := Some 443%Z;
     CleanRule.IpRanges :=
       Some [ {| CleanIpRange.CidrIp := "10.0.0.0/8";
                 CleanIpRange.Description := Some "office" |};
              {| CleanIpRange.CidrIp := "192.168.0.0/16";
                 CleanIpRange.Description := None |} ];
     CleanRule.Ipv6Ranges := None |}.

Definition default_group : Sg.t :=
  {| Sg.GroupId := Some "sg-default";
     Sg.GroupName := Some "default";
     Sg.Description := Some "default VPC security group";
     Sg.Tags := None;
     Sg.IpPermissions := Some [rule_mixed_ranges];
     Sg.IpPermissionsEgress := None |}.

Definition web_group : Sg.t :=
  {| Sg.GroupId := Some "sg-web";
     Sg.GroupName := Some "web";
     Sg.Description := Some "web servers";
     Sg.Tags := None;
     Sg.IpPermissions := Some [rule_no_protocol; rule_mixed_ranges];
     Sg.IpPermissionsEgress := None |}.

(** [unchanged_or f a b]: mappings [b] are mappings [a], or [a] with the
    update [f]. *)
Definition unchanged_or (P : string -> Prop)
    (f : string -> CreatedResources -> CreatedResources)
    (a b : CreatedResources) : Prop :=
  b = a \/ exists new_id, P new_id /\ b = f new_id a.

(** A captured gateway. *)
Definition igw_A : Igw.t :=
  {| Igw.InternetGatewayId := Some "igw-A"; Igw.Tags := None |}.

(** [mappings_kept a b]: every key of a mapping of [a] is a key of the
    same mapping of [b]. *)
Definition mappings_kept (a b : CreatedResources) : Prop :=
  (forall k, dict_mem opt_string_dec k (cr_subnets a) = true ->
             dict_mem opt_string_dec k (cr_subnets b) = true)
  /\ (forall k, dict_mem opt_string_dec k (cr_route_tables a) = true ->
                dict_mem opt_string_dec k (cr_route_tables b) = true)
  /\ (forall k, dict_mem opt_string_dec k (cr_security_groups a) = true ->
                dict_mem opt_string_dec k (cr_security_groups b) = true)
  /\ (forall k, dict_mem string_dec k (cr_internet_gateways a) = true ->
                dict_mem string_dec k (cr_internet_gateways b) = true).

(** A snapshot of two networks; the first has one subnet, the second
    none. *)
Definition subnet_a : Subnet.t :=
  {| Subnet.SubnetId := Some "subnet-a";
     Subnet.CidrBlock := Some "10.0.1.0/24";
     Subnet.AvailabilityZone := Some "eu-west-1a";
     Subnet.Tags := None;
     Subnet.MapPublicIpOnLaunch := None |}.

Definition vpc_a : Vpc.t :=
  {| Vpc.vpc_id := "vpc-a";
     Vpc.CidrBlock := Some "10.0.0.0/16";
     Vpc.Tags := None;
     Vpc.EnableDnsSupport := None;
     Vpc.EnableDnsHostnames := None;
     Vpc.internet_gateways := Some [];
     Vpc.subnets := Some [subnet_a];
     Vpc.route_tables := Some [];
     Vpc.security_groups := Some [] |}.

Definition vpc_b : Vpc.t :=
  {| Vpc.vpc_id := "vpc-b";
     Vpc.CidrBlock := Some "10.1.0.0/16";
     Vpc.Tags := None;
     Vpc.EnableDnsSupport := None;
     Vpc.EnableDnsHostnames := None;
     Vpc.internet_gateways := Some [];
     Vpc.subnets := Some [];
     Vpc.route_tables := Some [];
     Vpc.security_groups := Some [] |}.

Definition two_vpcs : list (string * Vpc.t) := [("vpc-a", vpc_a); ("vpc-b", vpc_b)].

(** A network captured with DNS support disabled. *)
Definition vpc_dns_off : Vpc.t :=
  {| Vpc.vpc_id := "vpc-a";
     Vpc.CidrBlock := Some "10.0.0.0/16";
     Vpc.Tags := None;
     Vpc.EnableDnsSupport := Some false;
     Vpc.EnableDnsHostnames := Some false;
     Vpc.internet_gateways := None;
     Vpc.subnets := None;
     Vpc.route_tables := None;
     Vpc.security_groups := None |}.

(** A network and a subnet captured with a user tag and a tag the
    platform set. *)
Definition stack_tags : list Tag :=
  [ {| Key := "Name"; Value := "prod" |};
    {| Key := "aws:cloudformation:stack-id"; Value := "arn:aws:cloudformation:stack/prod" |} ].

Definition vpc_stack_tags : Vpc.t :=
  {| Vpc.vpc_id := "vpc-a";
     Vpc.CidrBlock := Some "10.0.0.0/16";
     Vpc.Tags := Some stack_tags;
     Vpc.EnableDnsSupport := None;
     Vpc.EnableDnsHostnames := None;
     Vpc.internet_gateways := None;
     Vpc.subnets := None;
     Vpc.route_tables := None;
     Vpc.security_groups := None |}.

Definition subnet_stack_tags : Subnet.t :=
  {| Subnet.SubnetId := Some "subnet-a";
     Subnet.CidrBlock := Some "10.0.1.0/24";
     Subnet.AvailabilityZone := None;
     Subnet.Tags := Some stack_tags;
     Subnet.MapPublicIpOnLaunch := None |}.

(** An EC2 client that, as the provisioning API does, rejects a
    [create_tags] call carrying a key that starts with [aws:]; every other
    call succeeds. *)
Definition ec2_reserved_tags : list Call -> Call -> outcome string :=
  fun history c =>
    match c with
    | create_tags _ tags =>
        if forallb not_aws_tag tags then Ret (fresh_id (length history))
        else Raise (ClientError "InvalidParameterValue"
                      "An error occurred (InvalidParameterValue) when calling the CreateTags operation: Tag keys starting with 'aws:' are reserved for internal use")
    | _ => Ret (fresh_id (length history))
    end.

(** The three tests [restore_vpc_from_backup] makes on a loaded snapshot
    before it restores anything: the snapshot is not empty, it holds
    networks, and the requested network, if any, is one of them. *)
Definition snapshot_usable (target_vpc_id : option string) (b : Backup.t) : bool :=
  negb (Backup.is_empty b)
  && nonempty (get_default (Backup.vpcs b) [])
  && negb (truthy target_vpc_id
           && negb (dict_mem string_dec (get_default target_vpc_id "")
                      (get_default (Backup.vpcs b) []))).

(** A snapshot whose one network has no CIDR block, and collaborators
    that serve it. *)
Definition vpc_no_cidr : Vpc.t :=
  {| Vpc.vpc_id := "vpc-a";
     Vpc.CidrBlock := None;
     Vpc.Tags := None;
     Vpc.EnableDnsSupport := None;
     Vpc.EnableDnsHostnames := None;
     Vpc.internet_gateways := None;
     Vpc.subnets := Some [subnet_a];
     Vpc.route_tables := None;
     Vpc.security_groups := None |}.

Definition snapshot_of (vpcs : list (string * Vpc.t)) : Backup.t :=
  {| Backup.metadata :=
       Some {| Metadata.timestamp := "2024-01-01-00-00-00";
               Metadata.account_id := "123456789012";
               Metadata.vpc_count := length vpcs |};
     Backup.vpcs := Some vpcs |}.

Definition s3_no_listing : string -> string -> outcome (option (list string)) :=
  fun _ _ => Ret None.

Definition s3_get_any : string -> string -> outcome string :=
  fun _ _ => Ret "{}".

Definition decode_as (b : Backup.t) : string -> outcome (option Backup.t) :=
  fun _ => Ret (Some b).

Definition session_ok : option string -> option string -> outcome Session :=
  fun _ _ => Ret {| sess_account_id := "123456789012";
                    sess_region := Some "eu-west-1" |}.

Definition restore_args : Args :=
  {| arg_bucket := "backups";
     arg_timestamp := Some "2024-01-01-00-00-00";
     arg_vpc_id := None;
     arg_region := None;
     arg_profile := None |}.

(** [m] is an element of [l] that no element of [l] exceeds. *)
Definition is_max (m : string) (l : list string) : Prop :=
  In m l /\ forall x, In x l -> String.leb x m = true.

Definition leb_true (a b : string) : Prop := String.leb a b = true.

(** [c in s] for a character. *)
Fixpoint has_char (c : ascii) (s : string) : bool :=
  match s with
  | EmptyString => false
  | String x s' => Ascii.eqb x c || has_char c s'
  end.

(** Collaborators for the account [123456789012] in [eu-west-1], whose
    bucket holds the snapshots of two timestamps. *)
Definition s3_two_snapshots : string -> string -> outcome (option (list string)) :=
  fun _ prefix =>
    Ret (Some [prefix ++ "2024-01-01-00-00-00" ++ "/";
               prefix ++ "2024-06-01-00-00-00" ++ "/"]).

(** ** Observations used by the further properties *)

Definition is_create_subnet (c : Call) : bool :=
  match c with create_subnet _ _ _ => true | _ => false end.

Definition is_modify_subnet_attribute (c : Call) : bool :=
  match c with modify_subnet_attribute _ _ => true | _ => false end.

Definition is_associate_route_table (c : Call) : bool :=
  match c with associate_route_table _ _ => true | _ => false end.

(** An EC2 client of which every call returns. *)
Definition always_returns (ec2 : list Call -> Call -> outcome string) : Prop :=
  forall history c, exists r, ec2 history c = Ret r.

(** The tagging call of the gateway, subnet, route-table and
    security-group paths for captured tags [tags] and the new object
    [new_id]: none when no tag is left to replay. *)
Definition tag_calls (tags : option (list Tag)) (new_id : string) : list Call :=
  match tags with
  | Some tags =>
      if nonempty (filter not_aws_tag tags)
      then [create_tags new_id (filter not_aws_tag tags)] else []
  | None => []
  end.

(** The creating call of a captured subnet in the new network. *)
Definition create_subnet_call (new_vpc_id : string) (subnet_data : Subnet.t) : Call :=
  create_subnet new_vpc_id (get_default (Subnet.CidrBlock subnet_data) "")
    (if truthy (Subnet.AvailabilityZone subnet_data)
     then Subnet.AvailabilityZone subnet_data else None).

Definition has_cidr (subnet_data : Subnet.t) : bool :=
  truthy (Subnet.CidrBlock subnet_data).

(** A subnet captured with the public-IP-on-launch flag and an
    availability zone, and one without CIDR block. *)
Definition subnet_public : Subnet.t :=
  {| Subnet.SubnetId := Some "subnet-b";
     Subnet.CidrBlock := Some "10.0.2.0/24";
     Subnet.AvailabilityZone := Some "eu-west-1b";
     Subnet.Tags := Some stack_tags;
     Subnet.MapPublicIpOnLaunch := Some true |}.

Definition subnet_no_cidr : Subnet.t :=
  {| Subnet.SubnetId := Some "subnet-c";
     Subnet.CidrBlock := None;
     Subnet.AvailabilityZone := None;
     Subnet.Tags := None;
     Subnet.MapPublicIpOnLaunch := Some true |}.

(** [new_calls_satisfy good a b]: every call of [b] is a call of [a] or
    satisfies [good]. *)
Definition new_calls_satisfy (good : Call -> Prop) (a b : State) : Prop :=
  forall c, In c (calls b) -> In c (calls a) \/ good c.

(** [c] is no [create_route] call, or it routes a captured destination
    through the gateway [igw_id]. *)
Definition routes_through (igw_id : option string) (c : Call) : Prop :=
  is_create_route c = false
  \/ exists new_rt_id dest_cidr new_igw_id,
       igw_id = Some new_igw_id /\ new_igw_id <> ""
       /\ c = create_route new_rt_id dest_cidr new_igw_id.

(** [c] is no [associate_route_table] call, or it associates a subnet
    that the mapping [d] gives for some original identifier. *)
Definition associates_mapped (d : dict (option string) string) (c : Call) : Prop :=
  is_associate_route_table c = false
  \/ exists new_rt_id original_id new_subnet_id,
       dict_get opt_string_dec original_id d = Some new_subnet_id
       /\ c = associate_route_table new_rt_id new_subnet_id.

(** [while_subnets d good a b]: if the subnets mapping of [a] is [d], so is
    that of [b], and every call of [b] is a call of [a] or satisfies
    [good]. *)
Definition while_subnets (d : dict (option string) string) (good : Call -> Prop)
    (a b : State) : Prop :=
  cr_subnets (created_resources a) = d ->
  cr_subnets (created_resources b) = d /\ new_calls_satisfy good a b.

(** A captured route table with the routes of the example, the main
    association and the association of [subnet-a]. *)
Definition rtb_public : RouteTable.t :=
  {| RouteTable.RouteTableId := Some "rtb-1";
     RouteTable.Tags := None;
     RouteTable.Routes := Some [local_route; igw_route; nat_route];
     RouteTable.Associations :=
       Some [ {| Assoc.Main := Some true; Assoc.SubnetId := None |};
              {| Assoc.Main := Some false; Assoc.SubnetId := Some "subnet-a" |};
              {| Assoc.Main := None; Assoc.SubnetId := Some "subnet-z" |} ] |}.

(** The calls the second pass issues for a captured group restored as
    [new_sg_id]: an authorize call for each ingress rule that has a
    protocol, then, when the group was captured with egress rules, the
    call that revokes the default egress rule and an authorize call for
    each egress rule that has a protocol. *)
Definition group_rule_calls (sg_data : Sg.t) (new_sg_id : string) : list Call :=
  map (fun clean => authorize_security_group_ingress new_sg_id [clean])
    (filter_map _clean_sg_rule (get_default (Sg.IpPermissions sg_data) []))
  ++ match Sg.IpPermissionsEgress sg_data with
     | Some rules =>
         revoke_security_group_egress new_sg_id [default_egress_rule]
         :: map (fun clean => authorize_security_group_egress new_sg_id [clean])
              (filter_map _clean_sg_rule rules)
     | None => []
     end.

(** A captured rule whose ranges all lack a CIDR, and a group with egress
    rules. *)
Definition rule_only_malformed : Rule.t :=
  {| Rule.IpProtocol := Some "udp";
     Rule.FromPort := Some 53%Z;
     Rule.ToPort := Some 53%Z;
     Rule.IpRanges :=
       Some [ {| IpRange.CidrIp := None; IpRange.Description := Some "dns" |} ];
     Rule.Ipv6Ranges := None |}.

Definition db_group : Sg.t :=
  {| Sg.GroupId := Some "sg-db";
     Sg.GroupName := Some "db";
     Sg.Description := None;
     Sg.Tags := None;
     Sg.IpPermissions := Some [rule_mixed_ranges];
     Sg.IpPermissionsEgress := Some [rule_no_protocol; rule_only_malformed] |}.

(** [quiet a b]: from [a] to [b] no call was issued and nothing was
    recorded. *)
Definition quiet (a b : State) : Prop :=
  calls b = calls a /\ created_resources b = created_resources a.

Definition is_OtherError (e : exn) : Prop :=
  match e with ClientError _ _ => False | OtherError _ => True end.

Definition is_create_vpc (c : Call) : bool :=
  match c with create_vpc _ => true | _ => false end.

Definition is_create_internet_gateway (c : Call) : bool :=
  match c with create_internet_gateway => true | _ => false end.

(** [c] is no [create_vpc] call, or it creates a network with the CIDR
    block of the captured network [vpc_id] of [vpcs]. *)
Definition creates_network_of (vpcs : list (string * Vpc.t)) (vpc_id : string)
    (c : Call) : Prop :=
  is_create_vpc c = false
  \/ exists vpc_details,
       dict_get string_dec vpc_id vpcs = Some vpc_details
       /\ c = create_vpc (get_default (Vpc.CidrBlock vpc_details) "").

(** A blob store that has no JSON document but serves a YAML one, and one
    that refuses access. *)
Definition s3_yaml_only : string -> string -> outcome string :=
  fun _ key =>
    if str_in "vpc_config.yaml" key then Ret "vpcs: {}"
    else Raise (ClientError "NoSuchKey"
                  "An error occurred (NoSuchKey) when calling the GetObject operation").

Definition s3_access_denied : string -> string -> outcome string :=
  fun _ _ =>
    Raise (ClientError "AccessDenied"
             "An error occurred (AccessDenied) when calling the GetObject operation").

Definition restore_args_vpc_b : Args :=
  {| arg_bucket := "backups";
     arg_timestamp := Some "2024-01-01-00-00-00";
     arg_vpc_id := Some "vpc-b";
     arg_region := None;
     arg_profile := None |}.

(** ** Observations on the gateway of a network *)

(** The snapshot of a network holds a gateway the restore uses: the first
    element of ['internet_gateways'], when it is not an empty dict. *)
Definition has_gateway (vpc_details : Vpc.t) : bool :=
  match Vpc.internet_gateways vpc_details with
  | Some (igw_data :: _) => negb (Igw.is_empty igw_data)
  | _ => false
  end.

(** A network captured with a route through a gateway but with no
    gateway. *)
Definition vpc_routes_no_gateway : Vpc.t :=
  {| Vpc.vpc_id := "vpc-a";
     Vpc.CidrBlock := Some "10.0.0.0/16";
     Vpc.Tags := None;
     Vpc.EnableDnsSupport := None;
     Vpc.EnableDnsHostnames := None;
     Vpc.internet_gateways := Some [];
     Vpc.subnets := Some [subnet_a];
     Vpc.route_tables := Some [rtb_public];
     Vpc.security_groups := None |}.

(** ** Listing the snapshots *)

(** An element of the list [list_backups] returns. *)
Module BackupEntry.
Record t := { timestamp : string; prefix : string }.
End BackupEntry.

(** [sorted(backups, key=lambda x: x['timestamp'], reverse=True)]: the
    order is descending on the timestamps, and entries with equal
    timestamps keep the order they had. *)
Fixpoint insert_by_timestamp (x : BackupEntry.t) (l : list BackupEntry.t)
  : list BackupEntry.t :=
  match l with
  | [] => [x]
  | y :: l' =>
      if String.ltb (BackupEntry.timestamp x) (BackupEntry.timestamp y)
      then y :: insert_by_timestamp x l'
      else x :: l
  end.

Fixpoint sorted_by_timestamp_reverse (l : list BackupEntry.t) : list BackupEntry.t :=
  match l with
  | [] => []
  | x :: l' => insert_by_timestamp x (sorted_by_timestamp_reverse l')
  end.

Section ListBackups.
Variable s3_list_objects_v2 : string -> string -> outcome (option (list string)).
Variable bucket : string.
Variable region : option string.
Variable account_id : string.
Variable current_region : option string.

(** The loop of [list_backups] over [response['CommonPrefixes']], from the
    entries [backups] collected so far. *)
Fixpoint collect_backups (common_prefixes : list string) (backups : list BackupEntry.t)
  : M (list BackupEntry.t) :=
  match common_prefixes with
  | [] => ret backups
  | p :: rest =>
      match index_m2 (split "/" p) with
      | None => raise (OtherError "IndexError")
      | Some timestamp =>
          collect_backups rest
            (backups ++ [ {| BackupEntry.timestamp := timestamp;
                             BackupEntry.prefix := p |} ])
      end
  end.

Definition list_backups : M (list BackupEntry.t) :=
  let prefix := backups_prefix region account_id current_region in
  try_ClientError
    (response <- lift (s3_list_objects_v2 bucket prefix) ;;
     match response with
     | None | Some [] =>
         log INFO ("No backups found with prefix: " ++ prefix) ;;
         ret []
     | Some common_prefixes =>
         backups <- collect_backups common_prefixes [] ;;
         ret (sorted_by_timestamp_reverse backups)
     end)
    (fun _ e =>
       log ERROR ("Error listing backups: " ++ e) ;;
       ret []).
End ListBackups.

(** [a] comes before [b] in a list sorted on the timestamps, descending. *)
Definition timestamp_geb (a b : BackupEntry.t) : Prop :=
  String.leb (BackupEntry.timestamp b) (BackupEntry.timestamp a) = true.

(** The timestamp of an entry is the last but one component of its
    location. *)
Definition timestamp_of_prefix (e : BackupEntry.t) : Prop :=
  index_m2 (split "/" (BackupEntry.prefix e)) = Some (BackupEntry.timestamp e).

(** ** Class [VpcBackup] and the [backup] command

    The capture step reads the networks through [describe_*] calls of the
    EC2 client and writes one JSON and one YAML document to the blob
    store. The descriptions the client returns are kept as they are; the
    client, the two encoders and the blob store are collaborators. The
    uploads attempted and the log records are threaded through a monad of
    the same shape as the one of the restore. *)

Module VpcBackup.

(** What the EC2 client returns for a described object. *)
#[warnings="-register-all"]
Inductive value :=
| Str (s : string)
| Int (z : Z)
| Bool (b : bool)
| Datetime (iso : string)
| List (l : list value)
| Dict (d : list (string * value)).

(** An element of [describe_vpcs()['Vpcs']]: its ['VpcId'], when the key
    is there, and its other keys. *)
Record ListedVpc := { VpcId : option string; attributes : list (string * value) }.

Definition items (vpc : ListedVpc) : list (string * value) :=
  match VpcId vpc with
  | Some vpc_id => ("VpcId", Str vpc_id) :: attributes vpc
  | None => attributes vpc
  end.

(** The eight component kinds [get_vpc_details] describes with a filter on
    the network. *)
Inductive Component :=
| Subnets | RouteTables | SecurityGroups | NetworkAcls
| InternetGateways | NatGateways | VpcEndpoints | VpcPeeringConnections.

(** [backup_data['metadata']] and [backup_data]. *)
Module Metadata.
Record t := {
  timestamp : string;
  account_id : string;
  region : option string;
  vpc_count : nat
}.
End Metadata.

Module Snapshot.
Record t := {
  metadata : Metadata.t;
  vpcs : list (string * list (string * value))
}.
End Snapshot.

(** The arguments of one [put_object] call. *)
Record Put := {
  Bucket : string;
  Key : string;
  Body : string;
  ContentType : string;
  ObjectMetadata : list (string * string)
}.

Inductive Level := INFO | WARNING | ERROR.

Record State := {
  puts : list Put;
  logs : list (Level * string)
}.

Definition B (A : Type) : Type := State -> outcome A * State.

Definition ret {A} (a : A) : B A := fun st => (Ret a, st).

Definition bind {A C} (m : B A) (f : A -> B C) : B C :=
  fun st =>
    match m st with
    | (Ret a, st') => f a st'
    | (Raise e, st') => (Raise e, st')
    end.

Declare Scope backup_scope.
Delimit Scope backup_scope with backup.
Notation "x <- m ;; k" := (bind m (fun x => k))
  (at level 61, m at next level, right associativity) : backup_scope.
Notation "m ;; k" := (bind m (fun _ => k))
  (at level 61, right associativity) : backup_scope.
Local Open Scope backup_scope.

Definition raise {A} (e : exn) : B A := fun st => (Raise e, st).

Definition lift {A} (o : outcome A) : B A := fun st => (o, st).

Definition log (lvl : Level) (msg : string) : B unit :=
  fun st => (Ret tt, {| puts := puts st; logs := logs st ++ [(lvl, msg)] |}).

(** [try: body except ClientError as e: handler(e)]. *)
Definition try_ClientError {A} (body : B A) (handler : string -> string -> B A)
  : B A :=
  fun st =>
    match body st with
    | (Raise (ClientError code text), st') => handler code text st'
    | r => r
    end.

(** [try: body except ClientError as e: h1(e) except Exception as e: h2(e)]. *)
Definition try_ClientError_Exception {A} (body : B A)
    (on_client_error : string -> string -> B A) (on_exception : string -> B A)
  : B A :=
  fun st =>
    match body st with
    | (Raise (ClientError code text), st') => on_client_error code text st'
    | (Raise (OtherError text), st') => on_exception text st'
    | r => r
    end.

(** [len(l)] in an f-string. *)
Definition fmt_nat (n : nat) : string := NilEmpty.string_of_uint (Nat.to_uint n).

(** [vpc_data.update(d)]. *)
Definition update (vpc_data : list (string * value)) (d : list (string * value))
  : list (string * value) :=
  fold_left (fun acc kv => dict_set string_dec (fst kv) (snd kv) acc) d vpc_data.

(** The key of [vpc_data] a component kind is stored under, the key of
    the response it is read from being left to the client, and how the
    error record names the kind. *)
Definition data_key (c : Component) : string :=
  match c with
  | Subnets => "subnets"
  | RouteTables => "route_tables"
  | SecurityGroups => "security_groups"
  | NetworkAcls => "network_acls"
  | InternetGateways => "internet_gateways"
  | NatGateways => "nat_gateways"
  | VpcEndpoints => "vpc_endpoints"
  | VpcPeeringConnections => "vpc_peering_connections"
  end.

Definition label (c : Component) : string :=
  match c with
  | Subnets => "subnets"
  | RouteTables => "route tables"
  | SecurityGroups => "security groups"
  | NetworkAcls => "network ACLs"
  | InternetGateways => "internet gateways"
  | NatGateways => "NAT gateways"
  | VpcEndpoints => "VPC endpoints"
  | VpcPeeringConnections => "VPC peering connections"
  end.

Section Class.
(** [self.ec2.describe_vpcs()] ([None]) and
    [self.ec2.describe_vpcs(VpcIds=[vpc_id])] ([Some vpc_id]): the value of
    ['Vpcs'], [None] when the key is missing from the response. *)
Variable ec2_describe_vpcs : option string -> outcome (option (list ListedVpc)).
(** The [describe_*] call of a component kind, filtered on the network:
    the value of the key of the kind, [None] when it is missing. *)
Variable ec2_describe : Component -> string -> outcome (option (list value)).
(** [json.dumps(data, indent=2, default=str)] and
    [yaml.dump(data, default_flow_style=False)]. *)
Variable json_dumps : Snapshot.t -> outcome string.
Variable yaml_dump : Snapshot.t -> outcome string.
(** [self.s3.put_object(...)], from the uploads attempted so far. *)
Variable s3_put_object : list Put -> Put -> outcome unit.
(** [boto3.session.Session().region_name]. *)
Variable session_region_name : option string.

(** The attributes [__init__] sets. *)
Variable self_region : option string.
Variable self_bucket : option string.
Variable self_prefix : string.
Variable self_timestamp : string.
Variable self_account_id : string.

Definition put_object (p : Put) : B unit :=
  fun st =>
    (s3_put_object (puts st) p, {| puts := puts st ++ [p]; logs := logs st |}).

Definition list_vpcs : B (list ListedVpc) :=
  try_ClientError
    (response <- lift (ec2_describe_vpcs None) ;;
     ret (get_default response []))
    (fun _ e =>
       log ERROR ("Error listing VPCs: " ++ e) ;;
       ret []).

(** One of the eight blocks of [get_vpc_details] that describe a component
    kind. *)
Definition describe_component (c : Component) (vpc_id : string)
    (vpc_data : list (string * value)) : B (list (string * value)) :=
  try_ClientError
    (response <- lift (ec2_describe c vpc_id) ;;
     ret (dict_set string_dec (data_key c) (List (get_default response [])) vpc_data))
    (fun _ e =>
       log ERROR ("Error getting " ++ label c ++ " for VPC " ++ vpc_id ++ ": " ++ e) ;;
       ret vpc_data).

Definition get_vpc_details (vpc_id : string) : B (list (string * value)) :=
  let vpc_data :=
    [ ("vpc_id", Str vpc_id);
      ("subnets", List []);
      ("route_tables", List []);
      ("security_groups", List []);
      ("network_acls", List []);
      ("internet_gateways", List []);
      ("nat_gateways", List []);
      ("vpc_endpoints", List []);
      ("vpc_peering_connections", List []) ] in
  vpc_data <-
    try_ClientError
      (vpc_response <- lift (ec2_describe_vpcs (Some vpc_id)) ;;
       match vpc_response with
       | None => raise (OtherError "KeyError")
       | Some [] => ret vpc_data
       | Some (vpc :: _) => ret (update vpc_data (items vpc))
       end)
      (fun _ e =>
         log ERROR ("Error getting VPC details for " ++ vpc_id ++ ": " ++ e) ;;
         ret vpc_data) ;;
  vpc_data <- describe_component Subnets vpc_id vpc_data ;;
  vpc_data <- describe_component RouteTables vpc_id vpc_data ;;
  vpc_data <- describe_component SecurityGroups vpc_id vpc_data ;;
  vpc_data <- describe_component NetworkAcls vpc_id vpc_data ;;
  vpc_data <- describe_component InternetGateways vpc_id vpc_data ;;
  vpc_data <- describe_component NatGateways vpc_id vpc_data ;;
  vpc_data <- describe_component VpcEndpoints vpc_id vpc_data ;;
  vpc_data <- describe_component VpcPeeringConnections vpc_id vpc_data ;;
  ret vpc_data.

(** The key [_save_to_s3] writes a document under. *)
Definition s3_key (format_type : string) : string :=
  self_prefix ++ "/" ++ self_account_id ++ "/"
  ++ fmt (py_or self_region (Some "default")) ++ "/"
  ++ self_timestamp ++ "/vpc_config." ++ format_type.

(** The arguments of the [put_object] call of [_save_to_s3]. *)
Definition object_of (key content format_type : string) : Put :=
  {| Bucket := get_default self_bucket "";
     Key := key;
     Body := content;
     ContentType := "application/" ++ format_type;
     ObjectMetadata :=
       [ ("Description",
          "AWS VPC configuration backup for account " ++ self_account_id);
         ("CreatedBy", "TimelessVPC");
         ("Timestamp", self_timestamp) ] |}.

Definition upload (key content format_type : string) : B bool :=
  put_object (object_of key content format_type) ;;
  log INFO ("Successfully uploaded VPC configuration to s3://"
            ++ get_default self_bucket "" ++ "/" ++ key) ;;
  ret true.

Definition _save_to_s3 (data : Snapshot.t) (format_type : string) : B bool :=
  if negb (truthy self_bucket) then
    log WARNING "No S3 bucket specified, skipping S3 upload" ;;
    ret false
  else
    try_ClientError_Exception
      (let key := s3_key format_type in
       if format_type =? "json" then
         content <- lift (json_dumps data) ;;
         upload key content format_type
       else if format_type =? "yaml" then
         content <- lift (yaml_dump data) ;;
         upload key content format_type
       else
         log ERROR ("Unsupported format type: " ++ format_type) ;;
         ret false)
      (fun _ e =>
         log ERROR ("Error uploading to S3: " ++ e) ;;
         ret false)
      (fun e =>
         log ERROR ("Unexpected error during S3 upload: " ++ e) ;;
         ret false).

(** The loop of [backup_vpc_configuration] over the listed networks. *)
Fixpoint capture (vpcs : list ListedVpc) (backup_data : Snapshot.t) : B Snapshot.t :=
  match vpcs with
  | [] => ret backup_data
  | vpc :: rest =>
      match VpcId vpc with
      | None => raise (OtherError "KeyError")
      | Some vpc_id =>
          log INFO ("Backing up configuration for VPC " ++ vpc_id) ;;
          vpc_details <- get_vpc_details vpc_id ;;
          capture rest
            {| Snapshot.metadata := Snapshot.metadata backup_data;
               Snapshot.vpcs :=
                 dict_set string_dec vpc_id vpc_details (Snapshot.vpcs backup_data) |}
      end
  end.

Definition backup_vpc_configuration : B bool :=
  vpcs <- list_vpcs ;;
  if negb (nonempty vpcs) then
    log INFO ("No VPCs found in region " ++ fmt (py_or self_region (Some "default"))) ;;
    ret false
  else
    log INFO ("Found " ++ fmt_nat (length vpcs) ++ " VPCs to backup") ;;
    let backup_data :=
      {| Snapshot.metadata :=
           {| Metadata.timestamp := self_timestamp;
              Metadata.account_id := self_account_id;
              Metadata.region := py_or self_region session_region_name;
              Metadata.vpc_count := length vpcs |};
         Snapshot.vpcs := [] |} in
    backup_data <- capture vpcs backup_data ;;
    _save_to_s3 backup_data "json" ;;
    _save_to_s3 backup_data "yaml" ;;
    ret true.
End Class.

(** *** The [backup] command *)

Record Args := {
  arg_region : option string;
  arg_profile : option string;
  arg_bucket : option string;
  arg_prefix : option string
}.

Section Command.
Variable ec2_describe_vpcs : option string -> outcome (option (list ListedVpc)).
Variable ec2_describe : Component -> string -> outcome (option (list value)).
Variable json_dumps : Snapshot.t -> outcome string.
Variable yaml_dump : Snapshot.t -> outcome string.
Variable s3_put_object : list Put -> Put -> outcome unit.
Variable session_region_name : option string.
(** [boto3.Session(profile_name, region_name)], its clients and
    [sts.get_caller_identity()['Account']]. *)
Variable new_session : option string -> option string -> outcome Session.
(** [datetime.datetime.now().strftime('%Y-%m-%d-%H-%M-%S')]. *)
Variable now : string.

(** The state [VpcBackup.__init__] leaves. *)
Definition init_state (args : Args) (sess : Session) : State :=
  {| puts := [];
     logs := [(INFO, "Initialized VPC backup for account " ++ sess_account_id sess
                     ++ " in region " ++ fmt (py_or (arg_region args) (Some "default")))] |}.

(** [backup = VpcBackup(...); backup.backup_vpc_configuration()]. *)
Definition run_backup (args : Args) (sess : Session) : outcome bool * State :=
  backup_vpc_configuration ec2_describe_vpcs ec2_describe json_dumps yaml_dump
    s3_put_object session_region_name (arg_region args) (arg_bucket args)
    (fmt (py_or (arg_prefix args) (Some "vpc-backups"))) now (sess_account_id sess)
    (init_state args sess).

(** The exit code of [cmd_backup]. *)
Definition cmd_backup (args : Args) : Z :=
  match new_session (arg_profile args) (arg_region args) with
  | Raise _ => 1
  | Ret sess =>
      match fst (run_backup args sess) with
      | Ret true => 0
      | Ret false => 1
      | Raise _ => 1
      end
  end.
End Command.


(** [agree m m']: from any two states, [m] and [m'] return the same value
    or raise the same exception. *)
Definition agree {A} (m m' : B A) : Prop :=
  forall st st', fst (m st) = fst (m' st').

(** *** Collaborators used to run the capture on concrete inputs *)

Definition listed_vpc_a : ListedVpc :=
  {| VpcId := Some "vpc-a";
     attributes := [("CidrBlock", Str "10.0.0.0/16"); ("IsDefault", Bool false)] |}.

(** An account with the one network [vpc-a], which has one subnet. *)
Definition describe_vpcs_one : option string -> outcome (option (list ListedVpc)) :=
  fun _ => Ret (Some [listed_vpc_a]).

Definition describe_one_subnet : Component -> string -> outcome (option (list value)) :=
  fun c _ =>
    match c with
    | Subnets => Ret (Some [Dict [("SubnetId", Str "subnet-a");
                                  ("CidrBlock", Str "10.0.1.0/24")]])
    | _ => Ret (Some [])
    end.

(** A client whose [describe_*] calls on components are all refused. *)
Definition describe_refused : Component -> string -> outcome (option (list value)) :=
  fun _ _ => Raise (ClientError "UnauthorizedOperation"
                      "An error occurred (UnauthorizedOperation)").

Definition dumps_ok : Snapshot.t -> outcome string := fun _ => Ret "{}".

(** A blob store that accepts every upload, and one that refuses all. *)
Definition s3_put_ok : list Put -> Put -> outcome unit := fun _ _ => Ret tt.

Definition s3_put_refused : list Put -> Put -> outcome unit :=
  fun _ _ => Raise (ClientError "AccessDenied"
                      "An error occurred (AccessDenied) when calling the PutObject operation").

Definition backup_args : Args :=
  {| arg_region := Some "eu-west-1";
     arg_profile := None;
     arg_bucket := Some "backups";
     arg_prefix := Some "vpc-backups" |}.

Definition empty_state : State := {| puts := []; logs := [] |}.

End VpcBackup.

(** A blob store that holds a document under each of [keys] and nothing
    else. *)
Definition s3_holding (keys : list string) : string -> string -> outcome string :=
  fun _ key =>
    if existsb (String.eqb key) keys then Ret "{}"
    else Raise (ClientError "NoSuchKey"
                  "An error occurred (NoSuchKey) when calling the GetObject operation").

(** The state of a restore that was given the timestamp
    [2024-06-01-00-00-00]. *)
Definition state_at_june : State :=
  {| self_timestamp := Some "2024-06-01-00-00-00";
     created_resources := init_created_resources;
     calls := [];
     logs := [] |}.

(** ** Observations on the restore of a route table *)

(** The identifier of the new table when, from state [st], the call that
    creates it returns and the tagging call, if the table has a tag left to
    replay, returns too; nothing when one of the two calls raises. *)
Definition new_route_table (ec2 : list Call -> Call -> outcome string)
    (new_vpc_id : string) (rt_data : RouteTable.t) (st : State) : option string :=
  match ec2 (calls st) (create_route_table new_vpc_id) with
  | Ret new_rt_id =>
      match tag_calls (RouteTable.Tags rt_data) new_rt_id with
      | [] => Some new_rt_id
      | c :: _ =>
          match ec2 (calls st ++ [create_route_table new_vpc_id])%list c with
          | Ret _ => Some new_rt_id
          | Raise _ => None
          end
      end
  | Raise _ => None
  end.

(** An EC2 client that refuses every [create_tags] call; every other call
    succeeds. *)
Definition ec2_tags_refused : list Call -> Call -> outcome string :=
  fun history c =>
    match c with
    | create_tags _ _ =>
        Raise (ClientError "TagLimitExceeded"
                 "An error occurred (TagLimitExceeded) when calling the CreateTags operation")
    | _ => Ret (fresh_id (length history))
    end.

(** The route table of the example, without a tag and with a user tag. *)
Definition rtb_example : RouteTable.t :=
  {| RouteTable.RouteTableId := Some "rtb-1";
     RouteTable.Tags := None;
     RouteTable.Routes := Some [local_route; igw_route];
     RouteTable.Associations := None |}.

Definition rtb_example_tagged : RouteTable.t :=
  {| RouteTable.RouteTableId := Some "rtb-1";
     RouteTable.Tags := Some [ {| Key := "Name"; Value := "public" |} ];
     RouteTable.Routes := Some [local_route; igw_route];
     RouteTable.Associations := None |}.

(** ** Observations on the report of a network *)

(** [logs_extended a b]: the log records of [b] are those of [a] followed
    by new ones. *)
Definition logs_extended (a b : State) : Prop :=
  exists new, logs b = (logs a ++ new)%list.

(** [reported kind d new]: the log records [new] hold a report line of
    kind [kind] for every key of the mapping [d]. *)
Definition reported (kind : string) (d : dict (option string) string)
    (new : list (Level * string)) : Prop :=
  forall k, dict_mem opt_string_dec k d = true ->
    exists v, In (INFO, "  " ++ kind ++ ": " ++ fmt k ++ " -> " ++ v) new.

(** [grows a b]: from [a] to [b] the log records only grow and the
    mappings keep their keys. *)
Definition grows (a b : State) : Prop :=
  logs_extended a b /\ on_created mappings_kept a b.

(** [on_return st post r]: when the run [r], started from [st], returns,
    the log records it added satisfy [post]; nothing is said of a run that
    raises. *)
Definition on_return (st : State) (post : list (Level * string) -> Prop)
    (r : outcome unit * State) : Prop :=
  match fst r with
  | Raise _ => True
  | Ret _ => exists new, logs (snd r) = (logs st ++ new)%list /\ post new
  end.


(** * Properties *)

(** ** Dicts *)

Section DictFacts.
Variables K V : Type.
Variable K_eq_dec : forall x y : K, {x = y} + {x <> y}.
Implicit Types (k : K) (v : V) (d : dict K V).

Lemma dict_get_set_same k v d :
  dict_get K_eq_dec k (dict_set K_eq_dec k v d) = Some v.
Proof.
  induction d as [|[k' v'] d IH]; simpl.
  - destruct (K_eq_dec k k); congruence.
  - destruct (K_eq_dec k k') as [E|N]; simpl.
    + destruct (K_eq_dec k k); congruence.
    + destruct (K_eq_dec k k'); congruence.
Qed.

Lemma dict_get_set_other k k' v d :
  k' <> k -> dict_get K_eq_dec k' (dict_set K_eq_dec k v d) = dict_get K_eq_dec k' d.
Proof.
  intros N. induction d as [|[k0 v0] d IH]; simpl.
  - destruct (K_eq_dec k' k); congruence.
  - destruct (K_eq_dec k k0) as [E|N0]; simpl.
    + subst k0. destruct (K_eq_dec k' k); congruence.
    + destruct (K_eq_dec k' k0); congruence.
Qed.

Lemma dict_mem_set k k' v d :
  dict_mem K_eq_dec k' d = true ->
  dict_mem K_eq_dec k' (dict_set K_eq_dec k v d) = true.
Proof.
  unfold dict_mem. intros H.
  destruct (K_eq_dec k' k) as [E|N].
  - subst. now rewrite dict_get_set_same.
  - now rewrite dict_get_set_other.
Qed.

Lemma dict_mem_set_inv k k' v d :
  dict_mem K_eq_dec k' (dict_set K_eq_dec k v d) = true ->
  k' = k \/ dict_mem K_eq_dec k' d = true.
Proof.
  unfold dict_mem. intros H.
  destruct (K_eq_dec k' k) as [E|N]; [now left|right].
  now rewrite dict_get_set_other in H.
Qed.

Lemma dict_mem_get k d :
  dict_mem K_eq_dec k d = true -> exists v, dict_get K_eq_dec k d = Some v.
Proof.
  unfold dict_mem. destruct (dict_get K_eq_dec k d); [eauto|discriminate].
Qed.

Lemma dict_mem_in_keys k d :
  dict_mem K_eq_dec k d = true <-> In k (map fst d).
Proof.
  unfold dict_mem. induction d as [|[k0 v0] d IH]; simpl.
  - split; [discriminate|tauto].
  - destruct (K_eq_dec k k0) as [E|N].
    + split; auto.
    + rewrite IH. split; [auto|]. intros [E|H]; [congruence|exact H].
Qed.
End DictFacts.

(** ** The monad: which exceptions escape, and what a run preserves *)

(** [raises_only P m]: every exception that escapes [m] satisfies [P]. *)
Definition raises_only (P : exn -> Prop) {A} (m : M A) : Prop :=
  forall st e, fst (m st) = Raise e -> P e.

Definition is_ClientError (e : exn) : Prop :=
  match e with ClientError _ _ => True | OtherError _ => False end.

Definition never : exn -> Prop := fun _ => False.

Section RaisesOnly.
Variable P : exn -> Prop.

Lemma ro_ret A (a : A) : raises_only P (ret a).
Proof. intros st e H; discriminate H. Qed.

Lemma ro_log lvl msg : raises_only P (log lvl msg).
Proof. intros st e H; discriminate H. Qed.

Lemma ro_get_created : raises_only P get_created.
Proof. intros st e H; discriminate H. Qed.

Lemma ro_put_created cr : raises_only P (put_created cr).
Proof. intros st e H; discriminate H. Qed.

Lemma ro_get_timestamp : raises_only P get_timestamp.
Proof. intros st e H; discriminate H. Qed.

Lemma ro_put_timestamp ts : raises_only P (put_timestamp ts).
Proof. intros st e H; discriminate H. Qed.

Lemma ro_bind A B (m : M A) (f : A -> M B) :
  raises_only P m -> (forall a, raises_only P (f a)) ->
  raises_only P (bind m f).
Proof.
  intros Hm Hf st e. unfold bind.
  destruct (m st) as [[a|e'] st'] eqn:E.
  - apply Hf.
  - simpl. intros H. inversion H; subst. apply (Hm st). now rewrite E.
Qed.

Lemma ro_modify_created f : raises_only P (modify_created f).
Proof. intros st e H; discriminate H. Qed.

Lemma ro_when b m : raises_only P m -> raises_only P (when b m).
Proof. destruct b; simpl; [auto|intros _; apply ro_ret]. Qed.

Lemma ro_for_each A (l : list A) body :
  (forall x, In x l -> raises_only P (body x)) -> raises_only P (for_each l body).
Proof.
  induction l as [|x l IH]; simpl; intros H.
  - apply ro_ret.
  - apply ro_bind; [apply H; now left|intros _; apply IH; auto].
Qed.

(** A [try] whose body raises nothing but [ClientError] lets through only
    what its handler raises. *)
Lemma ro_try A (body : M A) handler :
  raises_only is_ClientError body ->
  (forall code text, raises_only P (handler code text)) ->
  raises_only P (try_ClientError body handler).
Proof.
  intros Hb Hh st e. unfold try_ClientError.
  destruct (body st) as [[a|[code text|text]] st'] eqn:E; simpl.
  - discriminate.
  - apply Hh.
  - exfalso. apply (Hb st (OtherError text)). now rewrite E.
Qed.

End RaisesOnly.

(** A computation that raises nothing returns. *)
Lemma never_returns A (m : M A) st :
  raises_only never m -> exists a, fst (m st) = Ret a.
Proof.
  intros H. destruct (fst (m st)) as [a|e] eqn:E; [eauto|].
  destruct (H st e E).
Qed.

(** [preserves R m]: the state [m] leaves is related by [R] to the state
    it started from, whether it returns or raises. *)
Definition preserves (R : State -> State -> Prop) {A} (m : M A) : Prop :=
  forall st, R st (snd (m st)).

Section Preserves.
Variable R : State -> State -> Prop.
Hypothesis R_refl : forall st, R st st.
Hypothesis R_trans : forall a b c, R a b -> R b c -> R a c.

Lemma pr_ret A (a : A) : preserves R (ret a).
Proof. intros st; apply R_refl. Qed.

Lemma pr_raise A e : preserves R (@raise A e).
Proof. intros st; apply R_refl. Qed.

Lemma pr_get_created : preserves R get_created.
Proof. intros st; apply R_refl. Qed.

Lemma pr_get_timestamp : preserves R get_timestamp.
Proof. intros st; apply R_refl. Qed.

Lemma pr_bind A B (m : M A) (f : A -> M B) :
  preserves R m -> (forall a, preserves R (f a)) -> preserves R (bind m f).
Proof.
  intros Hm Hf st. unfold bind. specialize (Hm st).
  destruct (m st) as [[a|e] st']; simpl in *; [|exact Hm].
  eapply R_trans; [exact Hm|apply Hf].
Qed.

Lemma pr_try A (body : M A) handler :
  preserves R body -> (forall code text, preserves R (handler code text)) ->
  preserves R (try_ClientError body handler).
Proof.
  intros Hb Hh st. unfold try_ClientError. specialize (Hb st).
  destruct (body st) as [[a|[code text|text]] st']; simpl in *; try exact Hb.
  eapply R_trans; [exact Hb|apply Hh].
Qed.

Lemma pr_when b m : preserves R m -> preserves R (when b m).
Proof. destruct b; simpl; [auto|intros _; apply pr_ret]. Qed.

Lemma pr_for_each A (l : list A) body :
  (forall x, In x l -> preserves R (body x)) -> preserves R (for_each l body).
Proof.
  induction l as [|x l IH]; simpl; intros H.
  - apply pr_ret.
  - apply pr_bind; [apply H; now left|intros _; apply IH; auto].
Qed.
End Preserves.


(** ** Calls of one kind along a run *)

Section SameCalls.
Variable ec2 : list Call -> Call -> outcome string.
Variable p : Call -> bool.

Lemma same_calls_refl st : same_calls p st st.
Proof. reflexivity. Qed.

Lemma same_calls_trans a b c :
  same_calls p a b -> same_calls p b c -> same_calls p a c.
Proof. unfold same_calls; congruence. Qed.

Lemma sc_log lvl msg : preserves (same_calls p) (log lvl msg).
Proof. intros st; reflexivity. Qed.

Lemma sc_put_created cr : preserves (same_calls p) (put_created cr).
Proof. intros st; reflexivity. Qed.

Lemma sc_modify_created f : preserves (same_calls p) (modify_created f).
Proof. intros st; reflexivity. Qed.

Lemma sc_put_timestamp ts : preserves (same_calls p) (put_timestamp ts).
Proof. intros st; reflexivity. Qed.

Lemma sc_call c : p c = false -> preserves (same_calls p) (call ec2 c).
Proof.
  intros H st. unfold same_calls, call; simpl.
  rewrite filter_app; simpl. rewrite H. apply app_nil_r.
Qed.

(** What a call satisfying [p] adds. *)
Lemma filter_calls_call c st :
  p c = true ->
  filter p (calls (snd (call ec2 c st))) = (filter p (calls st) ++ [c])%list.
Proof.
  intros H. unfold call; simpl. rewrite filter_app; simpl. now rewrite H.
Qed.
End SameCalls.

Create HintDb calls.
#[local] Hint Resolve same_calls_refl same_calls_trans : calls.
#[local] Hint Resolve pr_ret pr_raise pr_get_created pr_get_timestamp
  sc_log sc_put_created sc_modify_created sc_put_timestamp : calls.

(** Solves [preserves (same_calls p) m] for straight-line [m]: binds,
    handlers, conditionals, and calls that do not satisfy [p]. *)
Ltac same_calls_tac :=
  repeat first
    [ apply same_calls_refl
    | apply same_calls_trans
    | progress intros
    | apply pr_bind
    | apply pr_try
    | apply pr_when
    | apply pr_for_each
    | apply sc_call; reflexivity
    | solve [auto with calls]
    | match goal with
      | |- preserves _ (if ?b then _ else _) => destruct b
      | |- preserves _ (match ?o with Some _ => _ | None => _ end) => destruct o
      end ].

Ltac proj_simpl :=
  cbn [calls logs created_resources self_timestamp fst snd].

Section RunFacts.
Variable p : Call -> bool.

Lemma bind_returns A B (m : M A) (f : A -> M B) st a :
  fst (m st) = Ret a -> bind m f st = f a (snd (m st)).
Proof. unfold bind. destruct (m st) as [o st']; simpl. now intros ->. Qed.

(** A continuation that issues no [p] call leaves the [p] calls of what
    came before it. *)
Lemma filter_calls_bind_after A B (m : M A) (f : A -> M B) st :
  (forall a, preserves (same_calls p) (f a)) ->
  filter p (calls (snd (bind m f st))) = filter p (calls (snd (m st))).
Proof.
  intros Hf. unfold bind. destruct (m st) as [[a|e] st']; simpl; [|reflexivity].
  apply Hf.
Qed.

Lemma filter_calls_try A (body : M A) handler st :
  (forall code text, preserves (same_calls p) (handler code text)) ->
  filter p (calls (snd (try_ClientError body handler st)))
  = filter p (calls (snd (body st))).
Proof.
  intros Hh. unfold try_ClientError.
  destruct (body st) as [[a|[code text|text]] st']; simpl; try reflexivity.
  apply Hh.
Qed.
End RunFacts.

(** ** Route tables *)

Section RouteTables.
Variable ec2 : list Call -> Call -> outcome string.

Lemma apply_tags_no_route tags new_id :
  preserves (same_calls is_create_route) (apply_tags ec2 tags new_id).
Proof. unfold apply_tags. same_calls_tac. Qed.

Lemma restore_association_no_route new_rt_id assoc :
  preserves (same_calls is_create_route) (restore_association ec2 new_rt_id assoc).
Proof. unfold restore_association. same_calls_tac. Qed.

(** When tagging calls succeed, the tagging step returns. *)
Lemma apply_tags_returns tags new_id st :
  (forall history resource tag_specs,
      exists r, ec2 history (create_tags resource tag_specs) = Ret r) ->
  fst (apply_tags ec2 tags new_id st) = Ret tt.
Proof.
  intros H. unfold apply_tags. destruct tags as [tags|]; [|reflexivity].
  destruct (nonempty (filter not_aws_tag tags)); [|reflexivity].
  unfold when, bind, call. proj_simpl.
  destruct (H (calls st) new_id (filter not_aws_tag tags)) as [r ->].
  reflexivity.
Qed.

Lemma restore_route_local new_rt_id igw_id st :
  restore_route ec2 new_rt_id igw_id local_route st = (Ret tt, st).
Proof. reflexivity. Qed.

Lemma restore_route_igw new_rt_id igw_id st :
  igw_id <> "" ->
  filter is_create_route
    (calls (snd (restore_route ec2 new_rt_id (Some igw_id) igw_route st)))
  = (filter is_create_route (calls st)
     ++ [create_route new_rt_id "0.0.0.0/0" igw_id])%list.
Proof.
  intros H. apply String.eqb_neq in H.
  unfold restore_route. cbn [igw_route Route.GatewayId Route.DestinationCidrBlock].
  destruct (opt_string_dec (Some "igw-A") (Some "local")) as [E|_]; [discriminate|].
  change (negb (truthy (Some "0.0.0.0/0"))) with false.
  change (truthy (Some "igw-A") && str_in "igw-" (get_default (Some "igw-A") ""))
    with true.
  cbn [truthy get_default andb]. rewrite H. cbn [negb].
  unfold bind at 1, log at 1.
  rewrite filter_calls_try by same_calls_tac.
  rewrite filter_calls_bind_after by same_calls_tac.
  now rewrite filter_calls_call.
Qed.

(** C6, as the code has it. For a captured route table whose routes are
    the local route to 10.0.0.0/16 and a route to 0.0.0.0/0 through gateway
    igw-A, restored with a new gateway (a non-empty identifier): no
    create-route call is issued for the local route; when the call that
    creates the new table returns and the tagging call, if the table has a
    tag left to replay, returns too, the create-route calls of the run grow
    by exactly one, to 0.0.0.0/0 through the new gateway, on the new table;
    when one of these two calls raises, they do not grow at all. *)
Theorem restore_route_table_example_routes new_vpc_id igw_id rt_data st :
  RouteTable.Routes rt_data = Some [local_route; igw_route] ->
  igw_id <> "" ->
  filter is_create_route
    (calls (snd (restore_route_tables ec2 [rt_data] new_vpc_id (Some igw_id) st)))
  = (filter is_create_route (calls st)
     ++ match new_route_table ec2 new_vpc_id rt_data st with
        | Some new_rt_id => [create_route new_rt_id "0.0.0.0/0" igw_id]
        | None => []
        end)%list.
Proof.
  intros Hroutes Higw.
  unfold restore_route_tables. cbn [for_each].
  rewrite filter_calls_bind_after by (intros; apply pr_ret, same_calls_refl).
  unfold restore_route_table, new_route_table. rewrite Hroutes.
  rewrite filter_calls_try by same_calls_tac.
  unfold bind at 1, log at 1.
  unfold bind at 1, call at 1. proj_simpl.
  destruct (ec2 (calls st) (create_route_table new_vpc_id)) as [new_rt_id|e].
  2:{ proj_simpl. rewrite filter_app. cbn [filter is_create_route].
      now rewrite app_nil_r. }
  match goal with |- context [bind (apply_tags ?e ?t ?i) ?f ?s] =>
    set (st1 := s);
    assert (filter is_create_route (calls st1) = filter is_create_route (calls st))
      as Hst1
      by (unfold st1; proj_simpl; rewrite filter_app; cbn [filter is_create_route];
          apply app_nil_r);
    assert (calls st1 = (calls st ++ [create_route_table new_vpc_id])%list)
      as Hcalls by reflexivity;
    pose proof (apply_tags_no_route t i st1) as Hsame
  end.
  unfold same_calls in Hsame. rewrite Hst1 in Hsame. rewrite <- Hcalls.
  clearbody st1.
  assert (forall st2,
            filter is_create_route (calls st2) = filter is_create_route (calls st) ->
            filter is_create_route
              (calls
                 (snd
                    ((for_each [local_route; igw_route]
                        (restore_route ec2 new_rt_id (Some igw_id)) ;;
                      match RouteTable.Associations rt_data with
                      | Some assocs =>
                          for_each assocs (restore_association ec2 new_rt_id)
                      | None => ret tt
                      end ;;
                      modify_created
                        (fun cr =>
                           set_route_tables
                             (dict_set opt_string_dec (RouteTable.RouteTableId rt_data)
                                new_rt_id (cr_route_tables cr)) cr) ;;
                      log INFO ("Created route table " ++ new_rt_id)) st2)))
            = (filter is_create_route (calls st)
               ++ [create_route new_rt_id "0.0.0.0/0" igw_id])%list) as Hrest.
  { intros st2 Hst2.
    rewrite filter_calls_bind_after.
    2:{ intros _. apply pr_bind; [apply same_calls_trans| |].
        - destruct (RouteTable.Associations rt_data); [|same_calls_tac].
          apply pr_for_each; [apply same_calls_refl|apply same_calls_trans|].
          intros; apply restore_association_no_route.
        - same_calls_tac. }
    cbn [for_each]. unfold bind at 1. rewrite restore_route_local.
    rewrite filter_calls_bind_after by same_calls_tac.
    rewrite restore_route_igw by exact Higw. now rewrite Hst2. }
  unfold bind at 1. unfold apply_tags, tag_calls in *.
  destruct (RouteTable.Tags rt_data) as [tags|].
  2:{ unfold ret at 1. apply Hrest. exact Hst1. }
  destruct (nonempty (filter not_aws_tag tags)); cbn [when].
  2:{ unfold ret at 1. apply Hrest. exact Hst1. }
  unfold bind at 1, call at 1.
  destruct (ec2 (calls st1) (create_tags new_rt_id (filter not_aws_tag tags)))
    as [r|e]; proj_simpl.
  - unfold ret at 1. apply Hrest. proj_simpl. rewrite filter_app.
    cbn [filter is_create_route]. now rewrite app_nil_r.
  - rewrite filter_app. cbn [filter is_create_route].
    now rewrite !app_nil_r.
Qed.

Lemma restore_route_other new_rt_id igw_id route st :
  targets_internet_gateway route = false ->
  restore_route ec2 new_rt_id igw_id route st = (Ret tt, st).
Proof.
  unfold targets_internet_gateway, restore_route. intros H.
  destruct (opt_string_dec _ _); [reflexivity|].
  destruct (negb (truthy (Route.DestinationCidrBlock route))); [reflexivity|].
  rewrite H. reflexivity.
Qed.

(** C10. Captured routes that do not target an internet gateway (a NAT
    gateway, an instance, a peering connection, the local route) are
    dropped: the loop over them returns and leaves the state as it was, so
    it issues no call and writes no log record, whatever their destination
    and whether or not a new gateway exists. *)
Theorem restore_route_other_target_dropped new_rt_id igw_id routes st :
  (forall route, In route routes -> targets_internet_gateway route = false) ->
  for_each routes (restore_route ec2 new_rt_id igw_id) st = (Ret tt, st).
Proof.
  induction routes as [|r routes IH]; intros H; simpl; [reflexivity|].
  unfold bind. rewrite restore_route_other by (apply H; now left).
  apply IH. intros r' Hr'. apply H. now right.
Qed.
End RouteTables.

Lemma restore_route_table_example_routes_witness :
  filter is_create_route
    (calls (snd (restore_route_tables ec2_ok [rtb_example] "vpc-new" (Some "igw-new")
                   empty_state)))
  = [create_route "new-0" "0.0.0.0/0" "igw-new"].
Proof.
  apply (@restore_route_table_example_routes ec2_ok "vpc-new" "igw-new"
           rtb_example empty_state).
  - reflexivity.
  - discriminate.
Defined.

(** C6, as stated, fails: with the new gateway created, when the call
    that tags the new table is refused, the restore of the table is
    abandoned before its routes, so no create-route call is issued at all,
    although the table was created; the same when the call that creates the
    table is refused. *)
Lemma tagging_failure_drops_routes :
  calls (snd (restore_route_tables ec2_tags_refused [rtb_example_tagged] "vpc-new"
                (Some "igw-new") empty_state))
  = [create_route_table "vpc-new";
     create_tags "new-0" [ {| Key := "Name"; Value := "public" |} ]]
  /\ filter is_create_route
       (calls (snd (restore_route_tables ec2_tags_refused [rtb_example_tagged]
                      "vpc-new" (Some "igw-new") empty_state)))
     = []
  /\ filter is_create_route
       (calls (snd (restore_route_tables ec2_down [rtb_example] "vpc-new"
                      (Some "igw-new") empty_state)))
     = [].
Proof. repeat split. Qed.

Lemma restore_route_other_target_dropped_witness :
  for_each [nat_route; vgw_route]
    (restore_route ec2_ok "rtb-new" (Some "igw-new")) empty_state
  = (Ret tt, empty_state).
Proof.
  apply (@restore_route_other_target_dropped ec2_ok "rtb-new" (Some "igw-new")
           [nat_route; vgw_route] empty_state).
  intros route [<-|[<-|[]]]; reflexivity.
Defined.


(** ** Security groups *)

Section SecurityGroups.
Variable ec2 : list Call -> Call -> outcome string.

Lemma clean_sg_rule_no_protocol rule :
  Rule.IpProtocol rule = None -> _clean_sg_rule rule = None.
Proof. unfold _clean_sg_rule. now intros ->. Qed.

Lemma in_filter_map A B (f : A -> option B) l b :
  In b (filter_map f l) <-> exists a, In a l /\ f a = Some b.
Proof.
  unfold filter_map. rewrite in_flat_map. split.
  - intros (a & Ha & Hb). exists a. split; [exact Ha|].
    destruct (f a); simpl in Hb; [|tauto]. destruct Hb as [->|[]]. reflexivity.
  - intros (a & Ha & Hb). exists a. split; [exact Ha|]. rewrite Hb. now left.
Qed.

Lemma clean_ip_range_some r c :
  clean_ip_range r = Some c <->
  IpRange.CidrIp r = Some (CleanIpRange.CidrIp c)
  /\ IpRange.Description r = CleanIpRange.Description c.
Proof.
  unfold clean_ip_range. destruct r as [cidr d], c as [cidr' d']; simpl.
  destruct cidr; split.
  - intros H; inversion H; auto.
  - intros [H1 H2]; congruence.
  - discriminate.
  - intros [H _]; discriminate.
Qed.

Lemma clean_ipv6_range_some r c :
  clean_ipv6_range r = Some c <->
  Ipv6Range.CidrIpv6 r = Some (CleanIpv6Range.CidrIpv6 c)
  /\ Ipv6Range.Description r = CleanIpv6Range.Description c.
Proof.
  unfold clean_ipv6_range. destruct r as [cidr d], c as [cidr' d']; simpl.
  destruct cidr; split.
  - intros H; inversion H; auto.
  - intros [H1 H2]; congruence.
  - discriminate.
  - intros [H _]; discriminate.
Qed.

(** The ranges of a cleaned rule are the captured ranges that carry a
    CIDR, each with its description. *)
Lemma clean_sg_rule_ranges rule proto :
  Rule.IpProtocol rule = Some proto ->
  exists clean,
    _clean_sg_rule rule = Some clean
    /\ CleanRule.IpProtocol clean = proto
    /\ (forall c, In c (get_default (CleanRule.IpRanges clean) []) <->
          exists r, In r (get_default (Rule.IpRanges rule) [])
                    /\ IpRange.CidrIp r = Some (CleanIpRange.CidrIp c)
                    /\ IpRange.Description r = CleanIpRange.Description c)
    /\ (forall c, In c (get_default (CleanRule.Ipv6Ranges clean) []) <->
          exists r, In r (get_default (Rule.Ipv6Ranges rule) [])
                    /\ Ipv6Range.CidrIpv6 r = Some (CleanIpv6Range.CidrIpv6 c)
                    /\ Ipv6Range.Description r = CleanIpv6Range.Description c).
Proof.
  intros Hp. unfold _clean_sg_rule. rewrite Hp. eexists. split; [reflexivity|].
  cbn [CleanRule.IpProtocol CleanRule.IpRanges CleanRule.Ipv6Ranges].
  split; [reflexivity|]. split; intros c.
  - destruct (Rule.IpRanges rule) as [[|r rs]|]; cbn [get_default].
    + split; [intros []|intros (r & [] & _)].
    + rewrite in_filter_map. split; intros (x & Hx & Hc); exists x; split; auto;
        now apply clean_ip_range_some.
    + split; [intros []|intros (r & [] & _)].
  - destruct (Rule.Ipv6Ranges rule) as [[|r rs]|]; cbn [get_default].
    + split; [intros []|intros (r & [] & _)].
    + rewrite in_filter_map. split; intros (x & Hx & Hc); exists x; split; auto;
        now apply clean_ipv6_range_some.
    + split; [intros []|intros (r & [] & _)].
Qed.

(** The authorize call one captured rule gives rise to. *)
Lemma add_ingress_rule_calls new_sg_id rule st :
  only_ClientError ec2 ->
  fst (add_ingress_rule ec2 new_sg_id rule st) = Ret tt
  /\ filter is_authorize_ingress (calls (snd (add_ingress_rule ec2 new_sg_id rule st)))
     = (filter is_authorize_ingress (calls st)
        ++ map (fun clean => authorize_security_group_ingress new_sg_id [clean])
             (filter_map _clean_sg_rule [rule]))%list.
Proof.
  intros Hec2. unfold add_ingress_rule, filter_map. cbn [flat_map].
  destruct (_clean_sg_rule rule) as [clean|]; cbn [map app].
  2:{ split; [reflexivity|]. unfold try_ClientError, ret; proj_simpl.
      now rewrite app_nil_r. }
  unfold try_ClientError, bind, log, call, ret; proj_simpl.
  destruct (ec2 (calls st) (authorize_security_group_ingress new_sg_id [clean]))
    as [r|[code text|text]] eqn:E.
  - split; [reflexivity|]. proj_simpl. now rewrite filter_app.
  - unfold when. destruct (negb _); unfold log, ret; proj_simpl;
      (split; [reflexivity|now rewrite filter_app]).
  - destruct (Hec2 _ _ _ E).
Qed.

Lemma add_egress_rule_calls new_sg_id rule st :
  only_ClientError ec2 ->
  fst (add_egress_rule ec2 new_sg_id rule st) = Ret tt
  /\ filter is_authorize_egress (calls (snd (add_egress_rule ec2 new_sg_id rule st)))
     = (filter is_authorize_egress (calls st)
        ++ map (fun clean => authorize_security_group_egress new_sg_id [clean])
             (filter_map _clean_sg_rule [rule]))%list.
Proof.
  intros Hec2. unfold add_egress_rule, filter_map. cbn [flat_map].
  destruct (_clean_sg_rule rule) as [clean|]; cbn [map app].
  2:{ split; [reflexivity|]. unfold try_ClientError, ret; proj_simpl.
      now rewrite app_nil_r. }
  unfold try_ClientError, bind, log, call, ret; proj_simpl.
  destruct (ec2 (calls st) (authorize_security_group_egress new_sg_id [clean]))
    as [r|[code text|text]] eqn:E.
  - split; [reflexivity|]. proj_simpl. now rewrite filter_app.
  - unfold when. destruct (negb _); unfold log, ret; proj_simpl;
      (split; [reflexivity|now rewrite filter_app]).
  - destruct (Hec2 _ _ _ E).
Qed.

Lemma filter_map_cons A B (f : A -> option B) a l :
  filter_map f (a :: l) = (filter_map f [a] ++ filter_map f l)%list.
Proof. unfold filter_map. simpl. now rewrite app_nil_r. Qed.

(** A loop whose body returns and adds [g x] to the [p] calls adds them
    in order. *)
Lemma for_each_calls A (p : Call -> bool) (body : A -> M unit)
    (g : A -> list Call) l :
  (forall x st, fst (body x st) = Ret tt
                /\ filter p (calls (snd (body x st)))
                   = (filter p (calls st) ++ g x)%list) ->
  forall st,
    fst (for_each l body st) = Ret tt
    /\ filter p (calls (snd (for_each l body st)))
       = (filter p (calls st) ++ flat_map g l)%list.
Proof.
  intros Hbody. induction l as [|x l IH]; intros st; cbn [for_each flat_map].
  - split; [reflexivity|]. unfold ret; proj_simpl. now rewrite app_nil_r.
  - destruct (Hbody x st) as [Hr Hc].
    rewrite (@bind_returns _ _ (body x) _ st tt Hr).
    destruct (IH (snd (body x st))) as [Hr' Hc'].
    split; [exact Hr'|]. rewrite Hc', Hc. now rewrite app_assoc.
Qed.

Lemma flat_map_filter_map A B C (f : A -> option B) (h : B -> C) l :
  flat_map (fun a => map h (filter_map f [a])) l = map h (filter_map f l).
Proof.
  induction l as [|a l IH]; [reflexivity|].
  cbn [flat_map]. rewrite IH, (filter_map_cons f a l). now rewrite map_app.
Qed.

(** C7. The rule-sanitization step returns nothing for a rule without
    protocol, and adding such a rule issues no call; for a rule with a
    protocol, the cleaned v4 and v6 ranges are exactly the captured ranges
    that carry a CIDR, each with the description of the captured range; and
    on a client that raises nothing but [ClientError], the loops over the
    ingress and the egress rules of a group return and issue one authorize
    call for each rule that has a protocol, in order, whatever the other
    rules and ranges are and whether or not earlier calls failed. *)
Theorem clean_sg_rule_drops_only_malformed new_sg_id rules st :
  only_ClientError ec2 ->
  (forall rule, Rule.IpProtocol rule = None ->
     _clean_sg_rule rule = None
     /\ add_ingress_rule ec2 new_sg_id rule st = (Ret tt, st)
     /\ add_egress_rule ec2 new_sg_id rule st = (Ret tt, st))
  /\ (forall rule proto, Rule.IpProtocol rule = Some proto ->
      exists clean,
        _clean_sg_rule rule = Some clean
        /\ CleanRule.IpProtocol clean = proto
        /\ (forall c, In c (get_default (CleanRule.IpRanges clean) []) <->
              exists r, In r (get_default (Rule.IpRanges rule) [])
                        /\ IpRange.CidrIp r = Some (CleanIpRange.CidrIp c)
                        /\ IpRange.Description r = CleanIpRange.Description c)
        /\ (forall c, In c (get_default (CleanRule.Ipv6Ranges clean) []) <->
              exists r, In r (get_default (Rule.Ipv6Ranges rule) [])
                        /\ Ipv6Range.CidrIpv6 r = Some (CleanIpv6Range.CidrIpv6 c)
                        /\ Ipv6Range.Description r = CleanIpv6Range.Description c))
  /\ (fst (for_each rules (add_ingress_rule ec2 new_sg_id) st) = Ret tt
      /\ filter is_authorize_ingress
           (calls (snd (for_each rules (add_ingress_rule ec2 new_sg_id) st)))
         = (filter is_authorize_ingress (calls st)
            ++ map (fun clean => authorize_security_group_ingress new_sg_id [clean])
                 (filter_map _clean_sg_rule rules))%list)
  /\ (fst (for_each rules (add_egress_rule ec2 new_sg_id) st) = Ret tt
      /\ filter is_authorize_egress
           (calls (snd (for_each rules (add_egress_rule ec2 new_sg_id) st)))
         = (filter is_authorize_egress (calls st)
            ++ map (fun clean => authorize_security_group_egress new_sg_id [clean])
                 (filter_map _clean_sg_rule rules))%list).
Proof.
  intros Hec2. split; [|split; [|split]].
  - intros rule Hp. unfold add_ingress_rule, add_egress_rule.
    rewrite (clean_sg_rule_no_protocol rule Hp). repeat split.
  - intros rule proto. apply clean_sg_rule_ranges.
  - rewrite <- (flat_map_filter_map _clean_sg_rule
                  (fun clean => authorize_security_group_ingress new_sg_id [clean])).
    apply for_each_calls. intros; now apply add_ingress_rule_calls.
  - rewrite <- (flat_map_filter_map _clean_sg_rule
                  (fun clean => authorize_security_group_egress new_sg_id [clean])).
    apply for_each_calls. intros; now apply add_egress_rule_calls.
Qed.

End SecurityGroups.


(** ** The mappings along a run *)

Section OnCreated.
Variable ec2 : list Call -> Call -> outcome string.
Variable R : CreatedResources -> CreatedResources -> Prop.
Hypothesis R_refl : forall cr, R cr cr.
Hypothesis R_trans : forall a b c, R a b -> R b c -> R a c.

Lemma on_created_refl st : on_created R st st.
Proof. apply R_refl. Qed.

Lemma on_created_trans a b c :
  on_created R a b -> on_created R b c -> on_created R a c.
Proof. apply R_trans. Qed.

Lemma oc_log lvl msg : preserves (on_created R) (log lvl msg).
Proof. intros st; apply R_refl. Qed.

Lemma oc_call c : preserves (on_created R) (call ec2 c).
Proof. intros st; apply R_refl. Qed.

Lemma oc_put_timestamp ts : preserves (on_created R) (put_timestamp ts).
Proof. intros st; apply R_refl. Qed.

Lemma oc_modify_created f :
  (forall cr, R cr (f cr)) -> preserves (on_created R) (modify_created f).
Proof. intros H st. apply H. Qed.
End OnCreated.

(** Structural steps of a proof of [preserves R m]; [refl] and [trans]
    close the side conditions on [R], [leaf] the primitive computations. *)
Ltac preserves_tac refl trans leaf :=
  repeat first
    [ refl
    | trans
    | progress intros
    | leaf
    | apply pr_bind
    | apply pr_try
    | apply pr_when
    | apply pr_for_each
    | match goal with
      | |- preserves _ (if ?b then _ else _) => destruct b
      | |- preserves _ (match ?o with Some _ => _ | None => _ end) => destruct o
      | |- preserves _ (match ?l with nil => _ | cons _ _ => _ end) => destruct l
      end ].

(** ** The default security group *)

Section DefaultGroup.
Variable ec2 : list Call -> Call -> outcome string.

Lemma create_group_no_default new_vpc_id sg_data :
  preserves (same_calls creates_default_group) (create_group ec2 new_vpc_id sg_data).
Proof.
  unfold create_group.
  destruct (opt_string_dec (Sg.GroupName sg_data) (Some "default")) as [E|N];
    [same_calls_tac|].
  assert (forall d v, creates_default_group
            (create_security_group (Sg.GroupName sg_data) d v) = false) as H.
  { intros d v. simpl. destruct (Sg.GroupName sg_data) as [name|]; [|reflexivity].
    apply String.eqb_neq. congruence. }
  unfold apply_tags.
  preserves_tac ltac:(apply same_calls_refl) ltac:(apply same_calls_trans)
    ltac:(first [apply sc_call; first [apply H|reflexivity]
                |solve [auto with calls]]).
Qed.

Lemma add_group_rules_no_default sg_data :
  preserves (same_calls creates_default_group) (add_group_rules ec2 sg_data).
Proof.
  unfold add_group_rules, add_ingress_rule, add_egress_rule. same_calls_tac.
Qed.

Lemma restore_security_groups_no_default sg_data_list new_vpc_id :
  preserves (same_calls creates_default_group)
    (restore_security_groups ec2 sg_data_list new_vpc_id).
Proof.
  unfold restore_security_groups.
  apply pr_bind; [apply same_calls_trans| |intros _];
    (apply pr_for_each; [apply same_calls_refl|apply same_calls_trans|]); intros.
  - apply create_group_no_default.
  - apply add_group_rules_no_default.
Qed.

Section Keys.
Variable sg_data_list : list Sg.t.

Local Abbreviation R :=
  (new_keys_satisfy cr_security_groups (named_group_id sg_data_list)).

Lemma group_keys_refl cr : R cr cr.
Proof. intros k H; now left. Qed.

Lemma group_keys_trans a b c : R a b -> R b c -> R a c.
Proof.
  intros Hab Hbc k H. destruct (Hbc k H) as [H'|H']; [apply Hab, H'|now right].
Qed.

Ltac keys_tac :=
  preserves_tac ltac:(first [apply (on_created_refl R group_keys_refl)|apply group_keys_refl])
    ltac:(first [apply (on_created_trans R group_keys_trans)|apply group_keys_trans])
    ltac:(first [apply (oc_log R group_keys_refl)|apply (oc_call ec2 R group_keys_refl)
                |apply pr_ret; apply (on_created_refl R group_keys_refl)
                |apply pr_raise; apply (on_created_refl R group_keys_refl)
                |apply pr_get_created; apply (on_created_refl R group_keys_refl)]).

Lemma create_group_keys new_vpc_id sg_data :
  In sg_data sg_data_list ->
  preserves (on_created R) (create_group ec2 new_vpc_id sg_data).
Proof.
  intros Hin. unfold create_group.
  destruct (opt_string_dec (Sg.GroupName sg_data) (Some "default")) as [E|N];
    [keys_tac|].
  unfold apply_tags.
  preserves_tac ltac:(first [apply (on_created_refl R group_keys_refl)|apply group_keys_refl])
    ltac:(first [apply (on_created_trans R group_keys_trans)|apply group_keys_trans])
    ltac:(first [apply (oc_log R group_keys_refl)|apply (oc_call ec2 R group_keys_refl)
                |apply pr_ret; apply (on_created_refl R group_keys_refl)
                |apply oc_modify_created]).
  unfold new_keys_satisfy. intros k Hk.
  cbn [set_security_groups cr_security_groups] in Hk.
  apply dict_mem_set_inv in Hk. destruct Hk as [->|Hk]; [right|now left].
  exists sg_data. auto.
Qed.

Lemma add_group_rules_keys sg_data :
  preserves (on_created R) (add_group_rules ec2 sg_data).
Proof.
  unfold add_group_rules, add_ingress_rule, add_egress_rule. keys_tac.
Qed.

Lemma restore_security_groups_keys new_vpc_id :
  preserves (on_created R) (restore_security_groups ec2 sg_data_list new_vpc_id).
Proof.
  unfold restore_security_groups.
  apply pr_bind; [apply (on_created_trans R group_keys_trans)| |intros _];
    (apply pr_for_each;
     [apply (on_created_refl R group_keys_refl)|apply (on_created_trans R group_keys_trans)|]);
    intros.
  - now apply create_group_keys.
  - apply add_group_rules_keys.
Qed.
End Keys.

(** C9. Restoring the security groups of a network issues no call that
    creates a group named [default], in the first pass or in the second:
    the calls of that kind in the run are those that were there before. And
    every key the groups mapping gains is the original identifier of a
    captured group whose name is not [default]. *)
Theorem restore_security_groups_skips_default sg_data_list new_vpc_id st :
  filter creates_default_group
    (calls (snd (restore_security_groups ec2 sg_data_list new_vpc_id st)))
  = filter creates_default_group (calls st)
  /\ forall k,
       dict_mem opt_string_dec k
         (cr_security_groups
            (created_resources
               (snd (restore_security_groups ec2 sg_data_list new_vpc_id st)))) = true ->
       dict_mem opt_string_dec k (cr_security_groups (created_resources st)) = true
       \/ named_group_id sg_data_list k.
Proof.
  split.
  - apply restore_security_groups_no_default.
  - apply (restore_security_groups_keys sg_data_list new_vpc_id st).
Qed.

End DefaultGroup.



Lemma only_ClientError_ec2_down : only_ClientError ec2_down.
Proof. intros history c text H. discriminate H. Qed.

Lemma clean_sg_rule_drops_only_malformed_witness :
  only_ClientError ec2_down
  /\ filter is_authorize_ingress
       (calls (snd (for_each [rule_no_protocol; rule_mixed_ranges]
                      (add_ingress_rule ec2_down "sg-new") empty_state)))
     = [authorize_security_group_ingress "sg-new" [rule_mixed_ranges_clean]].
Proof.
  split; [exact only_ClientError_ec2_down|].
  exact (proj2 (proj1 (proj2 (proj2
    (@clean_sg_rule_drops_only_malformed ec2_down "sg-new"
       [rule_no_protocol; rule_mixed_ranges] empty_state
       only_ClientError_ec2_down))))).
Defined.

(** A run on the default group and one other group: one group is
    created, and its rules are added to the new group. *)
Example restore_security_groups_run :
  calls (snd (restore_security_groups ec2_ok [default_group; web_group]
                "vpc-new" empty_state))
  = [create_security_group (Some "web") "web servers" "vpc-new";
     authorize_security_group_ingress "new-0" [rule_mixed_ranges_clean]]
  /\ cr_security_groups
       (created_resources
          (snd (restore_security_groups ec2_ok [default_group; web_group]
                  "vpc-new" empty_state)))
     = [(Some "sg-web", "new-0")].
Proof. split; reflexivity. Qed.

(** ** What restore records in the mappings *)

Section Entries.
Variable ec2 : list Call -> Call -> outcome string.

Lemma eq_created_refl st : on_created eq st st.
Proof. reflexivity. Qed.

Lemma eq_created_trans a b c :
  on_created eq a b -> on_created eq b c -> on_created eq a c.
Proof. unfold on_created. congruence. Qed.

(** Solves [preserves (on_created eq) m] when [m] does not write the
    mappings. *)
Ltac eq_created_tac :=
  preserves_tac ltac:(apply eq_created_refl) ltac:(apply eq_created_trans)
    ltac:(first [ apply (oc_log eq (@eq_refl _))
                | apply (oc_call ec2 eq (@eq_refl _))
                | apply pr_ret; apply eq_created_refl
                | apply pr_raise; apply eq_created_refl
                | apply pr_get_created; apply eq_created_refl ]).

Lemma apply_tags_created tags new_id :
  preserves (on_created eq) (apply_tags ec2 tags new_id).
Proof. unfold apply_tags. eq_created_tac. Qed.

Lemma restore_route_created new_rt_id igw_id route :
  preserves (on_created eq) (restore_route ec2 new_rt_id igw_id route).
Proof. unfold restore_route. eq_created_tac. Qed.

Lemma restore_association_created new_rt_id assoc :
  preserves (on_created eq) (restore_association ec2 new_rt_id assoc).
Proof. unfold restore_association. eq_created_tac. Qed.

Section Sequencing.
Variable R : CreatedResources -> CreatedResources -> Prop.

Lemma pr_bind_eq_l A B (m : M A) (f : A -> M B) :
  (forall cr, R cr cr) ->
  preserves (on_created eq) m -> (forall a, preserves (on_created R) (f a)) ->
  preserves (on_created R) (bind m f).
Proof.
  intros Hrefl Hm Hf st. unfold bind. specialize (Hm st).
  destruct (m st) as [[a|e] st']; unfold on_created in *; simpl in *.
  - rewrite Hm. apply Hf.
  - rewrite <- Hm. apply Hrefl.
Qed.

Lemma pr_bind_eq_r A B (m : M A) (f : A -> M B) :
  preserves (on_created R) m -> (forall a, preserves (on_created eq) (f a)) ->
  preserves (on_created R) (bind m f).
Proof.
  intros Hm Hf st. unfold bind. specialize (Hm st).
  destruct (m st) as [[a|e] st']; unfold on_created in *; simpl in *.
  - rewrite <- (Hf a st'). exact Hm.
  - exact Hm.
Qed.

Lemma created_try A (body : M A) handler st :
  (forall code text, preserves (on_created eq) (handler code text)) ->
  created_resources (snd (try_ClientError body handler st))
  = created_resources (snd (body st)).
Proof.
  intros Hh. unfold try_ClientError.
  destruct (body st) as [[a|[code text|text]] st']; simpl; try reflexivity.
  symmetry. apply Hh.
Qed.
End Sequencing.

Lemma unchanged_or_refl P f cr : unchanged_or P f cr cr.
Proof. now left. Qed.

(** The tail of a creation path: steps that do not write the mappings,
    then the one update, then steps that do not write them. *)
Ltac entry_tac :=
  repeat first
    [ apply oc_modify_created; intros cr; right; eexists; split; reflexivity
    | apply pr_bind_eq_r;
      [ apply oc_modify_created; intros cr; right; eexists; split; reflexivity
      | intros; solve [eq_created_tac] ]
    | apply pr_bind_eq_l;
      [ apply unchanged_or_refl
      | solve [first [apply apply_tags_created | eq_created_tac]]
      | intros ] ].

(** A creation path: a log record, the creating call, then a tail that
    writes the mappings at most once, all inside one [try]. *)
Lemma entry_after_call A msg c (rest : string -> M A) handler f st :
  (forall code text, preserves (on_created eq) (handler code text)) ->
  (forall new_id,
      preserves (on_created (unchanged_or (fun id => id = new_id) f))
        (rest new_id)) ->
  unchanged_or (fun new_id => ec2 (calls st) c = Ret new_id) f
    (created_resources st)
    (created_resources
       (snd (try_ClientError
               (log INFO msg ;; new_id <- call ec2 c ;; rest new_id)
               handler st))).
Proof.
  intros Hh Hrest. rewrite created_try by exact Hh.
  unfold bind at 1, log at 1. unfold bind at 1, call at 1. proj_simpl.
  destruct (ec2 (calls st) c) as [new_id|e] eqn:E; [|now left].
  match goal with |- context [snd (rest new_id ?s)] =>
    destruct (Hrest new_id s) as [H|(id & -> & H)]
  end.
  - left. exact H.
  - right. exists new_id. split; [reflexivity|exact H].
Qed.

Lemma restore_subnet_entry new_vpc_id subnet_data st :
  unchanged_or
    (fun new_subnet_id =>
       ec2 (calls st)
         (create_subnet new_vpc_id (get_default (Subnet.CidrBlock subnet_data) "")
            (if truthy (Subnet.AvailabilityZone subnet_data)
             then Subnet.AvailabilityZone subnet_data else None))
       = Ret new_subnet_id)
    (fun new_subnet_id cr =>
       set_subnets
         (dict_set opt_string_dec (Subnet.SubnetId subnet_data) new_subnet_id
            (cr_subnets cr)) cr)
    (created_resources st)
    (created_resources (snd (restore_subnet ec2 new_vpc_id subnet_data st))).
Proof.
  unfold restore_subnet.
  destruct (negb (truthy (Subnet.CidrBlock subnet_data))); [now left|].
  apply entry_after_call; [eq_created_tac|intros new_id; entry_tac].
Qed.

Lemma create_group_entry new_vpc_id sg_data st :
  unchanged_or
    (fun new_sg_id =>
       ec2 (calls st)
         (create_security_group (Sg.GroupName sg_data)
            (get_default (Sg.Description sg_data) "Restored security group")
            new_vpc_id)
       = Ret new_sg_id)
    (fun new_sg_id cr =>
       set_security_groups
         (dict_set opt_string_dec (Sg.GroupId sg_data) new_sg_id
            (cr_security_groups cr)) cr)
    (created_resources st)
    (created_resources (snd (create_group ec2 new_vpc_id sg_data st))).
Proof.
  unfold create_group.
  destruct (opt_string_dec (Sg.GroupName sg_data) (Some "default")); [now left|].
  apply entry_after_call; [eq_created_tac|intros new_id; entry_tac].
Qed.

Lemma restore_route_table_entry new_vpc_id igw_id rt_data st :
  unchanged_or
    (fun new_rt_id => ec2 (calls st) (create_route_table new_vpc_id) = Ret new_rt_id)
    (fun new_rt_id cr =>
       set_route_tables
         (dict_set opt_string_dec (RouteTable.RouteTableId rt_data) new_rt_id
            (cr_route_tables cr)) cr)
    (created_resources st)
    (created_resources
       (snd (restore_route_table ec2 new_vpc_id igw_id rt_data st))).
Proof.
  unfold restore_route_table.
  apply entry_after_call; [eq_created_tac|intros new_id].
  apply pr_bind_eq_l; [apply unchanged_or_refl|apply apply_tags_created|intros _].
  apply pr_bind_eq_l; [apply unchanged_or_refl| |intros _].
  { destruct (RouteTable.Routes rt_data); [|eq_created_tac].
    apply pr_for_each; [apply eq_created_refl|apply eq_created_trans|].
    intros; apply restore_route_created. }
  apply pr_bind_eq_l; [apply unchanged_or_refl| |intros _].
  { destruct (RouteTable.Associations rt_data); [|eq_created_tac].
    apply pr_for_each; [apply eq_created_refl|apply eq_created_trans|].
    intros; apply restore_association_created. }
  entry_tac.
Qed.

(** The gateway path, when it records anything, adds an entry whose key
    is the new identifier and whose value is the captured gateway. *)
Lemma restore_internet_gateway_entry igw_data new_vpc_id st :
  unchanged_or
    (fun new_igw_id => ec2 (calls st) create_internet_gateway = Ret new_igw_id)
    (fun new_igw_id cr =>
       set_internet_gateways
         (dict_set string_dec new_igw_id igw_data (cr_internet_gateways cr)) cr)
    (created_resources st)
    (created_resources
       (snd (restore_internet_gateway ec2 igw_data new_vpc_id st))).
Proof.
  unfold restore_internet_gateway.
  destruct (Igw.is_empty igw_data); [now left|].
  apply entry_after_call; [eq_created_tac|intros new_id; entry_tac].
Qed.

Lemma restore_vpc_entry vpc_data st :
  unchanged_or
    (fun new_vpc_id =>
       ec2 (calls st) (create_vpc (get_default (Vpc.CidrBlock vpc_data) ""))
       = Ret new_vpc_id)
    (fun new_vpc_id cr => set_vpc (Some new_vpc_id) cr)
    (created_resources st)
    (created_resources (snd (restore_vpc ec2 vpc_data st))).
Proof.
  unfold restore_vpc.
  destruct (negb (truthy (Vpc.CidrBlock vpc_data))); [now left|].
  apply entry_after_call; [eq_created_tac|intros new_id; entry_tac].
Qed.

End Entries.

(** C5, as the code has it. What a creation path records, when it records
    anything: the network path sets the single ['vpc'] slot to the new
    identifier, the one its creating call returned; the subnet, route-table
    and security-group paths set the entry of the original identifier to
    the new identifier, the one the creating call returned, so that looking
    up the original identifier gives the new one. *)
Theorem restore_records_entries (ec2 : list Call -> Call -> outcome string) :
  (forall vpc_data st,
      unchanged_or
        (fun new_vpc_id =>
           ec2 (calls st) (create_vpc (get_default (Vpc.CidrBlock vpc_data) ""))
           = Ret new_vpc_id)
        (fun new_vpc_id cr => set_vpc (Some new_vpc_id) cr)
        (created_resources st)
        (created_resources (snd (restore_vpc ec2 vpc_data st))))
  /\ (forall new_vpc_id subnet_data st,
      unchanged_or
        (fun new_subnet_id =>
           ec2 (calls st)
             (create_subnet new_vpc_id
                (get_default (Subnet.CidrBlock subnet_data) "")
                (if truthy (Subnet.AvailabilityZone subnet_data)
                 then Subnet.AvailabilityZone subnet_data else None))
           = Ret new_subnet_id)
        (fun new_subnet_id cr =>
           set_subnets
             (dict_set opt_string_dec (Subnet.SubnetId subnet_data) new_subnet_id
                (cr_subnets cr)) cr)
        (created_resources st)
        (created_resources (snd (restore_subnet ec2 new_vpc_id subnet_data st))))
  /\ (forall new_vpc_id igw_id rt_data st,
      unchanged_or
        (fun new_rt_id =>
           ec2 (calls st) (create_route_table new_vpc_id) = Ret new_rt_id)
        (fun new_rt_id cr =>
           set_route_tables
             (dict_set opt_string_dec (RouteTable.RouteTableId rt_data) new_rt_id
                (cr_route_tables cr)) cr)
        (created_resources st)
        (created_resources
           (snd (restore_route_table ec2 new_vpc_id igw_id rt_data st))))
  /\ (forall new_vpc_id sg_data st,
      unchanged_or
        (fun new_sg_id =>
           ec2 (calls st)
             (create_security_group (Sg.GroupName sg_data)
                (get_default (Sg.Description sg_data) "Restored security group")
                new_vpc_id)
           = Ret new_sg_id)
        (fun new_sg_id cr =>
           set_security_groups
             (dict_set opt_string_dec (Sg.GroupId sg_data) new_sg_id
                (cr_security_groups cr)) cr)
        (created_resources st)
        (created_resources (snd (create_group ec2 new_vpc_id sg_data st))))
  /\ (forall (original_id : option string) (new_id : string) d,
      dict_get opt_string_dec original_id
        (dict_set opt_string_dec original_id new_id d) = Some new_id).
Proof.
  repeat split.
  - apply restore_vpc_entry.
  - apply restore_subnet_entry.
  - apply restore_route_table_entry.
  - apply create_group_entry.
  - intros. apply dict_get_set_same.
Qed.

(** C5, as stated, fails for the network and for the gateway. After a
    run over the two networks of [two_vpcs], created as [new-0] and
    [new-4], the ['vpc'] slot holds [new-4] alone: nothing is keyed by
    [vpc-a] or [vpc-b]. After a gateway captured as [igw-A] is restored as
    [new-0], the gateways mapping has the one key [new-0], bound to the
    captured gateway, and no entry for [igw-A]. *)
Lemma entries_not_keyed_by_original_id :
  cr_vpc
    (created_resources
       (snd (for_each ["vpc-a"; "vpc-b"] (restore_network ec2_ok two_vpcs)
               empty_state)))
  = Some "new-4"
  /\ fst (restore_internet_gateway ec2_ok igw_A "vpc-new" empty_state)
     = Ret (Some "new-0")
  /\ cr_internet_gateways
       (created_resources
          (snd (restore_internet_gateway ec2_ok igw_A "vpc-new" empty_state)))
     = [("new-0", igw_A)]
  /\ dict_get string_dec "igw-A"
       (cr_internet_gateways
          (created_resources
             (snd (restore_internet_gateway ec2_ok igw_A "vpc-new" empty_state))))
     = None.
Proof. repeat split. Qed.

(** ** The mappings across the networks of one run *)

Section AcrossNetworks.
Variable ec2 : list Call -> Call -> outcome string.

Lemma mappings_kept_refl cr : mappings_kept cr cr.
Proof. repeat split; auto. Qed.

Lemma mappings_kept_trans a b c :
  mappings_kept a b -> mappings_kept b c -> mappings_kept a c.
Proof.
  intros (A1 & A2 & A3 & A4) (B1 & B2 & B3 & B4). repeat split; auto.
Qed.

Lemma kept_set_vpc v cr : mappings_kept cr (set_vpc v cr).
Proof. repeat split; auto. Qed.

Lemma kept_set_subnets k v cr :
  mappings_kept cr
    (set_subnets (dict_set opt_string_dec k v (cr_subnets cr)) cr).
Proof. repeat split; auto. cbn. intros; now apply dict_mem_set. Qed.

Lemma kept_set_route_tables k v cr :
  mappings_kept cr
    (set_route_tables (dict_set opt_string_dec k v (cr_route_tables cr)) cr).
Proof. repeat split; auto. cbn. intros; now apply dict_mem_set. Qed.

Lemma kept_set_security_groups k v cr :
  mappings_kept cr
    (set_security_groups (dict_set opt_string_dec k v (cr_security_groups cr)) cr).
Proof. repeat split; auto. cbn. intros; now apply dict_mem_set. Qed.

Lemma kept_set_internet_gateways k v cr :
  mappings_kept cr
    (set_internet_gateways (dict_set string_dec k v (cr_internet_gateways cr)) cr).
Proof. repeat split; auto. cbn. intros; now apply dict_mem_set. Qed.

Ltac kept_tac :=
  preserves_tac
    ltac:(apply (on_created_refl mappings_kept mappings_kept_refl))
    ltac:(apply (on_created_trans mappings_kept mappings_kept_trans))
    ltac:(first [ apply (oc_log mappings_kept mappings_kept_refl)
                | apply (oc_call ec2 mappings_kept mappings_kept_refl)
                | apply pr_ret;
                  apply (on_created_refl mappings_kept mappings_kept_refl)
                | apply pr_raise;
                  apply (on_created_refl mappings_kept mappings_kept_refl)
                | apply pr_get_created;
                  apply (on_created_refl mappings_kept mappings_kept_refl)
                | apply oc_modify_created; intros;
                  first [ apply kept_set_vpc | apply kept_set_subnets
                        | apply kept_set_route_tables
                        | apply kept_set_security_groups
                        | apply kept_set_internet_gateways ] ]).

Lemma restore_network_kept vpcs vpc_id :
  preserves (on_created mappings_kept) (restore_network ec2 vpcs vpc_id).
Proof.
  unfold restore_network, restore_vpc, restore_internet_gateway,
    restore_subnets, restore_subnet, restore_route_tables, restore_route_table,
    restore_route, restore_association, restore_security_groups, create_group,
    add_group_rules, add_ingress_rule, add_egress_rule, apply_tags,
    report_mapping.
  kept_tac.
Qed.

(** What the report of one mapping does. *)
Lemma report_mapping_run kind d st :
  report_mapping kind d st
  = (Ret tt,
     {| self_timestamp := self_timestamp st;
        created_resources := created_resources st;
        calls := calls st;
        logs := (logs st
                 ++ map (fun kv =>
                           (INFO, ("  " ++ kind ++ ": " ++ fmt (fst kv) ++ " -> "
                                   ++ snd kv)%string))
                      d)%list |}).
Proof.
  unfold report_mapping. revert st.
  induction d as [|kv d IH]; intros st; cbn [for_each map].
  - unfold ret. rewrite app_nil_r. now destruct st.
  - unfold bind at 1, log at 1. rewrite IH. proj_simpl.
    now rewrite <- app_assoc.
Qed.

(** The report lists every entry of the mapping it is given. *)
Lemma report_mapping_logs kind d st :
  logs (snd (report_mapping kind d st))
  = (logs st
     ++ map (fun kv =>
               (INFO, ("  " ++ kind ++ ": " ++ fmt (fst kv) ++ " -> " ++ snd kv)%string))
          d)%list.
Proof. now rewrite report_mapping_run. Qed.

Lemma dict_get_in (k : option string) (v : string) d :
  dict_get opt_string_dec k d = Some v -> In (k, v) d.
Proof.
  induction d as [|[k' v'] d IH]; simpl; [discriminate|].
  destruct (opt_string_dec k k') as [<-|_]; [intros [= <-]; now left|].
  intros H. right. now apply IH.
Qed.

Lemma reported_lines kind d d' new :
  (forall k, dict_mem opt_string_dec k d = true ->
             dict_mem opt_string_dec k d' = true) ->
  incl (map (fun kv =>
               (INFO, ("  " ++ kind ++ ": " ++ fmt (fst kv) ++ " -> "
                       ++ snd kv)%string)) d') new ->
  reported kind d new.
Proof.
  intros Hkept Hincl k Hk. apply Hkept in Hk. apply dict_mem_get in Hk.
  destruct Hk as [v Hv]. exists v. apply Hincl.
  apply (in_map (fun kv =>
                   (INFO, ("  " ++ kind ++ ": " ++ fmt (fst kv) ++ " -> "
                           ++ snd kv)%string)) d' (k, v)).
  now apply dict_get_in.
Qed.

(** *** The log records only grow *)

Lemma logs_extended_refl st : logs_extended st st.
Proof. exists []. now rewrite app_nil_r. Qed.

Lemma logs_extended_trans a b c :
  logs_extended a b -> logs_extended b c -> logs_extended a c.
Proof.
  intros [n1 H1] [n2 H2]. exists (n1 ++ n2)%list.
  now rewrite H2, H1, app_assoc.
Qed.

Lemma le_log lvl msg : preserves logs_extended (log lvl msg).
Proof. intros st. now exists [(lvl, msg)]. Qed.

Lemma le_call c : preserves logs_extended (call ec2 c).
Proof. intros st. exists []. unfold call. proj_simpl. now rewrite app_nil_r. Qed.

Lemma le_modify_created f : preserves logs_extended (modify_created f).
Proof.
  intros st. exists []. unfold modify_created, bind, get_created, put_created.
  proj_simpl. now rewrite app_nil_r.
Qed.

Ltac logs_tac :=
  preserves_tac ltac:(apply logs_extended_refl) ltac:(apply logs_extended_trans)
    ltac:(first [ apply le_log | apply le_call | apply le_modify_created
                | apply pr_ret; apply logs_extended_refl
                | apply pr_raise; apply logs_extended_refl
                | apply pr_get_created; apply logs_extended_refl ]).

Lemma grows_refl st : grows st st.
Proof.
  split; [apply logs_extended_refl|].
  apply (on_created_refl mappings_kept mappings_kept_refl).
Qed.

Lemma grows_trans a b c : grows a b -> grows b c -> grows a c.
Proof.
  intros [L1 K1] [L2 K2]. split.
  - eapply logs_extended_trans; eassumption.
  - eapply (on_created_trans mappings_kept mappings_kept_trans); eassumption.
Qed.

Lemma grows_both A (m : M A) :
  preserves logs_extended m -> preserves (on_created mappings_kept) m ->
  preserves grows m.
Proof. intros HL HK st. split; [apply HL|apply HK]. Qed.

Lemma restore_vpc_grows vpc_data : preserves grows (restore_vpc ec2 vpc_data).
Proof.
  apply grows_both; unfold restore_vpc, apply_tags; [logs_tac|kept_tac].
Qed.

Lemma restore_internet_gateway_grows igw_data new_vpc_id :
  preserves grows (restore_internet_gateway ec2 igw_data new_vpc_id).
Proof.
  apply grows_both; unfold restore_internet_gateway, apply_tags; [logs_tac|kept_tac].
Qed.

Lemma restore_subnets_grows l new_vpc_id :
  preserves grows (restore_subnets ec2 l new_vpc_id).
Proof.
  apply grows_both; unfold restore_subnets, restore_subnet, apply_tags;
    [logs_tac|kept_tac].
Qed.

Lemma restore_route_tables_grows l new_vpc_id igw_id :
  preserves grows (restore_route_tables ec2 l new_vpc_id igw_id).
Proof.
  apply grows_both;
    unfold restore_route_tables, restore_route_table, restore_route,
      restore_association, apply_tags;
    [logs_tac|kept_tac].
Qed.

Lemma restore_security_groups_grows l new_vpc_id :
  preserves grows (restore_security_groups ec2 l new_vpc_id).
Proof.
  apply grows_both;
    unfold restore_security_groups, create_group, add_group_rules,
      add_ingress_rule, add_egress_rule, apply_tags;
    [logs_tac|kept_tac].
Qed.

Lemma log_grows lvl msg : preserves grows (log lvl msg).
Proof.
  apply grows_both; [apply le_log|apply (oc_log mappings_kept mappings_kept_refl)].
Qed.

(** *** The report of a network *)

Lemma bind_post A (m : M A) (f : A -> M unit) st0 post st :
  grows st0 st ->
  (forall a, grows st0 (snd (m st)) -> on_return st0 post (f a (snd (m st)))) ->
  preserves grows m ->
  on_return st0 post (bind m f st).
Proof.
  intros Hst Hf Hm. unfold bind. specialize (Hm st).
  destruct (m st) as [[a|e] st'] eqn:E; cbn [snd] in *.
  - apply Hf. eapply grows_trans; eassumption.
  - exact I.
Qed.

(** The three reports that end the restore of a network. *)
Lemma reports_run st :
  (cr <- get_created ;;
   report_mapping "Subnet" (cr_subnets cr) ;;
   cr <- get_created ;;
   report_mapping "Route Table" (cr_route_tables cr) ;;
   cr <- get_created ;;
   report_mapping "Security Group" (cr_security_groups cr)) st
  = (Ret tt,
     {| self_timestamp := self_timestamp st;
        created_resources := created_resources st;
        calls := calls st;
        logs :=
          (logs st
           ++ map (fun kv => (INFO, ("  " ++ "Subnet" ++ ": " ++ fmt (fst kv)
                                     ++ " -> " ++ snd kv)%string))
                (cr_subnets (created_resources st))
           ++ map (fun kv => (INFO, ("  " ++ "Route Table" ++ ": " ++ fmt (fst kv)
                                     ++ " -> " ++ snd kv)%string))
                (cr_route_tables (created_resources st))
           ++ map (fun kv => (INFO, ("  " ++ "Security Group" ++ ": " ++ fmt (fst kv)
                                     ++ " -> " ++ snd kv)%string))
                (cr_security_groups (created_resources st)))%list |}).
Proof.
  unfold bind, get_created. rewrite !report_mapping_run. proj_simpl.
  now rewrite <- !app_assoc.
Qed.

(** The restore of a network that returns has either logged that the
    network could not be created, or written a report that lists an
    entry for every key the three mappings held when it started. *)
Lemma restore_network_report vpcs vpc_id st :
  match fst (restore_network ec2 vpcs vpc_id st) with
  | Raise _ => True
  | Ret _ =>
      exists new,
        logs (snd (restore_network ec2 vpcs vpc_id st)) = (logs st ++ new)%list
        /\ (In (ERROR, "Failed to restore VPC " ++ vpc_id) new
            \/ reported "Subnet" (cr_subnets (created_resources st)) new
               /\ reported "Route Table" (cr_route_tables (created_resources st)) new
               /\ reported "Security Group"
                    (cr_security_groups (created_resources st)) new)
  end.
Proof.
  change (on_return st
            (fun new =>
               In (ERROR, "Failed to restore VPC " ++ vpc_id) new
               \/ reported "Subnet" (cr_subnets (created_resources st)) new
                  /\ reported "Route Table" (cr_route_tables (created_resources st)) new
                  /\ reported "Security Group"
                       (cr_security_groups (created_resources st)) new)
            (restore_network ec2 vpcs vpc_id st)).
  unfold restore_network.
  destruct (dict_get string_dec vpc_id vpcs) as [vpc_details|]; [|exact I].
  apply bind_post; [apply grows_refl| |apply log_grows]. intros _ H0.
  apply bind_post; [exact H0| |apply restore_vpc_grows]. intros new_vpc_id H1.
  destruct (negb (truthy new_vpc_id)).
  { destruct H1 as [[new1 Hnew1] _].
    match type of Hnew1 with logs ?s = _ => set (s1 := s) in * end.
    clearbody s1. unfold on_return, log. proj_simpl.
    exists (new1 ++ [(ERROR, ("Failed to restore VPC " ++ vpc_id)%string)])%list.
    split; [now rewrite Hnew1, app_assoc|].
    left. apply in_or_app. right. now left. }
  apply bind_post; [exact H1| |].
  2:{ destruct (Vpc.internet_gateways vpc_details) as [[|igw_data l]|];
        try (apply pr_ret, grows_refl).
      destruct (negb (Igw.is_empty igw_data)); [|apply pr_ret, grows_refl].
      apply restore_internet_gateway_grows. }
  intros new_igw_id H2.
  apply bind_post; [exact H2| |apply log_grows]. intros _ H3.
  apply bind_post; [exact H3| |apply restore_subnets_grows]. intros _ H4.
  apply bind_post; [exact H4| |apply log_grows]. intros _ H5.
  apply bind_post; [exact H5| |apply restore_route_tables_grows]. intros _ H6.
  apply bind_post; [exact H6| |apply log_grows]. intros _ H7.
  apply bind_post; [exact H7| |apply restore_security_groups_grows]. intros _ H8.
  apply bind_post; [exact H8| |apply log_grows]. intros _ H9.
  apply bind_post; [exact H9| |apply log_grows]. intros _ H10.
  apply bind_post; [exact H10| |apply log_grows]. intros _ H11.
  match type of H11 with grows st ?s => set (st_pre := s) in * end.
  clearbody st_pre. clear - H11.
  rewrite reports_run. unfold on_return. proj_simpl.
  destruct H11 as [[new1 Hnew1] (K1 & K2 & K3 & _)].
  eexists. split; [rewrite Hnew1, <- app_assoc; reflexivity|].
  right. split; [|split].
  - eapply reported_lines; [exact K1|]. intros x Hx. rewrite !in_app_iff. tauto.
  - eapply reported_lines; [exact K2|]. intros x Hx. rewrite !in_app_iff. tauto.
  - eapply reported_lines; [exact K3|]. intros x Hx. rewrite !in_app_iff. tauto.
Qed.
End AcrossNetworks.

Section AcrossNetworksOfRun.
Variable ec2 : list Call -> Call -> outcome string.
Variable s3_list_objects_v2 : string -> string -> outcome (option (list string)).
Variable s3_get_object : string -> string -> outcome string.
Variable json_loads : string -> outcome (option Backup.t).
Variable yaml_safe_load : string -> outcome (option Backup.t).

(** Loading the snapshot writes nothing to the mappings. *)
Lemma load_backup_data_keeps_created bucket region account_id current_region :
  preserves (on_created eq)
    (load_backup_data s3_list_objects_v2 s3_get_object json_loads yaml_safe_load
       bucket region account_id current_region).
Proof.
  unfold load_backup_data, find_latest_backup, load_from.
  preserves_tac
    ltac:(apply (on_created_refl eq (@eq_refl _)))
    ltac:(apply (on_created_trans eq (@eq_trans _)))
    ltac:(first [ apply (oc_log eq (@eq_refl _))
                | apply (oc_put_timestamp eq (@eq_refl _))
                | apply pr_ret; apply (on_created_refl eq (@eq_refl _))
                | apply pr_raise; apply (on_created_refl eq (@eq_refl _))
                | apply pr_get_timestamp; apply (on_created_refl eq (@eq_refl _))
                | solve [intros ?; reflexivity] ]).
Qed.

(** C1, as the code has it. The mappings are created empty once per run,
    when the restore object is initialised: they are still empty when the
    snapshot is loaded and the loop over the networks starts. The loop
    never clears them: every key a mapping holds when the restore of the
    networks [vpc_ids] starts, it still holds when it ends, so what was
    recorded for an earlier network is there during the restore of a later
    one. And the restore of a network [vpc_id] that returns has either
    logged that the network could not be created, or written a report that
    lists an entry for every key the three mappings held when it started,
    whichever network the key was recorded for. *)
Theorem mappings_accumulate_across_networks args sess vpcs vpc_ids vpc_id st :
  created_resources
    (snd (load_backup_data s3_list_objects_v2 s3_get_object json_loads
            yaml_safe_load (arg_bucket args) (arg_region args)
            (sess_account_id sess) (sess_region sess) (init_state args sess)))
  = init_created_resources
  /\ mappings_kept (created_resources st)
       (created_resources (snd (for_each vpc_ids (restore_network ec2 vpcs) st)))
  /\ match fst (restore_network ec2 vpcs vpc_id st) with
     | Raise _ => True
     | Ret _ =>
         exists new,
           logs (snd (restore_network ec2 vpcs vpc_id st)) = (logs st ++ new)%list
           /\ (In (ERROR, "Failed to restore VPC " ++ vpc_id) new
               \/ reported "Subnet" (cr_subnets (created_resources st)) new
                  /\ reported "Route Table"
                       (cr_route_tables (created_resources st)) new
                  /\ reported "Security Group"
                       (cr_security_groups (created_resources st)) new)
     end.
Proof.
  split; [|split].
  - symmetry. apply (load_backup_data_keeps_created _ _ _ _ (init_state args sess)).
  - apply (@pr_for_each (on_created mappings_kept)
             (on_created_refl mappings_kept mappings_kept_refl)
             (on_created_trans mappings_kept mappings_kept_trans)).
    intros vpc_id' _. apply restore_network_kept.
  - apply restore_network_report.
Qed.
End AcrossNetworksOfRun.

(** C1, as stated, fails: in a run over the snapshot [two_vpcs], when the
    restore of the second network starts the subnets mapping holds the
    entry recorded for the subnet of the first network, and the report
    written for the second network lists that entry. *)
Lemma mapping_not_reset_between_networks :
  cr_subnets
    (created_resources
       (snd (for_each ["vpc-a"] (restore_network ec2_ok two_vpcs) empty_state)))
  = [(Some "subnet-a", "new-3")]
  /\ In (INFO, "  Subnet: subnet-a -> new-3")
       (emitted (restore_network ec2_ok two_vpcs "vpc-b")
          (snd (for_each ["vpc-a"] (restore_network ec2_ok two_vpcs) empty_state))).
Proof. split; [reflexivity|]. vm_compute. intuition. Qed.


(** ** Network creation *)

Section NetworkCreation.
Variable ec2 : list Call -> Call -> outcome string.

(** Case analysis along a straight-line run: on the outcome of the next
    call, on the exception it raised, on the next test. *)
Ltac run_cases :=
  repeat (proj_simpl;
          match goal with
          | |- context [match ec2 ?h ?c with _ => _ end] =>
              destruct (ec2 h c) as [?|[? ?|?]] eqn:?
          | |- context [if ?b then _ else _] => destruct b eqn:?
          end).

(** C2, as the code has it. When network creation returns the new
    network, the attribute calls it issued are an enabling call for DNS
    support exactly when the captured flag is enabled or absent, and an
    enabling call for DNS hostnames exactly when the captured flag is
    enabled; no call disables an attribute. So each attribute of the new
    network is enabled when its captured flag (with its default) is, and
    otherwise keeps the value the provisioning API gave the new network. *)
Theorem restore_vpc_dns_attributes new_network vpc_data st new_vpc_id :
  fst (restore_vpc ec2 vpc_data st) = Ret (Some new_vpc_id) ->
  exists issued_calls,
    calls (snd (restore_vpc ec2 vpc_data st)) = (calls st ++ issued_calls)%list
    /\ filter is_modify_vpc_attribute issued_calls
       = ((if get_default (Vpc.EnableDnsSupport vpc_data) true
           then [modify_vpc_attribute new_vpc_id (EnableDnsSupport true)] else [])
          ++ (if get_default (Vpc.EnableDnsHostnames vpc_data) false
              then [modify_vpc_attribute new_vpc_id (EnableDnsHostnames true)]
              else []))%list
    /\ dns_attributes new_network new_vpc_id issued_calls
       = {| dns_support :=
              get_default (Vpc.EnableDnsSupport vpc_data) true
              || dns_support new_network;
            dns_hostnames :=
              get_default (Vpc.EnableDnsHostnames vpc_data) false
              || dns_hostnames new_network |}.
Proof.
  unfold restore_vpc.
  destruct (negb (truthy (Vpc.CidrBlock vpc_data))); [discriminate|].
  unfold try_ClientError, bind, call, when, log, modify_created, get_created,
    put_created, ret.
  run_cases; proj_simpl; try discriminate.
  all: intros [= <-]; eexists; (split; [repeat rewrite <- app_assoc; reflexivity|]).
  all: split; [reflexivity|].
  all: cbn [app dns_attributes fold_left apply_call orb];
    repeat rewrite String.eqb_refl; cbn [dns_support dns_hostnames];
    destruct new_network; reflexivity.
Qed.
End NetworkCreation.

Lemma restore_vpc_dns_attributes_witness :
  exists issued_calls,
    calls (snd (restore_vpc ec2_ok vpc_a empty_state)) = issued_calls
    /\ filter is_modify_vpc_attribute issued_calls
       = [modify_vpc_attribute "new-0" (EnableDnsSupport true)]
    /\ dns_attributes api_new_network "new-0" issued_calls
       = {| dns_support := true; dns_hostnames := false |}.
Proof.
  exact (@restore_vpc_dns_attributes ec2_ok api_new_network vpc_a empty_state
           "new-0" eq_refl).
Defined.

(** C2, as stated, fails: a network captured with DNS support disabled is
    created, no attribute call is issued for it, and it keeps the DNS
    support the provisioning API gives a new network, enabled. *)
Lemma dns_support_disabled_not_restored :
  Vpc.EnableDnsSupport vpc_dns_off = Some false
  /\ fst (restore_vpc ec2_ok vpc_dns_off empty_state) = Ret (Some "new-0")
  /\ calls (snd (restore_vpc ec2_ok vpc_dns_off empty_state))
     = [create_vpc "10.0.0.0/16"; wait_vpc_available "new-0"]
  /\ dns_support
       (dns_attributes api_new_network "new-0"
          (calls (snd (restore_vpc ec2_ok vpc_dns_off empty_state))))
     = true.
Proof. repeat split. Qed.

(** ** Tags *)

(** The gateway, subnet, route-table and security-group paths replay the
    captured tags whose key does not start with [aws:], in one call, and
    issue no call when none is left. *)
Lemma apply_tags_excludes_reserved ec2 tags new_id st :
  calls (snd (apply_tags ec2 tags new_id st))
  = (calls st
     ++ match tags with
        | Some tags =>
            if nonempty (filter not_aws_tag tags)
            then [create_tags new_id (filter not_aws_tag tags)] else []
        | None => []
        end)%list
  /\ forall tag, In tag (filter not_aws_tag (get_default tags [])) ->
       startswith (Key tag) "aws:" = false.
Proof.
  split.
  - unfold apply_tags. destruct tags as [tags|]; [|now rewrite app_nil_r].
    destruct (nonempty (filter not_aws_tag tags)); [|now rewrite app_nil_r].
    unfold when, bind, call, ret. proj_simpl.
    destruct (ec2 (calls st) _); reflexivity.
  - intros tag H. apply filter_In in H. destruct H as [_ H].
    unfold not_aws_tag in H. now apply negb_true_iff in H.
Qed.

(** C3 at a failing input. A network captured with the tags [Name] and
    [aws:cloudformation:stack-id] is restored with a [create_tags] call that
    carries both, the platform-reserved one included, where the subnet path
    replays [Name] alone for the same tags; on a client that rejects
    reserved keys, the network path then reports failure although the
    network was created. *)
Theorem restore_vpc_replays_reserved_tag :
  calls (snd (restore_vpc ec2_ok vpc_stack_tags empty_state))
  = [ create_vpc "10.0.0.0/16";
      wait_vpc_available "new-0";
      create_tags "new-0"
        [ {| Key := "Name"; Value := "prod" |};
          {| Key := "aws:cloudformation:stack-id";
             Value := "arn:aws:cloudformation:stack/prod" |} ];
      modify_vpc_attribute "new-0" (EnableDnsSupport true) ]
  /\ calls (snd (restore_subnet ec2_ok "new-0" subnet_stack_tags empty_state))
     = [ create_subnet "new-0" "10.0.1.0/24" None;
         create_tags "new-0" [ {| Key := "Name"; Value := "prod" |} ] ]
  /\ fst (restore_vpc ec2_reserved_tags vpc_stack_tags empty_state) = Ret None
  /\ In (create_vpc "10.0.0.0/16")
       (calls (snd (restore_vpc ec2_reserved_tags vpc_stack_tags empty_state))).
Proof. repeat split. now left. Qed.

(** ** Which exceptions escape the restore of a network *)

Section Escapes.
Variable ec2 : list Call -> Call -> outcome string.
Hypothesis ec2_only_ClientError : only_ClientError ec2.

Lemma ro_call c : raises_only is_ClientError (call ec2 c).
Proof.
  intros st e. unfold call; simpl. intros H. destruct e as [code text|text].
  - exact I.
  - destruct (ec2_only_ClientError H).
Qed.

(** Structural steps of a proof of [raises_only P m]. *)
Ltac ro_tac :=
  repeat first
    [ apply ro_ret | apply ro_log | apply ro_get_created | apply ro_put_created
    | apply ro_modify_created | apply ro_get_timestamp | apply ro_put_timestamp
    | apply ro_call
    | progress intros
    | apply ro_try
    | apply ro_bind
    | apply ro_when
    | apply ro_for_each
    | match goal with
      | |- raises_only _ (if ?b then _ else _) => destruct b
      | |- raises_only _ (match ?o with Some _ => _ | None => _ end) => destruct o
      end ].

Lemma restore_vpc_escapes P vpc_data : raises_only P (restore_vpc ec2 vpc_data).
Proof. unfold restore_vpc. ro_tac. Qed.

Lemma restore_internet_gateway_escapes P igw_data new_vpc_id :
  raises_only P (restore_internet_gateway ec2 igw_data new_vpc_id).
Proof. unfold restore_internet_gateway, apply_tags. ro_tac. Qed.

Lemma restore_subnets_escapes P l new_vpc_id :
  raises_only P (restore_subnets ec2 l new_vpc_id).
Proof. unfold restore_subnets, restore_subnet, apply_tags. ro_tac. Qed.

(** The lookup that follows a successful membership test finds the key. *)
Lemma restore_association_escapes P new_rt_id assoc :
  raises_only P (restore_association ec2 new_rt_id assoc).
Proof.
  unfold restore_association.
  destruct (get_default (Assoc.Main assoc) false); [apply ro_ret|].
  apply ro_bind; [apply ro_get_created|intros cr].
  unfold dict_mem.
  destruct (dict_get opt_string_dec (Assoc.SubnetId assoc) (cr_subnets cr)).
  - ro_tac.
  - rewrite andb_false_r. apply ro_ret.
Qed.

Lemma restore_route_tables_escapes P l new_vpc_id igw_id :
  raises_only P (restore_route_tables ec2 l new_vpc_id igw_id).
Proof.
  unfold restore_route_tables, restore_route_table.
  apply ro_for_each. intros rt_data _. apply ro_try; [|ro_tac].
  apply ro_bind; [apply ro_log|intros _].
  apply ro_bind; [apply ro_call|intros new_rt_id].
  apply ro_bind; [unfold apply_tags; ro_tac|intros _].
  apply ro_bind; [|intros _].
  { destruct (RouteTable.Routes rt_data); [|apply ro_ret].
    unfold restore_route. ro_tac. }
  apply ro_bind; [|ro_tac].
  destruct (RouteTable.Associations rt_data); [|apply ro_ret].
  apply ro_for_each. intros. apply restore_association_escapes.
Qed.

Lemma add_group_rules_escapes P sg_data :
  raises_only P (add_group_rules ec2 sg_data).
Proof.
  unfold add_group_rules.
  apply ro_bind; [apply ro_get_created|intros cr].
  unfold dict_mem.
  destruct (dict_get opt_string_dec (Sg.GroupId sg_data) (cr_security_groups cr)).
  - unfold add_ingress_rule, add_egress_rule. ro_tac.
  - rewrite orb_true_r. apply ro_ret.
Qed.

Lemma restore_security_groups_escapes P l new_vpc_id :
  raises_only P (restore_security_groups ec2 l new_vpc_id).
Proof.
  unfold restore_security_groups.
  apply ro_bind; [|intros _; apply ro_for_each; intros; apply add_group_rules_escapes].
  unfold create_group, apply_tags. ro_tac.
Qed.

Lemma restore_network_escapes P vpcs vpc_id :
  dict_mem string_dec vpc_id vpcs = true ->
  raises_only P (restore_network ec2 vpcs vpc_id).
Proof.
  intros H. unfold restore_network. apply dict_mem_get in H.
  destruct H as [vpc_details ->].
  apply ro_bind; [apply ro_log|intros _].
  apply ro_bind; [apply restore_vpc_escapes|intros new_vpc_id].
  destruct (negb (truthy new_vpc_id)); [apply ro_log|].
  apply ro_bind.
  { destruct (Vpc.internet_gateways vpc_details) as [[|igw_data l]|];
      try apply ro_ret.
    destruct (negb (Igw.is_empty igw_data)); [|apply ro_ret].
    apply restore_internet_gateway_escapes. }
  intros new_igw_id.
  apply ro_bind; [apply ro_log|intros _].
  apply ro_bind; [apply restore_subnets_escapes|intros _].
  apply ro_bind; [apply ro_log|intros _].
  apply ro_bind; [apply restore_route_tables_escapes|intros _].
  apply ro_bind; [apply ro_log|intros _].
  apply ro_bind; [apply restore_security_groups_escapes|intros _].
  unfold report_mapping. ro_tac.
Qed.

End Escapes.

(** ** The exit code of the restore command *)

Section ExitCode.
Variable ec2 : list Call -> Call -> outcome string.
Variable s3_list_objects_v2 : string -> string -> outcome (option (list string)).
Variable s3_get_object : string -> string -> outcome string.
Variable json_loads : string -> outcome (option Backup.t).
Variable yaml_safe_load : string -> outcome (option Backup.t).
Variable new_session : option string -> option string -> outcome Session.

Local Abbreviation exit_code args :=
  (cmd_restore ec2 s3_list_objects_v2 s3_get_object json_loads yaml_safe_load
     new_session args).
Local Abbreviation load args sess :=
  (load_backup_data s3_list_objects_v2 s3_get_object json_loads yaml_safe_load
     (arg_bucket args) (arg_region args) (sess_account_id sess) (sess_region sess)
     (init_state args sess)).
Local Abbreviation networks args backup_data :=
  (for_each
     (vpc_ids_of (arg_vpc_id args) (get_default (Backup.vpcs backup_data) []))
     (restore_network ec2 (get_default (Backup.vpcs backup_data) []))).

(** The exit code, stage by stage. *)
Lemma cmd_restore_run args :
  exit_code args
  = match new_session (arg_profile args) (arg_region args) with
    | Raise _ => 1%Z
    | Ret sess =>
        match load args sess with
        | (Ret (Some backup_data), st) =>
            if snapshot_usable (arg_vpc_id args) backup_data then
              match fst (networks args backup_data st) with
              | Ret _ => 0%Z
              | Raise _ => 1%Z
              end
            else 1%Z
        | (Ret None, _) => 1%Z
        | (Raise _, _) => 1%Z
        end
    end.
Proof.
  unfold cmd_restore, run_restore.
  destruct (new_session (arg_profile args) (arg_region args)) as [sess|e];
    [|reflexivity].
  unfold restore_vpc_from_backup. unfold bind at 1.
  destruct (load args sess) as [[[backup_data|]|e] st]; try reflexivity.
  unfold snapshot_usable.
  destruct (Backup.is_empty backup_data); [reflexivity|].
  destruct (nonempty (get_default (Backup.vpcs backup_data) [])); [|reflexivity].
  cbn [negb andb].
  destruct (truthy (arg_vpc_id args)
            && negb (dict_mem string_dec (get_default (arg_vpc_id args) "")
                       (get_default (Backup.vpcs backup_data) [])));
    [reflexivity|].
  cbn [negb]. unfold bind.
  destruct (networks args backup_data st) as [[[]|e] st2]; reflexivity.
Qed.

(** On a client that raises nothing but [ClientError], no exception
    escapes the loop over the networks of a usable snapshot, whichever
    networks fail to restore. *)
Lemma networks_return args backup_data st :
  only_ClientError ec2 ->
  snapshot_usable (arg_vpc_id args) backup_data = true ->
  fst (networks args backup_data st) = Ret tt.
Proof.
  intros Hec2 Husable. unfold snapshot_usable in Husable.
  apply andb_true_iff in Husable. destruct Husable as [Husable Htarget].
  apply negb_true_iff in Htarget.
  match goal with |- fst (?m st) = _ =>
    destruct (@never_returns _ m st) as [[] Hret]; [|exact Hret]
  end.
  apply ro_for_each. intros vpc_id Hin.
  apply restore_network_escapes; [exact Hec2|].
  unfold vpc_ids_of in Hin.
  destruct (truthy (arg_vpc_id args)).
  - destruct Hin as [<-|[]]. cbn [andb] in Htarget.
    now apply negb_false_iff in Htarget.
  - now apply dict_mem_in_keys.
Qed.

(** C4, as the code has it. The exit code is 0 exactly when the session
    is set up, the snapshot is loaded, it is usable (not empty, it holds
    networks, and it holds the requested network if one was requested) and
    no exception escapes the loop over the networks; in every other case,
    a session that cannot be set up, a load that returns nothing or raises,
    a snapshot that is not usable, an exception that escapes, it is 1. On a
    client that raises nothing but [ClientError] no exception escapes the
    loop, whichever networks fail to restore: the failure of a network
    never changes the exit code. *)
Theorem cmd_restore_exit_code args :
  (exit_code args = 0%Z <->
   exists sess backup_data st,
     new_session (arg_profile args) (arg_region args) = Ret sess
     /\ load args sess = (Ret (Some backup_data), st)
     /\ snapshot_usable (arg_vpc_id args) backup_data = true
     /\ fst (networks args backup_data st) = Ret tt)
  /\ (exit_code args <> 0%Z -> exit_code args = 1%Z)
  /\ (only_ClientError ec2 ->
      forall backup_data st,
        snapshot_usable (arg_vpc_id args) backup_data = true ->
        fst (networks args backup_data st) = Ret tt).
Proof.
  split; [|split].
  - rewrite cmd_restore_run. split.
    + destruct (new_session (arg_profile args) (arg_region args)) as [sess|e];
        [|discriminate].
      destruct (load args sess) as [[[backup_data|]|e] st] eqn:Hload;
        try discriminate.
      destruct (snapshot_usable (arg_vpc_id args) backup_data) eqn:Husable;
        [|discriminate].
      destruct (fst (networks args backup_data st)) as [[]|e] eqn:Hnetworks;
        [|discriminate].
      intros _. exists sess, backup_data, st. auto.
    + intros (sess & backup_data & st & -> & -> & -> & ->). reflexivity.
  - rewrite cmd_restore_run.
    destruct (new_session (arg_profile args) (arg_region args)) as [sess|e];
      [|reflexivity].
    destruct (load args sess) as [[[backup_data|]|e] st]; try reflexivity.
    destruct (snapshot_usable (arg_vpc_id args) backup_data); [|reflexivity].
    destruct (fst (networks args backup_data st)); [congruence|reflexivity].
  - intros Hec2 backup_data st Husable. now apply networks_return.
Qed.

End ExitCode.

Lemma cmd_restore_exit_code_witness :
  cmd_restore ec2_down s3_no_listing s3_get_any
    (decode_as (snapshot_of two_vpcs)) (decode_as (snapshot_of two_vpcs))
    session_ok restore_args
  = 0%Z.
Proof.
  apply (proj2 (proj1 (@cmd_restore_exit_code ec2_down s3_no_listing s3_get_any
                         (decode_as (snapshot_of two_vpcs))
                         (decode_as (snapshot_of two_vpcs))
                         session_ok restore_args))).
  eexists. exists (snapshot_of two_vpcs). eexists.
  split; [reflexivity|]. split; [vm_compute; reflexivity|].
  split; [reflexivity|]. vm_compute. reflexivity.
Defined.

(** The exit code is 1 when the session cannot be set up, when the
    snapshot cannot be loaded, when the requested network is not in the
    snapshot, and when an exception escapes the restore of a network. *)
Example cmd_restore_exits_one :
  cmd_restore ec2_ok s3_no_listing s3_get_any
    (decode_as (snapshot_of two_vpcs)) (decode_as (snapshot_of two_vpcs))
    (fun _ _ => Raise (OtherError "ProfileNotFound")) restore_args
  = 1%Z
  /\ cmd_restore ec2_ok s3_no_listing s3_access_denied
       (decode_as (snapshot_of two_vpcs)) (decode_as (snapshot_of two_vpcs))
       session_ok restore_args
     = 1%Z
  /\ cmd_restore ec2_ok s3_no_listing s3_get_any
       (decode_as (snapshot_of two_vpcs)) (decode_as (snapshot_of two_vpcs))
       session_ok
       {| arg_bucket := "backups";
          arg_timestamp := Some "2024-01-01-00-00-00";
          arg_vpc_id := Some "vpc-z";
          arg_region := None;
          arg_profile := None |}
     = 1%Z
  /\ cmd_restore (fun _ _ => Raise (OtherError "EndpointConnectionError"))
       s3_no_listing s3_get_any
       (decode_as (snapshot_of two_vpcs)) (decode_as (snapshot_of two_vpcs))
       session_ok restore_args
     = 1%Z.
Proof. repeat split; vm_compute; reflexivity. Qed.

(** C4, as stated, fails: with a snapshot whose only network has no CIDR
    block, the network is not restored (no call is issued and the failure
    is logged), and the exit code is 0. The same holds when every call of
    the client fails. *)
Lemma failed_network_exits_zero :
  cmd_restore ec2_ok s3_no_listing s3_get_any
    (decode_as (snapshot_of [("vpc-a", vpc_no_cidr)]))
    (decode_as (snapshot_of [("vpc-a", vpc_no_cidr)]))
    session_ok restore_args
  = 0%Z
  /\ calls (snd (run_restore ec2_ok s3_no_listing s3_get_any
                   (decode_as (snapshot_of [("vpc-a", vpc_no_cidr)]))
                   (decode_as (snapshot_of [("vpc-a", vpc_no_cidr)]))
                   restore_args
                   {| sess_account_id := "123456789012";
                      sess_region := Some "eu-west-1" |}))
     = []
  /\ In (ERROR, "Failed to restore VPC vpc-a")
       (logs (snd (run_restore ec2_ok s3_no_listing s3_get_any
                     (decode_as (snapshot_of [("vpc-a", vpc_no_cidr)]))
                     (decode_as (snapshot_of [("vpc-a", vpc_no_cidr)]))
                     restore_args
                     {| sess_account_id := "123456789012";
                        sess_region := Some "eu-west-1" |})))
  /\ cmd_restore ec2_down s3_no_listing s3_get_any
       (decode_as (snapshot_of two_vpcs)) (decode_as (snapshot_of two_vpcs))
       session_ok restore_args
     = 0%Z.
Proof.
  split; [reflexivity|]. split; [reflexivity|]. split; [|reflexivity].
  vm_compute. intuition.
Qed.

(** ** The order on strings, sorting and splitting *)

Lemma ascii_compare_refl c : Ascii.compare c c = Eq.
Proof. unfold Ascii.compare. apply N.compare_refl. Qed.

Lemma string_leb_refl s : String.leb s s = true.
Proof.
  unfold String.leb. induction s as [|c s IH]; simpl; [reflexivity|].
  now rewrite ascii_compare_refl.
Qed.

Lemma string_leb_trans a b c :
  String.leb a b = true -> String.leb b c = true -> String.leb a c = true.
Proof.
  unfold String.leb. revert b c.
  induction a as [|x a IH]; intros [|y b] [|z c]; simpl; try easy.
  specialize (IH b c). unfold Ascii.compare.
  destruct (N.compare_spec (N_of_ascii x) (N_of_ascii y)) as [E1|E1|E1];
    destruct (N.compare_spec (N_of_ascii y) (N_of_ascii z)) as [E2|E2|E2];
    destruct (N.compare_spec (N_of_ascii x) (N_of_ascii z)) as [E3|E3|E3];
    try easy; try lia.
Qed.

(** A common head does not change the comparison. *)
Lemma string_compare_app_l b x y :
  String.compare (b ++ x) (b ++ y) = String.compare x y.
Proof.
  induction b as [|c b IH]; simpl; [reflexivity|].
  now rewrite ascii_compare_refl.
Qed.

(** Nor does a common last character, between strings of one length. *)
Lemma string_compare_app_r c x y :
  String.length x = String.length y ->
  String.compare (x ++ String c "") (y ++ String c "") = String.compare x y.
Proof.
  revert y. induction x as [|a x IH]; intros [|b y] H; simpl in *; try discriminate.
  - now rewrite ascii_compare_refl.
  - destruct (Ascii.compare a b); auto.
Qed.

Lemma in_insert_sorted x y l : In y (insert_sorted x l) <-> y = x \/ In y l.
Proof.
  induction l as [|z l IH]; simpl.
  - intuition.
  - destruct (String.leb x z); simpl; [intuition|]. rewrite IH. intuition.
Qed.

Lemma in_sorted y l : In y (sorted l) <-> In y l.
Proof.
  induction l as [|x l IH]; simpl; [tauto|].
  rewrite in_insert_sorted, IH. intuition.
Qed.

Lemma insert_sorted_sorted x l :
  StronglySorted leb_true l -> StronglySorted leb_true (insert_sorted x l).
Proof.
  induction 1 as [|y l Hl IH Hy]; simpl.
  - repeat constructor.
  - destruct (String.leb x y) eqn:E.
    + constructor; [now constructor|]. constructor; [exact E|].
      eapply Forall_impl; [|exact Hy]. intros z Hz.
      eapply string_leb_trans; [exact E|exact Hz].
    + constructor; [exact IH|].
      apply Forall_forall. intros z Hz. apply in_insert_sorted in Hz.
      destruct Hz as [->|Hz].
      * destruct (String.leb_total x y) as [H|H]; [congruence|exact H].
      * rewrite Forall_forall in Hy. now apply Hy.
Qed.

Lemma sorted_sorted l : StronglySorted leb_true (sorted l).
Proof.
  induction l as [|x l IH]; simpl; [constructor|now apply insert_sorted_sorted].
Qed.

Lemma strongly_sorted_last l m :
  StronglySorted leb_true (l ++ [m]) -> forall x, In x (l ++ [m]) -> leb_true x m.
Proof.
  induction l as [|a l IH]; simpl; intros H x Hx.
  - destruct Hx as [<-|[]]. apply string_leb_refl.
  - inversion H as [|? ? Hl Ha]; subst. destruct Hx as [<-|Hx].
    + rewrite Forall_forall in Ha. apply Ha. apply in_or_app. right. now left.
    + now apply IH.
Qed.

(** [sorted(l)[-1]] is a maximum of [l]. *)
Lemma last_sorted_is_max l :
  l <> [] -> exists m, index_m1 (sorted l) = Some m /\ is_max m l.
Proof.
  intros Hl. unfold index_m1.
  destruct (rev (sorted l)) as [|m r] eqn:E.
  - exfalso. apply (f_equal (@rev _)) in E. rewrite rev_involutive in E.
    destruct l as [|x l]; [congruence|].
    assert (In x (sorted (x :: l))) as H by (apply in_sorted; now left).
    rewrite E in H. destruct H.
  - exists m. split; [reflexivity|].
    apply (f_equal (@rev _)) in E. rewrite rev_involutive in E. simpl in E.
    split.
    + apply in_sorted. rewrite E. apply in_or_app. right. now left.
    + intros x Hx. apply in_sorted in Hx. rewrite E in Hx.
      apply (@strongly_sorted_last (rev r) m); [|exact Hx].
      rewrite <- E. apply sorted_sorted.
Qed.

Lemma string_app_assoc (a b c : string) : (a ++ b) ++ c = a ++ (b ++ c).
Proof. induction a as [|x a IH]; simpl; [reflexivity|now rewrite IH]. Qed.

Lemma split_nonempty sep s : split sep s <> [].
Proof.
  destruct s as [|c s]; simpl; [discriminate|].
  destruct (Ascii.eqb c sep); [discriminate|].
  destruct (split sep s); discriminate.
Qed.

(** Splitting around one occurrence of the separator. *)
Lemma split_app_sep sep s u :
  split sep (s ++ String sep u) = (split sep s ++ split sep u)%list.
Proof.
  induction s as [|c s IH]; simpl.
  - now rewrite Ascii.eqb_refl.
  - destruct (Ascii.eqb c sep); [now rewrite IH|].
    rewrite IH. pose proof (split_nonempty sep s) as H.
    destruct (split sep s); [congruence|reflexivity].
Qed.

Lemma split_no_sep sep s : has_char sep s = false -> split sep s = [s].
Proof.
  induction s as [|c s IH]; simpl; [reflexivity|].
  intros H. apply orb_false_iff in H. destruct H as [H1 H2].
  rewrite H1, (IH H2). reflexivity.
Qed.

(** [(p + '/' + ts + '/').split('/')[-2]] is [ts] when [ts] has no [/]. *)
Lemma split_timestamp p ts :
  has_char "/" ts = false ->
  index_m2 (split "/" ((p ++ "/") ++ ts ++ "/")) = Some ts.
Proof.
  intros H. rewrite string_app_assoc. simpl append.
  change (String "/" (ts ++ "/")) with (String "/"%char (ts ++ String "/" "")).
  rewrite split_app_sep, split_app_sep, (split_no_sep _ _ H).
  unfold index_m2. rewrite !rev_app_distr. reflexivity.
Qed.

Lemma matches_length pattern s :
  matches pattern s = true -> String.length s = String.length pattern.
Proof.
  revert s. induction pattern as [|p pattern IH]; intros [|c s]; simpl;
    try discriminate; [reflexivity|].
  intros H. apply andb_true_iff in H. destruct H as [_ H].
  now rewrite (IH s H).
Qed.

Lemma is_digit_not_slash c : is_digit c = true -> Ascii.eqb c "/" = false.
Proof.
  unfold is_digit. intros H. apply andb_true_iff in H. destruct H as [H _].
  apply Ascii.eqb_neq. intros ->. vm_compute in H. discriminate H.
Qed.

Lemma matches_no_slash pattern s :
  has_char "/" pattern = false -> matches pattern s = true ->
  has_char "/" s = false.
Proof.
  revert s. induction pattern as [|p pattern IH]; intros [|c s]; simpl;
    try discriminate; [reflexivity|].
  intros Hp H. apply orb_false_iff in Hp. destruct Hp as [Hp1 Hp2].
  apply andb_true_iff in H. destruct H as [Hc H].
  rewrite (IH s Hp2 H), orb_false_r.
  destruct (Ascii.eqb p "d").
  - now apply is_digit_not_slash.
  - apply Ascii.eqb_eq in Hc. subst c. exact Hp1.
Qed.

Lemma is_timestamp_length ts : is_timestamp ts = true -> String.length ts = 19.
Proof. intros H. apply matches_length in H. exact H. Qed.

Lemma is_timestamp_no_slash ts : is_timestamp ts = true -> has_char "/" ts = false.
Proof. apply matches_no_slash. reflexivity. Qed.

(** ** Resolving the latest snapshot *)

Section Latest.
Variable ec2 : list Call -> Call -> outcome string.
Variable s3_list_objects_v2 : string -> string -> outcome (option (list string)).
Variable s3_get_object : string -> string -> outcome string.
Variable json_loads : string -> outcome (option Backup.t).
Variable yaml_safe_load : string -> outcome (option Backup.t).
Variable bucket : string.
Variable target_vpc_id : option string.
Variable region : option string.
Variable account_id : string.
Variable current_region : option string.

Local Abbreviation prefix := (backups_prefix region account_id current_region).
Local Abbreviation snapshot_prefix ts := (prefix ++ ts ++ "/").

Lemma backups_prefix_slash : exists p, prefix = p ++ "/".
Proof.
  exists ("vpc-backups/" ++ account_id ++ "/" ++ fmt (py_or region current_region)).
  unfold backups_prefix. now rewrite !string_app_assoc.
Qed.

Lemma snapshot_prefix_leb a b :
  String.length a = String.length b ->
  String.leb (snapshot_prefix a) (snapshot_prefix b) = String.leb a b.
Proof.
  intros H. unfold String.leb.
  rewrite string_compare_app_l.
  change (a ++ "/") with (a ++ String "/" "").
  change (b ++ "/") with (b ++ String "/" "").
  now rewrite string_compare_app_r.
Qed.

(** What [find_latest_backup] does on a listing of snapshots whose
    timestamps have the format the backup writes. *)
Lemma find_latest_backup_run timestamps st :
  timestamps <> [] ->
  (forall ts, In ts timestamps -> is_timestamp ts = true) ->
  s3_list_objects_v2 bucket prefix
  = Ret (Some (map (fun ts => snapshot_prefix ts) timestamps)) ->
  exists latest,
    is_max latest timestamps
    /\ find_latest_backup s3_list_objects_v2 bucket region account_id
         current_region st
       = (Ret (Some (snapshot_prefix latest)),
          {| self_timestamp := Some latest;
             created_resources := created_resources st;
             calls := calls st;
             logs := logs st ++ [(INFO, "Found latest backup from " ++ latest)] |}).
Proof.
  intros Hne Hts Hlist.
  destruct (@last_sorted_is_max (map (fun ts => snapshot_prefix ts) timestamps))
    as (m & Hm & Hin & Hmax).
  { destruct timestamps; [congruence|discriminate]. }
  apply in_map_iff in Hin. destruct Hin as (latest & <- & Hlatest).
  exists latest. split.
  { split; [exact Hlatest|]. intros ts Hin.
    rewrite <- snapshot_prefix_leb.
    - apply Hmax. apply in_map_iff. eauto.
    - rewrite (is_timestamp_length _ (Hts ts Hin)).
      now rewrite (is_timestamp_length _ (Hts latest Hlatest)). }
  unfold find_latest_backup, try_ClientError. unfold bind at 1, lift at 1.
  rewrite Hlist.
  destruct timestamps as [|t l]; [congruence|].
  cbn [map] in *. rewrite Hm.
  destruct backups_prefix_slash as [p Hp].
  rewrite Hp, split_timestamp by (apply is_timestamp_no_slash, Hts, Hlatest).
  reflexivity.
Qed.

(** What it does when the listing has no snapshot. *)
Lemma find_latest_backup_none st :
  s3_list_objects_v2 bucket prefix = Ret None
  \/ s3_list_objects_v2 bucket prefix = Ret (Some []) ->
  find_latest_backup s3_list_objects_v2 bucket region account_id current_region st
  = (Ret None,
     {| self_timestamp := self_timestamp st;
        created_resources := created_resources st;
        calls := calls st;
        logs := logs st ++ [(ERROR, "No backups found with prefix: " ++ prefix)] |}).
Proof.
  intros H. unfold find_latest_backup, try_ClientError. unfold bind at 1, lift at 1.
  destruct H as [-> | ->]; reflexivity.
Qed.

(** C8. With no timestamp requested and a listing of snapshots whose
    timestamps have the format the backup writes, resolving the latest
    snapshot returns the location of a snapshot whose timestamp is a
    maximum of the listed timestamps in the order on strings, and makes it
    the timestamp of the run. With a listing that has no snapshot, it
    returns nothing and logs that no backup was found; loading then
    returns nothing and the restore returns failure. *)
Theorem find_latest_backup_selects_maximum st :
  (forall timestamps,
      timestamps <> [] ->
      (forall ts, In ts timestamps -> is_timestamp ts = true) ->
      s3_list_objects_v2 bucket prefix
      = Ret (Some (map (fun ts => snapshot_prefix ts) timestamps)) ->
      exists latest,
        is_max latest timestamps
        /\ fst (find_latest_backup s3_list_objects_v2 bucket region account_id
                  current_region st)
           = Ret (Some (snapshot_prefix latest))
        /\ self_timestamp
             (snd (find_latest_backup s3_list_objects_v2 bucket region
                     account_id current_region st))
           = Some latest)
  /\ (truthy (self_timestamp st) = false ->
      s3_list_objects_v2 bucket prefix = Ret None
      \/ s3_list_objects_v2 bucket prefix = Ret (Some []) ->
      fst (find_latest_backup s3_list_objects_v2 bucket region account_id
             current_region st)
      = Ret None
      /\ In (ERROR, "No backups found with prefix: " ++ prefix)
           (logs (snd (find_latest_backup s3_list_objects_v2 bucket region
                         account_id current_region st)))
      /\ fst (load_backup_data s3_list_objects_v2 s3_get_object json_loads
                yaml_safe_load bucket region account_id current_region st)
         = Ret None
      /\ fst (restore_vpc_from_backup ec2 s3_list_objects_v2 s3_get_object
                json_loads yaml_safe_load bucket target_vpc_id region account_id
                current_region st)
         = Ret false).
Proof.
  split.
  - intros timestamps Hne Hts Hlist.
    destruct (find_latest_backup_run st Hne Hts Hlist) as (latest & Hmax & Hrun).
    exists latest. rewrite Hrun. auto.
  - intros Hts Hlist. pose proof (find_latest_backup_none st Hlist) as Hrun.
    assert (fst (load_backup_data s3_list_objects_v2 s3_get_object json_loads
                   yaml_safe_load bucket region account_id current_region st)
            = Ret None) as Hload.
    { unfold load_backup_data. unfold bind at 1, get_timestamp at 1.
      rewrite Hts. cbn [negb]. unfold bind at 1. rewrite Hrun. reflexivity. }
    rewrite Hrun. cbn [fst snd logs]. repeat split.
    + apply in_or_app. right. now left.
    + exact Hload.
    + unfold restore_vpc_from_backup. unfold bind at 1.
      destruct (load_backup_data _ _ _ _ _ _ _ _ st) as [o st'].
      cbn [fst] in Hload. rewrite Hload. reflexivity.
Qed.
End Latest.

Lemma find_latest_backup_selects_maximum_witness :
  (exists latest,
      is_max latest ["2024-01-01-00-00-00"; "2024-06-01-00-00-00"]
      /\ fst (find_latest_backup s3_two_snapshots "backups" None "123456789012"
                (Some "eu-west-1") empty_state)
         = Ret (Some ("vpc-backups/123456789012/eu-west-1/" ++ latest ++ "/"))
      /\ self_timestamp
           (snd (find_latest_backup s3_two_snapshots "backups" None
                   "123456789012" (Some "eu-west-1") empty_state))
         = Some latest)
  /\ fst (restore_vpc_from_backup ec2_ok s3_no_listing s3_get_any
            (decode_as (snapshot_of two_vpcs)) (decode_as (snapshot_of two_vpcs))
            "backups" None None "123456789012" (Some "eu-west-1") empty_state)
     = Ret false.
Proof.
  split.
  - refine (proj1 (@find_latest_backup_selects_maximum ec2_ok s3_two_snapshots
                     s3_get_any (decode_as (snapshot_of two_vpcs))
                     (decode_as (snapshot_of two_vpcs)) "backups" None None
                     "123456789012" (Some "eu-west-1") empty_state)
              ["2024-01-01-00-00-00"; "2024-06-01-00-00-00"] _ _ eq_refl).
    + discriminate.
    + intros ts [<-|[<-|[]]]; reflexivity.
  - refine (proj2 (proj2 (proj2
      (proj2 (@find_latest_backup_selects_maximum ec2_ok s3_no_listing
                s3_get_any (decode_as (snapshot_of two_vpcs))
                (decode_as (snapshot_of two_vpcs)) "backups" None None
                "123456789012" (Some "eu-west-1") empty_state)
         eq_refl (or_introl eq_refl))))).
Defined.

(** The example of the specification: of the snapshots of
    [2024-01-01-00-00-00] and [2024-06-01-00-00-00], the second is
    selected. *)
Example find_latest_backup_example :
  find_latest_backup s3_two_snapshots "backups" None "123456789012"
    (Some "eu-west-1") empty_state
  = (Ret (Some "vpc-backups/123456789012/eu-west-1/2024-06-01-00-00-00/"),
     {| self_timestamp := Some "2024-06-01-00-00-00";
        created_resources := init_created_resources;
        calls := [];
        logs := [(INFO, "Found latest backup from 2024-06-01-00-00-00")] |}).
Proof. reflexivity. Qed.


(** * Further properties of the restore path *)

(** ** Abandoned networks *)

Section Abandoned.
Variable ec2 : list Call -> Call -> outcome string.

(** A captured network without CIDR block is abandoned before any call:
    whatever subnets, route tables, groups and gateways it has, its restore
    returns, issues no call and records nothing; it writes the two error
    records. *)
Theorem restore_network_missing_cidr vpcs vpc_id vpc_details st :
  dict_get string_dec vpc_id vpcs = Some vpc_details ->
  truthy (Vpc.CidrBlock vpc_details) = false ->
  fst (restore_network ec2 vpcs vpc_id st) = Ret tt
  /\ calls (snd (restore_network ec2 vpcs vpc_id st)) = calls st
  /\ created_resources (snd (restore_network ec2 vpcs vpc_id st))
     = created_resources st
  /\ emitted (restore_network ec2 vpcs vpc_id) st
     = [ (INFO, "Restoring VPC " ++ vpc_id ++ "...");
         (ERROR, "Missing CIDR block for VPC " ++ Vpc.vpc_id vpc_details);
         (ERROR, "Failed to restore VPC " ++ vpc_id) ].
Proof.
  intros Hget Hcidr. unfold emitted, restore_network, restore_vpc.
  rewrite Hget, Hcidr. cbn [negb].
  unfold bind, log, ret. proj_simpl. cbn [truthy negb]. proj_simpl.
  repeat split.
  rewrite <- !app_assoc. rewrite skipn_app, skipn_all, Nat.sub_diag.
  reflexivity.
Qed.

(** When the call that creates the network fails with a [ClientError], the
    network is abandoned: that call is the only one its restore issues,
    nothing is recorded, and the restore of the network returns. *)
Theorem restore_network_creation_fails vpcs vpc_id vpc_details code text st :
  dict_get string_dec vpc_id vpcs = Some vpc_details ->
  truthy (Vpc.CidrBlock vpc_details) = true ->
  ec2 (calls st) (create_vpc (get_default (Vpc.CidrBlock vpc_details) ""))
  = Raise (ClientError code text) ->
  fst (restore_network ec2 vpcs vpc_id st) = Ret tt
  /\ calls (snd (restore_network ec2 vpcs vpc_id st))
     = (calls st ++ [create_vpc (get_default (Vpc.CidrBlock vpc_details) "")])%list
  /\ created_resources (snd (restore_network ec2 vpcs vpc_id st))
     = created_resources st.
Proof.
  intros Hget Hcidr Hcall. unfold restore_network, restore_vpc.
  rewrite Hget, Hcidr. cbn [negb].
  unfold try_ClientError, bind, log, call, ret. proj_simpl. rewrite Hcall.
  proj_simpl. cbn [truthy negb]. proj_simpl. repeat split.
Qed.
End Abandoned.

Lemma restore_network_missing_cidr_witness :
  calls (snd (restore_network ec2_ok [("vpc-a", vpc_no_cidr)] "vpc-a" empty_state))
  = [].
Proof.
  exact (proj1 (proj2 (@restore_network_missing_cidr ec2_ok
                          [("vpc-a", vpc_no_cidr)] "vpc-a" vpc_no_cidr
                          empty_state eq_refl eq_refl))).
Defined.

Lemma restore_network_creation_fails_witness :
  calls (snd (restore_network ec2_down two_vpcs "vpc-a" empty_state))
  = [create_vpc "10.0.0.0/16"].
Proof.
  exact (proj1 (proj2 (@restore_network_creation_fails ec2_down two_vpcs "vpc-a"
                          vpc_a "RequestLimitExceeded"
                          "An error occurred (RequestLimitExceeded)" empty_state
                          eq_refl eq_refl eq_refl))).
Defined.

(** ** Subnets *)

(** Closes a goal on the calls of a run once the run is unfolded by cases:
    filters of appended calls, appends to the right. *)
Ltac calls_tac :=
  repeat rewrite filter_app; cbn [filter app];
  repeat rewrite app_nil_r; repeat rewrite <- app_assoc; try reflexivity.

Lemma always_returns_only_ClientError ec2 :
  always_returns ec2 -> only_ClientError ec2.
Proof. intros H history c text E. destruct (H history c) as [r Hr]. congruence. Qed.

Lemma always_returns_ec2_ok : always_returns ec2_ok.
Proof. intros history c. eexists. reflexivity. Qed.

Section Subnets.
Variable ec2 : list Call -> Call -> outcome string.

Ltac run_cases :=
  repeat (proj_simpl;
          match goal with
          | |- context [match ec2 ?h ?c with _ => _ end] =>
              destruct (ec2 h c) as [?|[? ?|?]] eqn:?
          | |- context [if ?b then _ else _] => destruct b eqn:?
          | |- context [match ?o with Some _ => _ | None => _ end] =>
              destruct o eqn:?
          end).

Lemma restore_subnet_create_calls new_vpc_id subnet_data st :
  only_ClientError ec2 ->
  fst (restore_subnet ec2 new_vpc_id subnet_data st) = Ret tt
  /\ filter is_create_subnet (calls (snd (restore_subnet ec2 new_vpc_id subnet_data st)))
     = (filter is_create_subnet (calls st)
        ++ (if has_cidr subnet_data
            then [create_subnet_call new_vpc_id subnet_data] else []))%list.
Proof.
  intros Hec2. unfold restore_subnet, has_cidr, create_subnet_call, apply_tags.
  destruct (truthy (Subnet.CidrBlock subnet_data)); cbn [negb].
  2:{ unfold log; proj_simpl. split; [reflexivity|now rewrite app_nil_r]. }
  unfold modify_created.
  unfold try_ClientError, bind, call, when, log, get_created, put_created, ret.
  run_cases; proj_simpl;
    try match goal with
        | H : ec2 _ _ = Raise (OtherError _) |- _ => destruct (Hec2 _ _ _ H)
        end;
    (split; [reflexivity|calls_tac]).
Qed.

(** On a client that raises nothing but [ClientError], the loop over the
    captured subnets returns, and the creating calls it issues are one for
    each subnet that has a CIDR block, in the captured order, whatever
    failed in between: with the CIDR block of the subnet, in the new
    network, and with the availability zone when one was captured. A subnet
    without CIDR block gets no creating call. *)
Theorem restore_subnets_create_calls subnet_data_list new_vpc_id st :
  only_ClientError ec2 ->
  fst (restore_subnets ec2 subnet_data_list new_vpc_id st) = Ret tt
  /\ filter is_create_subnet
       (calls (snd (restore_subnets ec2 subnet_data_list new_vpc_id st)))
     = (filter is_create_subnet (calls st)
        ++ map (create_subnet_call new_vpc_id) (filter has_cidr subnet_data_list))%list.
Proof.
  intros Hec2. unfold restore_subnets.
  assert (forall l,
            flat_map (fun s => if has_cidr s
                               then [create_subnet_call new_vpc_id s] else []) l
            = map (create_subnet_call new_vpc_id) (filter has_cidr l)) as Hflat.
  { induction l as [|s l IH]; [reflexivity|]. cbn [flat_map filter].
    rewrite IH. destruct (has_cidr s); reflexivity. }
  rewrite <- Hflat. apply for_each_calls.
  intros; now apply restore_subnet_create_calls.
Qed.

(** On a client of which every call returns, the restore of a captured
    subnet that has a CIDR block issues, in this order, the creating call,
    the tagging call when a tag is left to replay, and the call that
    enables public IP on launch when the captured flag is enabled, the
    last two on the new subnet; and it records the new identifier under
    the original one. *)
Theorem restore_subnet_success new_vpc_id subnet_data st :
  always_returns ec2 ->
  has_cidr subnet_data = true ->
  exists new_subnet_id,
    ec2 (calls st) (create_subnet_call new_vpc_id subnet_data) = Ret new_subnet_id
    /\ calls (snd (restore_subnet ec2 new_vpc_id subnet_data st))
       = (calls st
          ++ [create_subnet_call new_vpc_id subnet_data]
          ++ tag_calls (Subnet.Tags subnet_data) new_subnet_id
          ++ (if get_default (Subnet.MapPublicIpOnLaunch subnet_data) false
              then [modify_subnet_attribute new_subnet_id true] else []))%list
    /\ created_resources (snd (restore_subnet ec2 new_vpc_id subnet_data st))
       = set_subnets
           (dict_set opt_string_dec (Subnet.SubnetId subnet_data) new_subnet_id
              (cr_subnets (created_resources st)))
           (created_resources st).
Proof.
  intros Hec2 Hcidr. unfold has_cidr in Hcidr.
  unfold restore_subnet, create_subnet_call, apply_tags, tag_calls.
  rewrite Hcidr. cbn [negb].
  unfold modify_created.
  unfold try_ClientError, bind, call, when, log, get_created, put_created, ret.
  proj_simpl.
  destruct (Hec2 (calls st)
              (create_subnet new_vpc_id (get_default (Subnet.CidrBlock subnet_data) "")
                 (if truthy (Subnet.AvailabilityZone subnet_data)
                  then Subnet.AvailabilityZone subnet_data else None)))
    as [new_subnet_id Hnew].
  exists new_subnet_id. rewrite Hnew. split; [reflexivity|].
  run_cases; proj_simpl;
    try match goal with
        | H : ec2 ?h ?c = Raise _ |- _ =>
            destruct (Hec2 h c) as [? ?]; congruence
        end;
    (split; [calls_tac|reflexivity]).
Qed.

(** Whatever the client does, the restore of subnets none of which was
    captured with public IP on launch enabled issues no call that sets the
    attribute. *)
Theorem restore_subnets_public_ip_only_when_enabled subnet_data_list new_vpc_id st :
  (forall subnet_data, In subnet_data subnet_data_list ->
     get_default (Subnet.MapPublicIpOnLaunch subnet_data) false = false) ->
  filter is_modify_subnet_attribute
    (calls (snd (restore_subnets ec2 subnet_data_list new_vpc_id st)))
  = filter is_modify_subnet_attribute (calls st).
Proof.
  intros H. unfold restore_subnets.
  apply (@pr_for_each (same_calls is_modify_subnet_attribute)
           (same_calls_refl _) (@same_calls_trans _)).
  intros subnet_data Hin. unfold restore_subnet, apply_tags.
  rewrite (H subnet_data Hin). cbn [when]. same_calls_tac.
Qed.
End Subnets.

Lemma restore_subnets_create_calls_witness :
  filter is_create_subnet
    (calls (snd (restore_subnets ec2_down [subnet_a; subnet_no_cidr; subnet_public]
                   "vpc-new" empty_state)))
  = [ create_subnet "vpc-new" "10.0.1.0/24" (Some "eu-west-1a");
      create_subnet "vpc-new" "10.0.2.0/24" (Some "eu-west-1b") ].
Proof.
  exact (proj2 (@restore_subnets_create_calls ec2_down
                  [subnet_a; subnet_no_cidr; subnet_public] "vpc-new" empty_state
                  only_ClientError_ec2_down)).
Defined.

Lemma restore_subnet_success_witness :
  exists new_subnet_id,
    ec2_ok [] (create_subnet_call "vpc-new" subnet_public) = Ret new_subnet_id
    /\ calls (snd (restore_subnet ec2_ok "vpc-new" subnet_public empty_state))
       = ([create_subnet "vpc-new" "10.0.2.0/24" (Some "eu-west-1b")]
          ++ tag_calls (Some stack_tags) new_subnet_id
          ++ [modify_subnet_attribute new_subnet_id true])%list
    /\ created_resources (snd (restore_subnet ec2_ok "vpc-new" subnet_public empty_state))
       = set_subnets [(Some "subnet-b", new_subnet_id)] init_created_resources.
Proof.
  exact (@restore_subnet_success ec2_ok "vpc-new" subnet_public empty_state
           always_returns_ec2_ok eq_refl).
Defined.

Lemma restore_subnets_public_ip_only_when_enabled_witness :
  filter is_modify_subnet_attribute
    (calls (snd (restore_subnets ec2_ok [subnet_a] "vpc-new" empty_state)))
  = [].
Proof.
  apply (@restore_subnets_public_ip_only_when_enabled ec2_ok [subnet_a] "vpc-new"
           empty_state).
  intros subnet_data [<-|[]]. reflexivity.
Defined.

(** ** Routes and associations *)

Section NewCalls.
Variable ec2 : list Call -> Call -> outcome string.
Variable good : Call -> Prop.

Lemma new_calls_refl st : new_calls_satisfy good st st.
Proof. intros c H; now left. Qed.

Lemma new_calls_trans a b c :
  new_calls_satisfy good a b -> new_calls_satisfy good b c ->
  new_calls_satisfy good a c.
Proof.
  intros Hab Hbc x Hx. destruct (Hbc x Hx) as [H|H]; [apply Hab, H|now right].
Qed.

Lemma nc_log lvl msg : preserves (new_calls_satisfy good) (log lvl msg).
Proof. intros st c H; now left. Qed.

Lemma nc_modify_created f : preserves (new_calls_satisfy good) (modify_created f).
Proof. intros st c H; now left. Qed.

Lemma nc_put_timestamp ts : preserves (new_calls_satisfy good) (put_timestamp ts).
Proof. intros st c H; now left. Qed.

Lemma nc_lift A (o : outcome A) : preserves (new_calls_satisfy good) (lift o).
Proof. intros st c H; now left. Qed.

Lemma nc_call c : good c -> preserves (new_calls_satisfy good) (call ec2 c).
Proof.
  intros Hc st x Hx. unfold call in Hx; simpl in Hx.
  apply in_app_or in Hx. destruct Hx as [Hx|[<-|[]]]; [now left|now right].
Qed.
End NewCalls.

(** Structural steps of a proof of [preserves (new_calls_satisfy good) m];
    [leaf] proves [good c] for the calls of [m]. *)
Ltac new_calls_tac leaf :=
  preserves_tac ltac:(apply new_calls_refl) ltac:(apply new_calls_trans)
    ltac:(first [ apply nc_log | apply nc_modify_created | apply nc_put_timestamp
                | apply nc_lift
                | apply pr_ret; apply new_calls_refl
                | apply pr_raise; apply new_calls_refl
                | apply pr_get_created; apply new_calls_refl
                | apply pr_get_timestamp; apply new_calls_refl
                | apply nc_call; leaf ]).

Section RoutesAndAssociations.
Variable ec2 : list Call -> Call -> outcome string.

(** When no gateway was created for the network, no captured route is
    recreated: the loop over the routes of a table returns and leaves the
    state as it was, so it issues no call and writes no log record,
    whatever the routes target. *)
Theorem restore_routes_without_gateway new_rt_id igw_id routes st :
  truthy igw_id = false ->
  for_each routes (restore_route ec2 new_rt_id igw_id) st = (Ret tt, st).
Proof.
  intros H. induction routes as [|route routes IH]; [reflexivity|].
  cbn [for_each]. unfold bind.
  assert (restore_route ec2 new_rt_id igw_id route st = (Ret tt, st)) as ->.
  { unfold restore_route. rewrite H, andb_false_r.
    destruct (opt_string_dec _ _); [reflexivity|].
    destruct (negb _); reflexivity. }
  exact IH.
Qed.

Lemma restore_route_through new_rt_id igw_id route :
  preserves (new_calls_satisfy (routes_through igw_id))
    (restore_route ec2 new_rt_id igw_id route).
Proof.
  unfold restore_route.
  destruct (opt_string_dec _ _); [apply pr_ret, new_calls_refl|].
  destruct (negb _); [apply pr_ret, new_calls_refl|].
  destruct (truthy (Route.GatewayId route)
            && str_in "igw-" (get_default (Route.GatewayId route) ""));
    cbn [andb]; [|apply pr_ret, new_calls_refl].
  destruct igw_id as [new_igw_id|]; cbn [truthy]; [|apply pr_ret, new_calls_refl].
  destruct (new_igw_id =? "") eqn:E; cbn [negb]; [apply pr_ret, new_calls_refl|].
  apply String.eqb_neq in E.
  new_calls_tac
    ltac:(right; do 2 eexists; exists new_igw_id;
          split; [reflexivity|split; [exact E|reflexivity]]).
Qed.

(** Whatever the client does, every [create_route] call the restore of
    the route tables issues routes through the gateway created for the
    network: none is issued when there is no such gateway, and none names
    a captured gateway. *)
Theorem restore_route_tables_through_new_gateway rt_data_list new_vpc_id igw_id st :
  new_calls_satisfy (routes_through igw_id) st
    (snd (restore_route_tables ec2 rt_data_list new_vpc_id igw_id st)).
Proof.
  unfold restore_route_tables.
  apply (@pr_for_each (new_calls_satisfy (routes_through igw_id))
           (new_calls_refl _) (@new_calls_trans _)).
  intros rt_data _. unfold restore_route_table.
  apply pr_try; [apply new_calls_trans| |new_calls_tac idtac].
  apply pr_bind; [apply new_calls_trans|apply nc_log|intros _].
  apply pr_bind; [apply new_calls_trans|apply nc_call; now left|intros new_rt_id].
  apply pr_bind; [apply new_calls_trans| |intros _].
  { unfold apply_tags. new_calls_tac ltac:(left; reflexivity). }
  apply pr_bind; [apply new_calls_trans| |intros _].
  { destruct (RouteTable.Routes rt_data); [|apply pr_ret, new_calls_refl].
    apply pr_for_each; [apply new_calls_refl|apply new_calls_trans|].
    intros; apply restore_route_through. }
  apply pr_bind; [apply new_calls_trans| |intros _].
  { destruct (RouteTable.Associations rt_data); [|apply pr_ret, new_calls_refl].
    unfold restore_association. new_calls_tac ltac:(left; reflexivity). }
  new_calls_tac idtac.
Qed.

Section WhileSubnets.
Variable d : dict (option string) string.
Variable good : Call -> Prop.

Lemma while_subnets_refl st : while_subnets d good st st.
Proof. intros H. split; [exact H|apply new_calls_refl]. Qed.

Lemma while_subnets_trans a b c :
  while_subnets d good a b -> while_subnets d good b c -> while_subnets d good a c.
Proof.
  intros Hab Hbc Ha. destruct (Hab Ha) as [Hb Hcalls].
  destruct (Hbc Hb) as [Hc Hcalls']. split; [exact Hc|].
  eapply new_calls_trans; eassumption.
Qed.

Lemma ws_log lvl msg : preserves (while_subnets d good) (log lvl msg).
Proof. intros st H. split; [exact H|apply nc_log]. Qed.

Lemma ws_call c : good c -> preserves (while_subnets d good) (call ec2 c).
Proof. intros Hc st H. split; [exact H|now apply nc_call]. Qed.

Lemma ws_modify_created f :
  (forall cr, cr_subnets (f cr) = cr_subnets cr) ->
  preserves (while_subnets d good) (modify_created f).
Proof.
  intros Hf st H. split; [|apply nc_modify_created].
  unfold modify_created, bind, get_created, put_created; proj_simpl.
  now rewrite Hf.
Qed.
End WhileSubnets.

Ltac while_subnets_tac leaf :=
  preserves_tac ltac:(apply while_subnets_refl) ltac:(apply while_subnets_trans)
    ltac:(first [ apply ws_log
                | apply ws_modify_created; intros; reflexivity
                | apply pr_ret; apply while_subnets_refl
                | apply pr_raise; apply while_subnets_refl
                | apply ws_call; leaf ]).

Lemma bind_get_created A (f : CreatedResources -> M A) st :
  bind get_created f st = f (created_resources st) st.
Proof. reflexivity. Qed.

Lemma restore_association_mapped d new_rt_id assoc :
  preserves (while_subnets d (associates_mapped d))
    (restore_association ec2 new_rt_id assoc).
Proof.
  unfold restore_association.
  destruct (get_default (Assoc.Main assoc) false);
    [apply pr_ret, while_subnets_refl|].
  intros st. rewrite bind_get_created. intros Hd. rewrite Hd.
  destruct (truthy (Assoc.SubnetId assoc)
            && dict_mem opt_string_dec (Assoc.SubnetId assoc) d);
    [|now apply while_subnets_refl].
  destruct (dict_get opt_string_dec (Assoc.SubnetId assoc) d)
    as [new_subnet_id|] eqn:E; [|now apply while_subnets_refl].
  match goal with
  | |- _ /\ new_calls_satisfy _ _ (snd (?m st)) =>
      assert (preserves (while_subnets d (associates_mapped d)) m) as Hp
        by while_subnets_tac
             ltac:(right; do 3 eexists; split; [exact E|reflexivity])
  end.
  exact (Hp st Hd).
Qed.

(** Whatever the client does, the restore of the route tables leaves the
    subnets mapping as it was, and every [associate_route_table] call it
    issues associates a subnet that the subnets mapping gives for an
    original identifier: an association is resolved through the mapping,
    never made with a captured subnet identifier. *)
Theorem restore_route_tables_associations_resolved
    rt_data_list new_vpc_id igw_id st :
  cr_subnets
    (created_resources
       (snd (restore_route_tables ec2 rt_data_list new_vpc_id igw_id st)))
  = cr_subnets (created_resources st)
  /\ new_calls_satisfy
       (associates_mapped (cr_subnets (created_resources st))) st
       (snd (restore_route_tables ec2 rt_data_list new_vpc_id igw_id st)).
Proof.
  set (d := cr_subnets (created_resources st)).
  cut (preserves (while_subnets d (associates_mapped d))
         (restore_route_tables ec2 rt_data_list new_vpc_id igw_id)).
  { intros H. exact (H st eq_refl). }
  unfold restore_route_tables.
  apply pr_for_each; [apply while_subnets_refl|apply while_subnets_trans|].
  intros rt_data _. unfold restore_route_table.
  apply pr_try; [apply while_subnets_trans| |while_subnets_tac idtac].
  apply pr_bind; [apply while_subnets_trans|apply ws_log|intros _].
  apply pr_bind; [apply while_subnets_trans|apply ws_call; now left|intros new_rt_id].
  apply pr_bind; [apply while_subnets_trans| |intros _].
  { unfold apply_tags. while_subnets_tac ltac:(left; reflexivity). }
  apply pr_bind; [apply while_subnets_trans| |intros _].
  { destruct (RouteTable.Routes rt_data); [|apply pr_ret, while_subnets_refl].
    unfold restore_route. while_subnets_tac ltac:(left; reflexivity). }
  apply pr_bind; [apply while_subnets_trans| |intros _].
  { destruct (RouteTable.Associations rt_data);
      [|apply pr_ret, while_subnets_refl].
    apply pr_for_each; [apply while_subnets_refl|apply while_subnets_trans|].
    intros; apply restore_association_mapped. }
  while_subnets_tac idtac.
Qed.

(** An association marked main, or with no subnet, or with a subnet that
    the subnets mapping does not hold (it failed or was skipped), is
    skipped: its restore returns and leaves the state as it was. *)
Theorem restore_association_skipped new_rt_id assoc st :
  get_default (Assoc.Main assoc) false = true
  \/ truthy (Assoc.SubnetId assoc) = false
  \/ dict_mem opt_string_dec (Assoc.SubnetId assoc)
       (cr_subnets (created_resources st)) = false ->
  restore_association ec2 new_rt_id assoc st = (Ret tt, st).
Proof.
  intros H. unfold restore_association.
  destruct (get_default (Assoc.Main assoc) false); [reflexivity|].
  unfold bind, get_created. destruct H as [H|[H|H]]; [discriminate| |];
    rewrite H; [|rewrite andb_false_r]; reflexivity.
Qed.
End RoutesAndAssociations.

Lemma restore_routes_without_gateway_witness :
  for_each [local_route; igw_route; nat_route]
    (restore_route ec2_ok "rtb-new" None) empty_state
  = (Ret tt, empty_state).
Proof.
  exact (@restore_routes_without_gateway ec2_ok "rtb-new" None
           [local_route; igw_route; nat_route] empty_state eq_refl).
Defined.

Lemma restore_association_skipped_witness :
  restore_association ec2_ok "rtb-new"
    {| Assoc.Main := None; Assoc.SubnetId := Some "subnet-z" |} empty_state
  = (Ret tt, empty_state).
Proof.
  apply (@restore_association_skipped ec2_ok "rtb-new"
           {| Assoc.Main := None; Assoc.SubnetId := Some "subnet-z" |} empty_state).
  right. right. reflexivity.
Defined.

(** A run on the table [rtb_public] after [subnet-a] was restored as
    [subnet-new]: one route, through the new gateway, and one association,
    of the new subnet. *)
Example restore_route_table_run :
  calls (snd (restore_route_table ec2_ok "vpc-new" (Some "igw-new") rtb_public
                {| self_timestamp := None;
                   created_resources :=
                     set_subnets [(Some "subnet-a", "subnet-new")]
                       init_created_resources;
                   calls := [];
                   logs := [] |}))
  = [ create_route_table "vpc-new";
      create_route "new-0" "0.0.0.0/0" "igw-new";
      associate_route_table "new-0" "subnet-new" ].
Proof. reflexivity. Qed.

(** ** The rules of a restored group *)

Section GroupRules.
Variable ec2 : list Call -> Call -> outcome string.

Lemma filter_all A (l : list A) : filter (fun _ => true) l = l.
Proof. induction l as [|x l IH]; simpl; congruence. Qed.

(** A loop whose body returns and issues the calls [g x] issues them in
    order. *)
Lemma for_each_all_calls A (body : A -> M unit) (g : A -> list Call) l :
  (forall x st, fst (body x st) = Ret tt
                /\ calls (snd (body x st)) = (calls st ++ g x)%list) ->
  forall st,
    fst (for_each l body st) = Ret tt
    /\ calls (snd (for_each l body st)) = (calls st ++ flat_map g l)%list.
Proof.
  intros Hbody st.
  destruct (@for_each_calls A (fun _ => true) body g l) with (st := st)
    as [Hr Hc].
  - intros x st'. destruct (Hbody x st') as [H1 H2]. split; [exact H1|].
    now rewrite !filter_all.
  - split; [exact Hr|]. now rewrite !filter_all in Hc.
Qed.

Lemma add_ingress_rule_all_calls new_sg_id rule st :
  only_ClientError ec2 ->
  fst (add_ingress_rule ec2 new_sg_id rule st) = Ret tt
  /\ calls (snd (add_ingress_rule ec2 new_sg_id rule st))
     = (calls st
        ++ map (fun clean => authorize_security_group_ingress new_sg_id [clean])
             (filter_map _clean_sg_rule [rule]))%list.
Proof.
  intros Hec2. unfold add_ingress_rule, filter_map. cbn [flat_map].
  destruct (_clean_sg_rule rule) as [clean|]; cbn [map app].
  2:{ split; [reflexivity|]. unfold try_ClientError, ret; proj_simpl.
      now rewrite app_nil_r. }
  unfold try_ClientError, bind, log, call, ret; proj_simpl.
  destruct (ec2 (calls st) (authorize_security_group_ingress new_sg_id [clean]))
    as [r|[code text|text]] eqn:E.
  - split; reflexivity.
  - unfold when. destruct (negb _); unfold log, ret; proj_simpl; split; reflexivity.
  - destruct (Hec2 _ _ _ E).
Qed.

Lemma add_egress_rule_all_calls new_sg_id rule st :
  only_ClientError ec2 ->
  fst (add_egress_rule ec2 new_sg_id rule st) = Ret tt
  /\ calls (snd (add_egress_rule ec2 new_sg_id rule st))
     = (calls st
        ++ map (fun clean => authorize_security_group_egress new_sg_id [clean])
             (filter_map _clean_sg_rule [rule]))%list.
Proof.
  intros Hec2. unfold add_egress_rule, filter_map. cbn [flat_map].
  destruct (_clean_sg_rule rule) as [clean|]; cbn [map app].
  2:{ split; [reflexivity|]. unfold try_ClientError, ret; proj_simpl.
      now rewrite app_nil_r. }
  unfold try_ClientError, bind, log, call, ret; proj_simpl.
  destruct (ec2 (calls st) (authorize_security_group_egress new_sg_id [clean]))
    as [r|[code text|text]] eqn:E.
  - split; reflexivity.
  - unfold when. destruct (negb _); unfold log, ret; proj_simpl; split; reflexivity.
  - destruct (Hec2 _ _ _ E).
Qed.

Lemma for_each_ingress_run new_sg_id rules st :
  only_ClientError ec2 ->
  exists st1,
    for_each rules (add_ingress_rule ec2 new_sg_id) st = (Ret tt, st1)
    /\ calls st1
       = (calls st
          ++ map (fun clean => authorize_security_group_ingress new_sg_id [clean])
               (filter_map _clean_sg_rule rules))%list.
Proof.
  intros Hec2.
  rewrite <- (flat_map_filter_map _clean_sg_rule
                (fun clean => authorize_security_group_ingress new_sg_id [clean])).
  destruct (@for_each_all_calls _ (add_ingress_rule ec2 new_sg_id)
              (fun rule => map (fun clean =>
                                  authorize_security_group_ingress new_sg_id [clean])
                             (filter_map _clean_sg_rule [rule])) rules
              (fun x s => add_ingress_rule_all_calls new_sg_id x s Hec2) st)
    as [Hr Hc].
  destruct (for_each rules (add_ingress_rule ec2 new_sg_id) st) as [o s].
  cbn [fst snd] in *. subst o. eauto.
Qed.

Lemma for_each_egress_run new_sg_id rules st :
  only_ClientError ec2 ->
  exists st1,
    for_each rules (add_egress_rule ec2 new_sg_id) st = (Ret tt, st1)
    /\ calls st1
       = (calls st
          ++ map (fun clean => authorize_security_group_egress new_sg_id [clean])
               (filter_map _clean_sg_rule rules))%list.
Proof.
  intros Hec2.
  rewrite <- (flat_map_filter_map _clean_sg_rule
                (fun clean => authorize_security_group_egress new_sg_id [clean])).
  destruct (@for_each_all_calls _ (add_egress_rule ec2 new_sg_id)
              (fun rule => map (fun clean =>
                                  authorize_security_group_egress new_sg_id [clean])
                             (filter_map _clean_sg_rule [rule])) rules
              (fun x s => add_egress_rule_all_calls new_sg_id x s Hec2) st)
    as [Hr Hc].
  destruct (for_each rules (add_egress_rule ec2 new_sg_id) st) as [o s].
  cbn [fst snd] in *. subst o. eauto.
Qed.

Lemma add_group_rules_run sg_data new_sg_id st :
  only_ClientError ec2 ->
  Sg.GroupName sg_data <> Some "default" ->
  dict_get opt_string_dec (Sg.GroupId sg_data)
    (cr_security_groups (created_resources st)) = Some new_sg_id ->
  exists st',
    add_group_rules ec2 sg_data st = (Ret tt, st')
    /\ calls st' = (calls st ++ group_rule_calls sg_data new_sg_id)%list.
Proof.
  intros Hec2 Hname Hget. unfold add_group_rules, group_rule_calls.
  rewrite bind_get_created. unfold dict_mem. rewrite Hget.
  destruct (opt_string_dec (Sg.GroupName sg_data) (Some "default")) as [E|_];
    [contradiction|].
  cbn [orb negb].
  assert (exists st1,
            (match Sg.IpPermissions sg_data with
             | Some rules => for_each rules (add_ingress_rule ec2 new_sg_id)
             | None => ret tt
             end) st = (Ret tt, st1)
            /\ calls st1
               = (calls st
                  ++ map (fun clean =>
                            authorize_security_group_ingress new_sg_id [clean])
                       (filter_map _clean_sg_rule
                          (get_default (Sg.IpPermissions sg_data) [])))%list)
    as (st1 & Hrun & Hc).
  { destruct (Sg.IpPermissions sg_data) as [rules|]; cbn [get_default].
    - now apply for_each_ingress_run.
    - exists st. split; [reflexivity|]. now rewrite app_nil_r. }
  unfold bind at 1. rewrite Hrun.
  destruct (Sg.IpPermissionsEgress sg_data) as [rules|].
  - unfold bind at 1, try_ClientError at 1, bind at 1, call at 1, ret at 1.
    proj_simpl.
    destruct (ec2 (calls st1) _) as [r|[code text|text]] eqn:E;
      try (destruct (Hec2 _ _ _ E)); unfold ret; proj_simpl;
      match goal with |- context [for_each rules ?b ?s] =>
        destruct (@for_each_egress_run new_sg_id rules s Hec2) as (st2 & Hrun2 & Hc2)
      end; rewrite Hrun2; exists st2; (split; [reflexivity|]);
      rewrite Hc2; proj_simpl; rewrite Hc; now rewrite <- !app_assoc.
  - exists st1. split; [reflexivity|]. rewrite Hc. now rewrite app_nil_r.
Qed.

(** On a client that raises nothing but [ClientError], the second pass on
    a captured group that is not the default group and that the groups
    mapping holds returns and issues, on the new group the mapping gives:
    an authorize call for each ingress rule that has a protocol; then, when
    the group was captured with egress rules, even none, the call that
    revokes the default egress rule, followed by an authorize call for each
    egress rule that has a protocol. No call fails the others. *)
Theorem add_group_rules_calls sg_data new_sg_id st :
  only_ClientError ec2 ->
  Sg.GroupName sg_data <> Some "default" ->
  dict_get opt_string_dec (Sg.GroupId sg_data)
    (cr_security_groups (created_resources st)) = Some new_sg_id ->
  fst (add_group_rules ec2 sg_data st) = Ret tt
  /\ calls (snd (add_group_rules ec2 sg_data st))
     = (calls st ++ group_rule_calls sg_data new_sg_id)%list.
Proof.
  intros Hec2 Hname Hget.
  destruct (add_group_rules_run sg_data st Hec2 Hname Hget) as (st' & -> & Hc).
  split; [reflexivity|exact Hc].
Qed.

(** The second pass skips the default group and every group that the
    groups mapping does not hold (its creation failed): it returns and
    leaves the state as it was, whatever rules the group has. *)
Theorem add_group_rules_skipped sg_data st :
  Sg.GroupName sg_data = Some "default"
  \/ dict_mem opt_string_dec (Sg.GroupId sg_data)
       (cr_security_groups (created_resources st)) = false ->
  add_group_rules ec2 sg_data st = (Ret tt, st).
Proof.
  intros H. unfold add_group_rules. rewrite bind_get_created.
  destruct H as [H|H].
  - destruct (opt_string_dec (Sg.GroupName sg_data) (Some "default"));
      [reflexivity|contradiction].
  - rewrite H. cbn [negb]. rewrite orb_true_r. reflexivity.
Qed.
End GroupRules.

Lemma add_group_rules_calls_witness :
  calls (snd (add_group_rules ec2_down db_group
                {| self_timestamp := None;
                   created_resources :=
                     set_security_groups [(Some "sg-db", "sg-new")]
                       init_created_resources;
                   calls := [];
                   logs := [] |}))
  = [ authorize_security_group_ingress "sg-new" [rule_mixed_ranges_clean];
      revoke_security_group_egress "sg-new" [default_egress_rule];
      authorize_security_group_egress "sg-new"
        [ {| CleanRule.IpProtocol := "udp";
             CleanRule.FromPort := Some 53%Z;
             CleanRule.ToPort := Some 53%Z;
             CleanRule.IpRanges := Some [];
             CleanRule.Ipv6Ranges := None |} ] ].
Proof.
  refine (proj2 (@add_group_rules_calls ec2_down db_group "sg-new"
                   {| self_timestamp := None;
                      created_resources :=
                        set_security_groups [(Some "sg-db", "sg-new")]
                          init_created_resources;
                      calls := [];
                      logs := [] |}
                   only_ClientError_ec2_down _ eq_refl)).
  discriminate.
Defined.

Lemma add_group_rules_skipped_witness :
  add_group_rules ec2_ok web_group empty_state = (Ret tt, empty_state).
Proof.
  apply (@add_group_rules_skipped ec2_ok web_group empty_state).
  right. reflexivity.
Defined.


(** ** The restore as a whole *)

Section WholeRestore.
Variable ec2 : list Call -> Call -> outcome string.
Variable s3_list_objects_v2 : string -> string -> outcome (option (list string)).
Variable s3_get_object : string -> string -> outcome string.
Variable json_loads : string -> outcome (option Backup.t).
Variable yaml_safe_load : string -> outcome (option Backup.t).
Variable bucket : string.
Variable target_vpc_id : option string.
Variable region : option string.
Variable account_id : string.
Variable current_region : option string.

Local Abbreviation load :=
  (load_backup_data s3_list_objects_v2 s3_get_object json_loads yaml_safe_load
     bucket region account_id current_region).
Local Abbreviation restore :=
  (restore_vpc_from_backup ec2 s3_list_objects_v2 s3_get_object json_loads
     yaml_safe_load bucket target_vpc_id region account_id current_region).

Lemma quiet_refl st : quiet st st.
Proof. split; reflexivity. Qed.

Lemma quiet_trans a b c : quiet a b -> quiet b c -> quiet a c.
Proof. unfold quiet. intros [H1 H2] [H3 H4]. split; congruence. Qed.

Ltac quiet_tac :=
  preserves_tac ltac:(apply quiet_refl) ltac:(apply quiet_trans)
    ltac:(first [ apply pr_ret; apply quiet_refl
                | apply pr_raise; apply quiet_refl
                | apply pr_get_timestamp; apply quiet_refl
                | solve [intros ?; split; reflexivity] ]).

Lemma load_backup_data_quiet : preserves quiet load.
Proof.
  unfold load_backup_data, find_latest_backup, load_from. quiet_tac.
Qed.

Lemma bind_run A B (m : M A) (f : A -> M B) st o st1 :
  m st = (o, st1) ->
  bind m f st = match o with
                | Ret a => f a st1
                | Raise e => (Raise e, st1)
                end.
Proof. intros H. unfold bind. now rewrite H. Qed.

Lemma log_then_ret_quiet A lvl msg (a : A) st : quiet st (snd ((log lvl msg ;; ret a) st)).
Proof. split; reflexivity. Qed.

(** Whatever the collaborators do, a restore that returns failure has
    issued no call on the provisioning API and recorded nothing: failure is
    returned only before the first network is touched. *)
Theorem restore_failure_is_quiet st :
  fst (restore st) = Ret false -> quiet st (snd (restore st)).
Proof.
  unfold restore_vpc_from_backup.
  pose proof (load_backup_data_quiet st) as Hq.
  destruct (load st) as [[[backup_data|]|e] st1] eqn:Hload; cbn [snd] in Hq;
    rewrite (@bind_run _ _ _ _ _ _ _ Hload).
  - destruct (Backup.is_empty backup_data);
      [intros _; eapply quiet_trans; [exact Hq|apply log_then_ret_quiet]|].
    destruct (negb (nonempty _));
      [intros _; eapply quiet_trans; [exact Hq|apply log_then_ret_quiet]|].
    destruct (truthy target_vpc_id && _);
      [intros _; eapply quiet_trans; [exact Hq|apply log_then_ret_quiet]|].
    unfold bind. destruct (for_each _ _ st1) as [[[]|e] st2]; discriminate.
  - intros _. eapply quiet_trans; [exact Hq|apply log_then_ret_quiet].
  - discriminate.
Qed.




Local Abbreviation load_at prefix :=
  (load_from s3_get_object json_loads yaml_safe_load bucket prefix).

(** When reading the JSON document of a location fails with a
    [ClientError], the load falls back to the YAML document only if the
    error code is [NoSuchKey]: it then returns what the YAML document
    decodes to, or nothing when reading or decoding that fails with a
    [ClientError] too. With any other error code it returns nothing and the YAML
    document is not consulted. *)
Theorem load_from_fallback prefix st code text :
  s3_get_object bucket (prefix ++ "vpc_config.json") = Raise (ClientError code text) ->
  fst (load_from s3_get_object json_loads yaml_safe_load bucket prefix st)
  = if code =? "NoSuchKey" then
      match s3_get_object bucket (prefix ++ "vpc_config.yaml") with
      | Ret body =>
          match yaml_safe_load body with
          | Raise (ClientError _ _) => Ret None
          | decoded => decoded
          end
      | Raise (ClientError _ _) => Ret None
      | Raise (OtherError e) => Raise (OtherError e)
      end
    else Ret None.
Proof.
  intros Hjson.
  unfold load_from, try_ClientError, bind, lift, log, get_timestamp, ret.
  rewrite Hjson. destruct (code =? "NoSuchKey"); [|reflexivity].
  destruct (s3_get_object bucket (prefix ++ "vpc_config.yaml")) as [body|[c t|t]];
    [|reflexivity|reflexivity].
  destruct (yaml_safe_load body) as [data|[c t|t]]; try reflexivity.
Qed.

(** Without a timestamp, the load reads the location that sorts last
    among the listed ones and sets the timestamp to the last but one
    component of that location. *)
Theorem load_backup_data_reads_latest st l p ts :
  truthy (self_timestamp st) = false ->
  s3_list_objects_v2 bucket
    (backups_prefix region account_id current_region) = Ret (Some l) ->
  index_m1 (sorted l) = Some p ->
  index_m2 (split "/" p) = Some ts ->
  load st
  = load_at p {| self_timestamp := Some ts;
                 created_resources := created_resources st;
                 calls := calls st;
                 logs := logs st ++ [(INFO, "Found latest backup from " ++ ts)] |}.
Proof.
  intros Hts Hlist Hlast Hsplit.
  assert (l <> []) as Hl by (intros ->; discriminate).
  assert (truthy (Some p) = true) as Hp.
  { destruct p as [|c p]; [discriminate|reflexivity]. }
  unfold load_backup_data, get_timestamp.
  unfold bind at 1. rewrite Hts. cbn [negb].
  unfold find_latest_backup, try_ClientError, lift.
  unfold bind at 1. unfold bind at 1. rewrite Hlist.
  destruct l as [|x l]; [contradiction|].
  rewrite Hlast, Hsplit.
  unfold bind, put_timestamp, log, ret. cbn [fst snd]. rewrite Hp. reflexivity.
Qed.

Section OtherCalls.
Variable good : Call -> Prop.
Hypothesis good_other : forall c, is_create_vpc c = false -> good c.

Ltac other_tac := new_calls_tac ltac:(apply good_other; reflexivity).

Lemma restore_internet_gateway_other igw_data new_vpc_id :
  preserves (new_calls_satisfy good)
    (restore_internet_gateway ec2 igw_data new_vpc_id).
Proof. unfold restore_internet_gateway, apply_tags. other_tac. Qed.

Lemma restore_subnets_other l new_vpc_id :
  preserves (new_calls_satisfy good) (restore_subnets ec2 l new_vpc_id).
Proof. unfold restore_subnets, restore_subnet, apply_tags. other_tac. Qed.

Lemma restore_route_tables_other l new_vpc_id igw_id :
  preserves (new_calls_satisfy good) (restore_route_tables ec2 l new_vpc_id igw_id).
Proof.
  unfold restore_route_tables, restore_route_table, restore_route,
    restore_association, apply_tags.
  other_tac.
Qed.

Lemma restore_security_groups_other l new_vpc_id :
  preserves (new_calls_satisfy good) (restore_security_groups ec2 l new_vpc_id).
Proof.
  unfold restore_security_groups, create_group, add_group_rules,
    add_ingress_rule, add_egress_rule, apply_tags.
  other_tac.
Qed.
End OtherCalls.

Lemma restore_network_creates_own vpcs vpc_id :
  preserves (new_calls_satisfy (creates_network_of vpcs vpc_id))
    (restore_network ec2 vpcs vpc_id).
Proof.
  assert (forall c, is_create_vpc c = false -> creates_network_of vpcs vpc_id c)
    as Hother by (intros c H; now left).
  unfold restore_network.
  destruct (dict_get string_dec vpc_id vpcs) as [vpc_details|] eqn:E;
    [|apply pr_raise, new_calls_refl].
  apply pr_bind; [apply new_calls_trans|apply nc_log|intros _].
  apply pr_bind; [apply new_calls_trans| |intros new_vpc_id].
  { unfold restore_vpc.
    new_calls_tac
      ltac:(first [ left; reflexivity
                  | right; exists vpc_details; split; [exact E|reflexivity] ]). }
  destruct (negb (truthy new_vpc_id)); [apply nc_log|].
  apply pr_bind; [apply new_calls_trans| |intros new_igw_id].
  { destruct (Vpc.internet_gateways vpc_details) as [[|igw_data l]|];
      try (apply pr_ret, new_calls_refl).
    destruct (negb (Igw.is_empty igw_data)); [|apply pr_ret, new_calls_refl].
    now apply restore_internet_gateway_other. }
  apply pr_bind; [apply new_calls_trans|apply nc_log|intros _].
  apply pr_bind; [apply new_calls_trans|now apply restore_subnets_other|intros _].
  apply pr_bind; [apply new_calls_trans|apply nc_log|intros _].
  apply pr_bind;
    [apply new_calls_trans|now apply restore_route_tables_other|intros _].
  apply pr_bind; [apply new_calls_trans|apply nc_log|intros _].
  apply pr_bind;
    [apply new_calls_trans|now apply restore_security_groups_other|intros _].
  unfold report_mapping. new_calls_tac idtac.
Qed.

(** When a network is requested and the snapshot, once loaded, holds it,
    every [create_vpc] call of the restore creates a network with the CIDR
    block of the requested network: no other network of the snapshot is
    created. *)
Theorem restore_only_requested_network backup_data st :
  fst (load st) = Ret (Some backup_data) ->
  truthy target_vpc_id = true ->
  new_calls_satisfy
    (creates_network_of (get_default (Backup.vpcs backup_data) [])
       (get_default target_vpc_id ""))
    (snd (load st)) (snd (restore st)).
Proof.
  intros Hfst Htarget. unfold restore_vpc_from_backup.
  destruct (load st) as [o st1] eqn:Hload. cbn [fst snd] in *. subst o.
  rewrite (@bind_run _ _ _ _ _ _ _ Hload). unfold vpc_ids_of. rewrite Htarget.
  assert (forall A lvl msg (a : A) s,
            new_calls_satisfy
              (creates_network_of (get_default (Backup.vpcs backup_data) [])
                 (get_default target_vpc_id ""))
              s (snd ((log lvl msg ;; ret a) s))) as Hlog.
  { intros A lvl msg a s c H. now left. }
  destruct (Backup.is_empty backup_data); [apply Hlog|].
  destruct (negb (nonempty _)); [apply Hlog|].
  destruct (true && _); [apply Hlog|].
  cbn [for_each].
  match goal with |- new_calls_satisfy ?g st1 (snd (?m st1)) =>
    assert (preserves (new_calls_satisfy g) m) as Hp
  end.
  { apply pr_bind; [apply new_calls_trans| |intros _; apply pr_ret, new_calls_refl].
    apply pr_bind; [apply new_calls_trans| |intros _; apply pr_ret, new_calls_refl].
    apply restore_network_creates_own. }
  apply Hp.
Qed.
End WholeRestore.

Lemma restore_failure_is_quiet_witness :
  quiet
    {| self_timestamp := Some "2024-01-01-00-00-00";
       created_resources := init_created_resources;
       calls := [];
       logs := [] |}
    (snd (restore_vpc_from_backup ec2_ok s3_no_listing s3_get_any
            (decode_as (snapshot_of [("vpc-a", vpc_a)]))
            (decode_as (snapshot_of [("vpc-a", vpc_a)]))
            "backups" (Some "vpc-b") None "123456789012" (Some "eu-west-1")
            {| self_timestamp := Some "2024-01-01-00-00-00";
               created_resources := init_created_resources;
               calls := [];
               logs := [] |})).
Proof.
  refine (@restore_failure_is_quiet ec2_ok s3_no_listing s3_get_any
            (decode_as (snapshot_of [("vpc-a", vpc_a)]))
            (decode_as (snapshot_of [("vpc-a", vpc_a)]))
            "backups" (Some "vpc-b") None "123456789012" (Some "eu-west-1")
            {| self_timestamp := Some "2024-01-01-00-00-00";
               created_resources := init_created_resources;
               calls := [];
               logs := [] |} _).
  vm_compute. reflexivity.
Defined.

Unset Implicit Arguments.
Lemma restore_only_requested_network_witness :
  new_calls_satisfy
    (creates_network_of (get_default (Backup.vpcs (snapshot_of two_vpcs)) [])
       (get_default (Some "vpc-b") ""))
    (snd (load_backup_data s3_no_listing s3_get_any
            (decode_as (snapshot_of two_vpcs)) (decode_as (snapshot_of two_vpcs))
            "backups" None "123456789012" (Some "eu-west-1")
            (init_state restore_args_vpc_b
               {| sess_account_id := "123456789012";
                  sess_region := Some "eu-west-1" |})))
    (snd (restore_vpc_from_backup ec2_ok s3_no_listing s3_get_any
            (decode_as (snapshot_of two_vpcs)) (decode_as (snapshot_of two_vpcs))
            "backups" (Some "vpc-b") None "123456789012" (Some "eu-west-1")
            (init_state restore_args_vpc_b
               {| sess_account_id := "123456789012";
                  sess_region := Some "eu-west-1" |}))).
Proof.
  apply (@restore_only_requested_network ec2_ok s3_no_listing s3_get_any
           (decode_as (snapshot_of two_vpcs)) (decode_as (snapshot_of two_vpcs))
           "backups" (Some "vpc-b") None "123456789012" (Some "eu-west-1")
           (snapshot_of two_vpcs)
           (init_state restore_args_vpc_b
              {| sess_account_id := "123456789012";
                 sess_region := Some "eu-west-1" |})).
  - vm_compute. reflexivity.
  - reflexivity.
Defined.
Set Implicit Arguments.

(** A run with the network [vpc-b] requested: the one network created has
    its CIDR block. *)
Example restore_requested_network_run :
  filter is_create_vpc
    (calls (snd (run_restore ec2_ok s3_no_listing s3_get_any
                   (decode_as (snapshot_of two_vpcs))
                   (decode_as (snapshot_of two_vpcs)) restore_args_vpc_b
                   {| sess_account_id := "123456789012";
                      sess_region := Some "eu-west-1" |})))
  = [create_vpc "10.1.0.0/16"].
Proof. vm_compute. reflexivity. Qed.

Lemma load_from_fallback_witness :
  fst (load_from s3_yaml_only (decode_as (snapshot_of []))
         (decode_as (snapshot_of two_vpcs)) "backups" "p/" empty_state)
  = Ret (Some (snapshot_of two_vpcs)).
Proof.
  exact (@load_from_fallback s3_yaml_only (decode_as (snapshot_of []))
           (decode_as (snapshot_of two_vpcs)) "backups" "p/" empty_state
           "NoSuchKey"
           "An error occurred (NoSuchKey) when calling the GetObject operation"
           eq_refl).
Defined.

(** On a store that refuses access the load returns nothing. *)
Example load_from_access_denied :
  fst (load_from s3_access_denied (decode_as (snapshot_of two_vpcs))
         (decode_as (snapshot_of two_vpcs)) "backups" "p/" empty_state)
  = Ret None.
Proof. reflexivity. Qed.
Lemma load_backup_data_reads_latest_witness :
  load_backup_data s3_two_snapshots s3_get_any
    (decode_as (snapshot_of two_vpcs)) (decode_as (snapshot_of two_vpcs))
    "backups" None "123456789012" (Some "eu-west-1") empty_state
  = load_from s3_get_any
      (decode_as (snapshot_of two_vpcs)) (decode_as (snapshot_of two_vpcs))
      "backups" "vpc-backups/123456789012/eu-west-1/2024-06-01-00-00-00/"
      {| self_timestamp := Some "2024-06-01-00-00-00";
         created_resources := created_resources empty_state;
         calls := calls empty_state;
         logs := logs empty_state
                 ++ [(INFO, "Found latest backup from " ++ "2024-06-01-00-00-00")] |}.
Proof.
  exact (@load_backup_data_reads_latest s3_two_snapshots s3_get_any
           (decode_as (snapshot_of two_vpcs)) (decode_as (snapshot_of two_vpcs))
           "backups" None "123456789012" (Some "eu-west-1") empty_state
           ["vpc-backups/123456789012/eu-west-1/2024-01-01-00-00-00/";
            "vpc-backups/123456789012/eu-west-1/2024-06-01-00-00-00/"]
           "vpc-backups/123456789012/eu-west-1/2024-06-01-00-00-00/"
           "2024-06-01-00-00-00" eq_refl eq_refl eq_refl eq_refl).
Defined.


(** ** The gateway of a network *)

Section Gateway.
Variable ec2 : list Call -> Call -> outcome string.

Ltac run_cases :=
  repeat (proj_simpl;
          match goal with
          | |- context [match ec2 ?h ?c with _ => _ end] =>
              destruct (ec2 h c) as [?|[? ?|?]] eqn:?
          | |- context [if ?b then _ else _] => destruct b eqn:?
          | |- context [match ?o with Some _ => _ | None => _ end] =>
              destruct o eqn:?
          end).

(** The restore of a captured gateway returns a new identifier only after
    it has issued, in this order, the creating call, the tagging call when
    a tag is left to replay and the attaching call, and it then records
    the captured gateway under the new identifier. When it returns nothing
    or raises, it has recorded nothing, and what it raises is no
    [ClientError]. *)
Theorem restore_internet_gateway_outcome igw_data new_vpc_id st :
  Igw.is_empty igw_data = false ->
  match fst (restore_internet_gateway ec2 igw_data new_vpc_id st) with
  | Ret (Some new_igw_id) =>
      calls (snd (restore_internet_gateway ec2 igw_data new_vpc_id st))
      = (calls st
         ++ [create_internet_gateway]
         ++ tag_calls (Igw.Tags igw_data) new_igw_id
         ++ [attach_internet_gateway new_igw_id new_vpc_id])%list
      /\ created_resources (snd (restore_internet_gateway ec2 igw_data new_vpc_id st))
         = set_internet_gateways
             (dict_set string_dec new_igw_id igw_data
                (cr_internet_gateways (created_resources st)))
             (created_resources st)
  | Ret None =>
      created_resources (snd (restore_internet_gateway ec2 igw_data new_vpc_id st))
      = created_resources st
  | Raise e =>
      is_OtherError e
      /\ created_resources (snd (restore_internet_gateway ec2 igw_data new_vpc_id st))
         = created_resources st
  end.
Proof.
  intros Hdata. unfold restore_internet_gateway, apply_tags, tag_calls.
  rewrite Hdata. unfold modify_created.
  unfold try_ClientError, bind, call, when, log, get_created, put_created, ret.
  run_cases; proj_simpl;
    first [ split; [calls_tac|reflexivity]
          | split; [exact I|reflexivity]
          | reflexivity ].
Qed.

Lemma restore_internet_gateway_creates_one igw_data new_vpc_id st :
  Igw.is_empty igw_data = false ->
  filter is_create_internet_gateway
    (calls (snd (restore_internet_gateway ec2 igw_data new_vpc_id st)))
  = (filter is_create_internet_gateway (calls st) ++ [create_internet_gateway])%list.
Proof.
  intros Hdata. unfold restore_internet_gateway. rewrite Hdata.
  rewrite filter_calls_try by same_calls_tac.
  rewrite (@bind_returns _ _ (log INFO "Creating new Internet Gateway") _ st tt eq_refl).
  rewrite filter_calls_bind_after.
  - now rewrite filter_calls_call.
  - intros new_igw_id. unfold apply_tags. same_calls_tac.
Qed.

Lemma restore_vpc_no_gateway vpc_data :
  preserves (same_calls is_create_internet_gateway) (restore_vpc ec2 vpc_data).
Proof. unfold restore_vpc, apply_tags. same_calls_tac. Qed.

Lemma restore_subnets_no_gateway l new_vpc_id :
  preserves (same_calls is_create_internet_gateway) (restore_subnets ec2 l new_vpc_id).
Proof. unfold restore_subnets, restore_subnet, apply_tags. same_calls_tac. Qed.

Lemma restore_route_tables_no_gateway l new_vpc_id igw_id :
  preserves (same_calls is_create_internet_gateway)
    (restore_route_tables ec2 l new_vpc_id igw_id).
Proof.
  unfold restore_route_tables, restore_route_table, restore_route,
    restore_association, apply_tags.
  same_calls_tac.
Qed.

Lemma restore_security_groups_no_gateway l new_vpc_id :
  preserves (same_calls is_create_internet_gateway)
    (restore_security_groups ec2 l new_vpc_id).
Proof.
  unfold restore_security_groups, create_group, add_group_rules,
    add_ingress_rule, add_egress_rule, apply_tags.
  same_calls_tac.
Qed.

Lemma report_mapping_no_call p kind d : preserves (same_calls p) (report_mapping kind d).
Proof. unfold report_mapping. same_calls_tac. Qed.

(** Whatever the client does, the restore of one network issues at most
    one call that creates a gateway, and issues it only when the snapshot of
    the network holds a first gateway that is not empty: no further
    captured gateway is ever restored. *)
Theorem restore_network_one_gateway vpcs vpc_id st :
  exists l,
    filter is_create_internet_gateway (calls (snd (restore_network ec2 vpcs vpc_id st)))
    = (filter is_create_internet_gateway (calls st) ++ l)%list
    /\ (l = []
        \/ l = [create_internet_gateway]
           /\ exists vpc_details,
                dict_get string_dec vpc_id vpcs = Some vpc_details
                /\ has_gateway vpc_details = true).
Proof.
  unfold restore_network.
  destruct (dict_get string_dec vpc_id vpcs) as [vpc_details|] eqn:E.
  2:{ exists []. rewrite app_nil_r. split; [reflexivity|now left]. }
  rewrite (@bind_returns _ _ (log INFO ("Restoring VPC " ++ vpc_id ++ "...")) _ st tt
             eq_refl).
  set (st0 := snd (log INFO ("Restoring VPC " ++ vpc_id ++ "...") st)).
  assert (filter is_create_internet_gateway (calls st0)
          = filter is_create_internet_gateway (calls st)) as H0 by reflexivity.
  pose proof (restore_vpc_no_gateway vpc_details st0) as H1.
  unfold same_calls in H1. rewrite H0 in H1. clear H0.
  unfold bind at 1.
  destruct (restore_vpc ec2 vpc_details st0) as [[new_vpc_id|e] st1];
    cbn [fst snd] in *.
  2:{ exists []. rewrite app_nil_r. split; [exact H1|now left]. }
  destruct (negb (truthy new_vpc_id)).
  { exists []. rewrite app_nil_r. split; [exact H1|now left]. }
  assert (forall new_igw_id,
            preserves (same_calls is_create_internet_gateway)
              (log INFO "Restoring subnets..." ;;
               restore_subnets ec2 (get_default (Vpc.subnets vpc_details) [])
                 (get_default new_vpc_id "") ;;
               log INFO "Restoring route tables..." ;;
               restore_route_tables ec2 (get_default (Vpc.route_tables vpc_details) [])
                 (get_default new_vpc_id "") new_igw_id ;;
               log INFO "Restoring security groups..." ;;
               restore_security_groups ec2
                 (get_default (Vpc.security_groups vpc_details) [])
                 (get_default new_vpc_id "") ;;
               log INFO ("VPC " ++ vpc_id ++ " has been restored to "
                         ++ get_default new_vpc_id "") ;;
               log INFO "Resource mappings (original ID -> new ID):" ;;
               log INFO ("  VPC: " ++ vpc_id ++ " -> " ++ get_default new_vpc_id "") ;;
               cr <- get_created ;;
               report_mapping "Subnet" (cr_subnets cr) ;;
               cr <- get_created ;;
               report_mapping "Route Table" (cr_route_tables cr) ;;
               cr <- get_created ;;
               report_mapping "Security Group" (cr_security_groups cr))) as Hrest.
  { intros new_igw_id.
    repeat first
      [ apply restore_subnets_no_gateway
      | apply restore_route_tables_no_gateway
      | apply restore_security_groups_no_gateway
      | apply report_mapping_no_call
      | apply sc_log
      | apply pr_get_created; apply same_calls_refl
      | apply pr_bind; [apply same_calls_trans| |intros ?] ]. }
  rewrite filter_calls_bind_after by exact Hrest.
  destruct (Vpc.internet_gateways vpc_details) as [[|igw_data l]|] eqn:Higw;
    try (exists []; rewrite app_nil_r; split; [exact H1|now left]).
  destruct (Igw.is_empty igw_data) eqn:Hdata; cbn [negb].
  { exists []. rewrite app_nil_r. split; [exact H1|now left]. }
  exists [create_internet_gateway]. split.
  - rewrite restore_internet_gateway_creates_one by exact Hdata. now rewrite H1.
  - right. split; [reflexivity|]. exists vpc_details. split; [reflexivity|].
    unfold has_gateway. now rewrite Higw, Hdata.
Qed.

Lemma restore_route_without_gateway new_rt_id route :
  preserves (same_calls is_create_route) (restore_route ec2 new_rt_id None route).
Proof.
  unfold restore_route. cbn [truthy]. rewrite andb_false_r. same_calls_tac.
Qed.

Lemma restore_route_tables_without_gateway l new_vpc_id :
  preserves (same_calls is_create_route) (restore_route_tables ec2 l new_vpc_id None).
Proof.
  unfold restore_route_tables, restore_route_table, restore_association, apply_tags.
  repeat first
    [ apply restore_route_without_gateway
    | apply same_calls_refl
    | apply same_calls_trans
    | progress intros
    | apply pr_bind
    | apply pr_try
    | apply pr_when
    | apply pr_for_each
    | apply sc_call; reflexivity
    | solve [auto with calls]
    | match goal with
      | |- preserves _ (if ?b then _ else _) => destruct b
      | |- preserves _ (match ?o with Some _ => _ | None => _ end) => destruct o
      end ].
Qed.

(** Whatever the client does, the restore of a network whose snapshot
    holds no gateway the restore uses issues no call that creates a route,
    whatever routes its route tables were captured with. *)
Theorem restore_network_without_gateway vpcs vpc_id vpc_details st :
  dict_get string_dec vpc_id vpcs = Some vpc_details ->
  has_gateway vpc_details = false ->
  filter is_create_route (calls (snd (restore_network ec2 vpcs vpc_id st)))
  = filter is_create_route (calls st).
Proof.
  intros E Hgw. unfold restore_network. rewrite E.
  assert (preserves (same_calls is_create_route)
            (match Vpc.internet_gateways vpc_details with
             | Some (igw_data :: _) =>
                 if negb (Igw.is_empty igw_data)
                 then restore_internet_gateway ec2 igw_data
                        (get_default (@None string) "")
                 else ret None
             | _ => ret None
             end)) as _ by
    (destruct (Vpc.internet_gateways vpc_details) as [[|? ?]|];
     try (apply pr_ret, same_calls_refl);
     destruct (negb _); [|apply pr_ret, same_calls_refl];
     unfold restore_internet_gateway, apply_tags; same_calls_tac).
  apply (@pr_bind (same_calls is_create_route) (@same_calls_trans _));
    [apply sc_log|intros _].
  apply (@pr_bind (same_calls is_create_route) (@same_calls_trans _));
    [unfold restore_vpc, apply_tags; same_calls_tac|intros new_vpc_id].
  destruct (negb (truthy new_vpc_id)); [apply sc_log|].
  unfold has_gateway in Hgw.
  assert (match Vpc.internet_gateways vpc_details with
          | Some (igw_data :: _) =>
              if negb (Igw.is_empty igw_data)
              then restore_internet_gateway ec2 igw_data (get_default new_vpc_id "")
              else ret None
          | _ => ret None
          end = ret None) as ->.
  { destruct (Vpc.internet_gateways vpc_details) as [[|igw_data l]|]; try reflexivity.
    now rewrite Hgw. }
  unfold bind at 1. unfold ret at 1.
  repeat first
    [ apply restore_route_tables_without_gateway
    | apply report_mapping_no_call
    | apply sc_log
    | apply pr_get_created; apply same_calls_refl
    | apply pr_bind; [apply same_calls_trans| |intros ?]
    | unfold restore_subnets, restore_subnet, restore_security_groups, create_group,
        add_group_rules, add_ingress_rule, add_egress_rule, apply_tags;
      solve [same_calls_tac] ].
Qed.
End Gateway.

Lemma restore_internet_gateway_outcome_witness :
  calls (snd (restore_internet_gateway ec2_ok igw_A "vpc-new" empty_state))
  = (calls empty_state
     ++ [create_internet_gateway]
     ++ tag_calls (Igw.Tags igw_A) "new-0"
     ++ [attach_internet_gateway "new-0" "vpc-new"])%list
  /\ created_resources (snd (restore_internet_gateway ec2_ok igw_A "vpc-new" empty_state))
     = set_internet_gateways
         (dict_set string_dec "new-0" igw_A
            (cr_internet_gateways (created_resources empty_state)))
         (created_resources empty_state).
Proof.
  exact (@restore_internet_gateway_outcome ec2_ok igw_A "vpc-new" empty_state eq_refl).
Defined.

(** On a client on which attaching fails, the gateway is created and
    left unrecorded. *)
Example restore_internet_gateway_attach_fails :
  let ec2 := fun history c =>
               match c with
               | attach_internet_gateway _ _ =>
                   Raise (ClientError "InvalidVpcID.NotFound"
                            "An error occurred (InvalidVpcID.NotFound)")
               | _ => ec2_ok history c
               end in
  fst (restore_internet_gateway ec2 igw_A "vpc-new" empty_state) = Ret None
  /\ calls (snd (restore_internet_gateway ec2 igw_A "vpc-new" empty_state))
     = [create_internet_gateway; attach_internet_gateway "new-0" "vpc-new"]
  /\ created_resources (snd (restore_internet_gateway ec2 igw_A "vpc-new" empty_state))
     = init_created_resources.
Proof. repeat split. Qed.

Lemma restore_network_without_gateway_witness :
  filter is_create_route
    (calls (snd (restore_network ec2_ok [("vpc-a", vpc_routes_no_gateway)] "vpc-a"
                   empty_state)))
  = filter is_create_route (calls empty_state).
Proof.
  exact (@restore_network_without_gateway ec2_ok [("vpc-a", vpc_routes_no_gateway)]
           "vpc-a" vpc_routes_no_gateway empty_state eq_refl eq_refl).
Defined.


(** ** Listing the snapshots *)

Lemma string_ltb_false_leb a b : String.ltb a b = false -> String.leb b a = true.
Proof.
  unfold String.ltb, String.leb. rewrite (String.compare_antisym a b).
  destruct (String.compare b a); simpl; congruence.
Qed.

Lemma string_ltb_true_leb a b : String.ltb a b = true -> String.leb a b = true.
Proof. unfold String.ltb, String.leb. destruct (String.compare a b); congruence. Qed.

Lemma timestamp_geb_trans a b c :
  timestamp_geb a b -> timestamp_geb b c -> timestamp_geb a c.
Proof. unfold timestamp_geb. intros H1 H2. eapply string_leb_trans; eassumption. Qed.

Lemma insert_by_timestamp_perm x l : Permutation (insert_by_timestamp x l) (x :: l).
Proof.
  induction l as [|y l IH]; simpl; [reflexivity|].
  destruct (String.ltb _ _); [|reflexivity].
  rewrite IH. apply perm_swap.
Qed.

Lemma sorted_by_timestamp_reverse_perm l :
  Permutation (sorted_by_timestamp_reverse l) l.
Proof.
  induction l as [|x l IH]; simpl; [reflexivity|].
  rewrite insert_by_timestamp_perm. now constructor.
Qed.

Lemma insert_by_timestamp_sorted x l :
  StronglySorted timestamp_geb l -> StronglySorted timestamp_geb (insert_by_timestamp x l).
Proof.
  induction 1 as [|y l Hl IH Hy]; simpl.
  - repeat constructor.
  - destruct (String.ltb _ _) eqn:E.
    + constructor; [exact IH|].
      apply Forall_forall. intros z Hz.
      apply (Permutation_in _ (insert_by_timestamp_perm x l)) in Hz.
      destruct Hz as [<-|Hz].
      * now apply string_ltb_true_leb.
      * rewrite Forall_forall in Hy. now apply Hy.
    + apply string_ltb_false_leb in E.
      constructor; [now constructor|]. constructor; [exact E|].
      eapply Forall_impl; [|exact Hy]. intros z Hz.
      eapply timestamp_geb_trans; [exact E|exact Hz].
Qed.

Lemma sorted_by_timestamp_reverse_sorted l :
  StronglySorted timestamp_geb (sorted_by_timestamp_reverse l).
Proof.
  induction l as [|x l IH]; simpl; [constructor|now apply insert_by_timestamp_sorted].
Qed.

(** What the loop of [list_backups] returns. *)
Lemma collect_backups_returns common_prefixes backups st l st' :
  collect_backups common_prefixes backups st = (Ret l, st') ->
  st' = st
  /\ exists entries,
       l = (backups ++ entries)%list
       /\ map BackupEntry.prefix entries = common_prefixes
       /\ Forall timestamp_of_prefix entries.
Proof.
  revert backups. induction common_prefixes as [|p rest IH]; intros backups; simpl.
  - intros [= <- <-]. split; [reflexivity|]. exists []. rewrite app_nil_r. auto.
  - destruct (index_m2 (split "/" p)) as [timestamp|] eqn:E; [|discriminate].
    intros H. apply IH in H. destruct H as (-> & entries & -> & Hmap & Hall).
    split; [reflexivity|].
    exists ({| BackupEntry.timestamp := timestamp; BackupEntry.prefix := p |} :: entries).
    rewrite <- app_assoc. split; [reflexivity|].
    split; [simpl; now rewrite Hmap|]. constructor; [exact E|exact Hall].
Qed.

Lemma collect_backups_raises common_prefixes backups st e st' :
  collect_backups common_prefixes backups st = (Raise e, st') ->
  st' = st /\ e = OtherError "IndexError".
Proof.
  revert backups. induction common_prefixes as [|p rest IH]; intros backups; simpl.
  - discriminate.
  - destruct (index_m2 (split "/" p)); [apply IH|]. intros [= <- <-]. auto.
Qed.

Section ListBackupsFacts.
Variable s3_list_objects_v2 : string -> string -> outcome (option (list string)).
Variable bucket : string.
Variable region : option string.
Variable account_id : string.
Variable current_region : option string.

Local Abbreviation prefix := (backups_prefix region account_id current_region).
Local Abbreviation snapshot_prefix ts := (prefix ++ ts ++ "/").
Local Abbreviation listing :=
  (list_backups s3_list_objects_v2 bucket region account_id current_region).

(** Whatever the blob store lists, the list [list_backups] returns is
    sorted on the timestamps, latest first; the timestamp of each entry is
    the last but one component of its location; and the locations of the
    entries are the listed locations, none dropped and none added. *)
Theorem list_backups_sorted st l :
  fst (listing st) = Ret l ->
  StronglySorted timestamp_geb l
  /\ Forall timestamp_of_prefix l
  /\ forall common_prefixes,
       s3_list_objects_v2 bucket prefix = Ret (Some common_prefixes) ->
       Permutation (map BackupEntry.prefix l) common_prefixes.
Proof.
  unfold list_backups, try_ClientError. unfold bind at 1, lift at 1.
  destruct (s3_list_objects_v2 bucket prefix) as [[[|p rest]|]|[code text|text]];
    cbn [fst snd];
    try (intros [= <-]; repeat split; try constructor;
         intros ? [= <-]; constructor);
    try discriminate.
  unfold bind.
  destruct (collect_backups (p :: rest) [] st) as [[backups|[code text|text]] st'] eqn:E;
    cbn [fst snd].
  - intros [= <-]. apply collect_backups_returns in E.
    destruct E as (-> & entries & -> & Hmap & Hall). cbn [app].
    split; [apply sorted_by_timestamp_reverse_sorted|].
    split.
    + apply Forall_forall. intros e He. rewrite Forall_forall in Hall. apply Hall.
      eapply Permutation_in; [apply sorted_by_timestamp_reverse_perm|exact He].
    + intros ? [= <-]. rewrite <- Hmap. apply Permutation_map.
      apply sorted_by_timestamp_reverse_perm.
  - apply collect_backups_raises in E. destruct E as [_ [=]].
  - discriminate.
Qed.

Lemma snapshot_prefix_timestamp ts :
  is_timestamp ts = true -> index_m2 (split "/" (snapshot_prefix ts)) = Some ts.
Proof.
  intros H. destruct (backups_prefix_slash region account_id current_region) as [p ->].
  apply split_timestamp. now apply is_timestamp_no_slash.
Qed.

Lemma collect_backups_snapshots timestamps backups st :
  (forall ts, In ts timestamps -> is_timestamp ts = true) ->
  collect_backups (map (fun ts => snapshot_prefix ts) timestamps) backups st
  = (Ret (backups
          ++ map (fun ts => {| BackupEntry.timestamp := ts;
                               BackupEntry.prefix := snapshot_prefix ts |})
               timestamps)%list,
     st).
Proof.
  revert backups. induction timestamps as [|ts l IH]; intros backups Hts;
    cbn [map collect_backups].
  - now rewrite app_nil_r.
  - rewrite snapshot_prefix_timestamp by (apply Hts; now left).
    rewrite IH by (intros; apply Hts; now right).
    now rewrite <- app_assoc.
Qed.

(** On a listing of snapshots whose timestamps have the format the backup
    writes, the first entry [list_backups] returns is the snapshot
    [find_latest_backup] resolves: the snapshot a restore without a
    timestamp loads is the one listed first. *)
Theorem list_backups_first_is_latest timestamps st :
  timestamps <> [] ->
  (forall ts, In ts timestamps -> is_timestamp ts = true) ->
  s3_list_objects_v2 bucket prefix
  = Ret (Some (map (fun ts => snapshot_prefix ts) timestamps)) ->
  exists latest rest,
    fst (listing st)
    = Ret ({| BackupEntry.timestamp := latest;
              BackupEntry.prefix := snapshot_prefix latest |} :: rest)
    /\ fst (find_latest_backup s3_list_objects_v2 bucket region account_id
              current_region st)
       = Ret (Some (snapshot_prefix latest)).
Proof.
  intros Hne Hts Hlist.
  destruct (find_latest_backup_run s3_list_objects_v2 bucket region account_id
              current_region st Hne Hts Hlist) as (latest & [Hin Hmax] & Hrun).
  rewrite Hrun. cbn [fst].
  unfold list_backups, try_ClientError. unfold bind at 1, lift at 1. rewrite Hlist.
  destruct (map (fun ts => snapshot_prefix ts) timestamps) as [|c cs] eqn:Emap.
  { destruct timestamps; [congruence|discriminate]. }
  rewrite <- Emap. unfold bind. rewrite collect_backups_snapshots by exact Hts. cbn [app fst].
  set (entries := map (fun ts => {| BackupEntry.timestamp := ts;
                                    BackupEntry.prefix := snapshot_prefix ts |})
                    timestamps).
  pose proof (sorted_by_timestamp_reverse_sorted entries) as Hsorted.
  pose proof (sorted_by_timestamp_reverse_perm entries) as Hperm.
  destruct (sorted_by_timestamp_reverse entries) as [|first rest].
  { apply Permutation_nil in Hperm. unfold entries in Hperm.
    apply map_eq_nil in Hperm. congruence. }
  exists latest, rest. split; [|reflexivity].
  assert (In first entries) as Hfirst
    by (eapply Permutation_in; [exact Hperm|now left]).
  apply in_map_iff in Hfirst. destruct Hfirst as (ts & <- & Hin_ts).
  assert (ts = latest) as ->; [|reflexivity].
  apply String.leb_antisym; [now apply Hmax|].
  assert (In {| BackupEntry.timestamp := latest;
                BackupEntry.prefix := snapshot_prefix latest |}
            ({| BackupEntry.timestamp := ts;
                BackupEntry.prefix := snapshot_prefix ts |} :: rest)) as Hl.
  { eapply Permutation_in; [apply Permutation_sym; exact Hperm|].
    apply in_map_iff. eauto. }
  destruct Hl as [[= ->]|Hl]; [apply string_leb_refl|].
  inversion Hsorted as [|? ? _ Hall]; subst.
  rewrite Forall_forall in Hall. apply (Hall _ Hl).
Qed.
End ListBackupsFacts.

Lemma list_backups_sorted_witness :
  StronglySorted timestamp_geb
    [ {| BackupEntry.timestamp := "2024-06-01-00-00-00";
         BackupEntry.prefix := "vpc-backups/123456789012/eu-west-1/2024-06-01-00-00-00/" |};
      {| BackupEntry.timestamp := "2024-01-01-00-00-00";
         BackupEntry.prefix := "vpc-backups/123456789012/eu-west-1/2024-01-01-00-00-00/" |} ]
  /\ Forall timestamp_of_prefix
       [ {| BackupEntry.timestamp := "2024-06-01-00-00-00";
            BackupEntry.prefix := "vpc-backups/123456789012/eu-west-1/2024-06-01-00-00-00/" |};
         {| BackupEntry.timestamp := "2024-01-01-00-00-00";
            BackupEntry.prefix := "vpc-backups/123456789012/eu-west-1/2024-01-01-00-00-00/" |} ]
  /\ forall common_prefixes,
       s3_two_snapshots "backups"
         (backups_prefix None "123456789012" (Some "eu-west-1"))
       = Ret (Some common_prefixes) ->
       Permutation
         (map BackupEntry.prefix
            [ {| BackupEntry.timestamp := "2024-06-01-00-00-00";
                 BackupEntry.prefix := "vpc-backups/123456789012/eu-west-1/2024-06-01-00-00-00/" |};
              {| BackupEntry.timestamp := "2024-01-01-00-00-00";
                 BackupEntry.prefix := "vpc-backups/123456789012/eu-west-1/2024-01-01-00-00-00/" |} ])
         common_prefixes.
Proof.
  exact (@list_backups_sorted s3_two_snapshots "backups" None "123456789012"
           (Some "eu-west-1") empty_state _ eq_refl).
Defined.

Lemma list_backups_first_is_latest_witness :
  exists latest rest,
    fst (list_backups s3_two_snapshots "backups" None "123456789012"
           (Some "eu-west-1") empty_state)
    = Ret ({| BackupEntry.timestamp := latest;
              BackupEntry.prefix :=
                backups_prefix None "123456789012" (Some "eu-west-1")
                ++ latest ++ "/" |} :: rest)
    /\ fst (find_latest_backup s3_two_snapshots "backups" None "123456789012"
              (Some "eu-west-1") empty_state)
       = Ret (Some (backups_prefix None "123456789012" (Some "eu-west-1")
                    ++ latest ++ "/")).
Proof.
  refine (@list_backups_first_is_latest s3_two_snapshots "backups" None
            "123456789012" (Some "eu-west-1")
            ["2024-01-01-00-00-00"; "2024-06-01-00-00-00"] empty_state _ _ eq_refl).
  - discriminate.
  - intros ts [<-|[<-|[]]]; reflexivity.
Defined.

(** A listing that fails, and a listed location with fewer than two
    components. *)
Example list_backups_edge_runs :
  list_backups (fun _ _ => Raise (ClientError "AccessDenied" "Access Denied"))
    "backups" None "123456789012" (Some "eu-west-1") empty_state
  = (Ret [],
     {| self_timestamp := None; created_resources := init_created_resources;
        calls := [];
        logs := [(ERROR, "Error listing backups: Access Denied")] |})
  /\ fst (list_backups (fun _ _ => Ret (Some ["a/b/"; "c"]))
            "backups" None "123456789012" (Some "eu-west-1") empty_state)
     = Raise (OtherError "IndexError").
Proof. split; reflexivity. Qed.

(** * Properties of the capture step *)

Section Capture.
Import VpcBackup.
Local Open Scope backup_scope.

Variable ec2_describe_vpcs : option string -> outcome (option (list ListedVpc)).
Variable ec2_describe : Component -> string -> outcome (option (list value)).
Variable session_region_name : option string.
Variable self_region : option string.
Variable self_timestamp : string.
Variable self_account_id : string.

(** ** Two runs that return or raise the same *)

Lemma agree_ret A (a : A) : agree (ret a) (ret a).
Proof. intros st st'. reflexivity. Qed.

Lemma agree_raise A e : agree (@raise A e) (raise e).
Proof. intros st st'. reflexivity. Qed.

Lemma agree_lift A (o : outcome A) : agree (lift o) (lift o).
Proof. intros st st'. reflexivity. Qed.

Lemma agree_log lvl msg lvl' msg' : agree (log lvl msg) (log lvl' msg').
Proof. intros st st'. reflexivity. Qed.

Lemma agree_bind A C (m m' : B A) (f f' : A -> B C) :
  agree m m' -> (forall a, agree (f a) (f' a)) -> agree (bind m f) (bind m' f').
Proof.
  intros Hm Hf st st'. unfold bind. specialize (Hm st st').
  destruct (m st) as [[a|e] st1], (m' st') as [[a'|e'] st1']; cbn [fst] in *;
    try discriminate.
  - injection Hm as <-. apply Hf.
  - now injection Hm as <-.
Qed.

Lemma agree_try A (body body' : B A) handler handler' :
  agree body body' ->
  (forall code text, agree (handler code text) (handler' code text)) ->
  agree (try_ClientError body handler) (try_ClientError body' handler').
Proof.
  intros Hb Hh st st'. unfold try_ClientError. specialize (Hb st st').
  destruct (body st) as [[a|[code text|text]] st1],
           (body' st') as [[a'|[code' text'|text']] st1']; cbn [fst] in *;
    try discriminate; try exact Hb.
  injection Hb as <- <-. apply Hh.
Qed.

Ltac agree_tac :=
  repeat first
    [ apply agree_ret | apply agree_raise | apply agree_lift | apply agree_log
    | progress intros
    | apply agree_try
    | apply agree_bind
    | match goal with
      | |- agree (match ?o with Some _ => _ | None => _ end) _ => destruct o
      | |- agree (match ?l with nil => _ | cons _ _ => _ end) _ => destruct l
      | |- agree (if ?b then _ else _) _ => destruct b
      end ].

Lemma list_vpcs_agree : agree (list_vpcs ec2_describe_vpcs) (list_vpcs ec2_describe_vpcs).
Proof. unfold list_vpcs. agree_tac. Qed.

Lemma get_vpc_details_agree vpc_id :
  agree (get_vpc_details ec2_describe_vpcs ec2_describe vpc_id)
        (get_vpc_details ec2_describe_vpcs ec2_describe vpc_id).
Proof. unfold get_vpc_details, describe_component. agree_tac. Qed.

Lemma capture_agree vpcs backup_data :
  agree (capture ec2_describe_vpcs ec2_describe vpcs backup_data)
        (capture ec2_describe_vpcs ec2_describe vpcs backup_data).
Proof.
  revert backup_data. induction vpcs as [|vpc rest IH]; intros backup_data;
    cbn [capture]; [apply agree_ret|].
  destruct (VpcId vpc) as [vpc_id|]; [|apply agree_raise].
  apply agree_bind; [apply agree_log|intros _].
  apply agree_bind; [apply get_vpc_details_agree|intros vpc_details]. apply IH.
Qed.

(** ** Uploads *)

Section Uploads.
Variable json_dumps : Snapshot.t -> outcome string.
Variable yaml_dump : Snapshot.t -> outcome string.
Variable s3_put_object : list Put -> Put -> outcome unit.
Variable self_bucket : option string.
Variable self_prefix : string.

Local Abbreviation save :=
  (_save_to_s3 json_dumps yaml_dump s3_put_object self_region self_bucket
     self_prefix self_timestamp self_account_id).
Local Abbreviation key_of :=
  (s3_key self_region self_prefix self_timestamp self_account_id).
Local Abbreviation object :=
  (object_of self_bucket self_timestamp self_account_id).
Local Abbreviation backup :=
  (backup_vpc_configuration ec2_describe_vpcs ec2_describe json_dumps yaml_dump
     s3_put_object session_region_name self_region self_bucket self_prefix
     self_timestamp self_account_id).

Ltac save_cases :=
  repeat (cbn [fst snd puts logs];
          match goal with
          | |- context [match json_dumps ?d with _ => _ end] =>
              destruct (json_dumps d) as [?|[? ?|?]] eqn:?
          | |- context [match yaml_dump ?d with _ => _ end] =>
              destruct (yaml_dump d) as [?|[? ?|?]] eqn:?
          | |- context [match s3_put_object ?h ?p with _ => _ end] =>
              destruct (s3_put_object h p) as [[]|[? ?|?]] eqn:?
          | |- context [if ?b then _ else _] => destruct b eqn:?
          end).

Lemma save_to_s3_returns data format_type st :
  exists ok, fst (save data format_type st) = Ret ok.
Proof.
  unfold _save_to_s3, try_ClientError_Exception, upload, put_object, bind, lift,
    log, ret.
  save_cases; eexists; reflexivity.
Qed.

(** Whatever the encoders and the blob store do, [_save_to_s3] returns: no
    exception escapes it. It returns success only when the document was
    encoded in the requested format and the blob store accepted the one
    upload it attempted, under the key made of the prefix, the account,
    the region or [default], and the timestamp. Without a bucket it
    attempts no upload. *)
Theorem save_to_s3_outcome data format_type st :
  exists ok,
    fst (save data format_type st) = Ret ok
    /\ (ok = true ->
        exists content,
          (format_type = "json" /\ json_dumps data = Ret content
           \/ format_type = "yaml" /\ yaml_dump data = Ret content)
          /\ s3_put_object (puts st) (object (key_of format_type) content format_type)
             = Ret tt
          /\ puts (snd (save data format_type st))
             = (puts st ++ [object (key_of format_type) content format_type])%list)
    /\ (truthy self_bucket = false ->
        ok = false /\ puts (snd (save data format_type st)) = puts st).
Proof.
  unfold _save_to_s3, try_ClientError_Exception, upload, put_object, bind, lift,
    log, ret.
  destruct (truthy self_bucket) eqn:Hbucket; cbn [negb].
  2:{ exists false. split; [reflexivity|]. split; [discriminate|]. auto. }
  destruct (format_type =? "json") eqn:Hjson.
  { apply String.eqb_eq in Hjson.
    destruct (json_dumps data) as [content|[code text|text]] eqn:Hdumps;
      try (exists false; repeat split; discriminate).
    destruct (s3_put_object (puts st) (object (key_of format_type) content format_type))
      as [[]|[code text|text]] eqn:Hput;
      try (exists false; repeat split; discriminate).
    exists true. split; [reflexivity|]. split; [|discriminate].
    intros _. exists content. split; [left; auto|]. split; [exact Hput|reflexivity]. }
  destruct (format_type =? "yaml") eqn:Hyaml.
  { apply String.eqb_eq in Hyaml.
    destruct (yaml_dump data) as [content|[code text|text]] eqn:Hdumps;
      try (exists false; repeat split; discriminate).
    destruct (s3_put_object (puts st) (object (key_of format_type) content format_type))
      as [[]|[code text|text]] eqn:Hput;
      try (exists false; repeat split; discriminate).
    exists true. split; [reflexivity|]. split; [|discriminate].
    intros _. exists content. split; [right; auto|]. split; [exact Hput|reflexivity]. }
  exists false. repeat split; discriminate.
Qed.

Lemma saves_return_true backup_data st :
  fst ((save backup_data "json" ;; save backup_data "yaml" ;; ret true) st) = Ret true.
Proof.
  unfold bind at 1.
  destruct (save_to_s3_returns backup_data "json" st) as [ok Hok].
  destruct (save backup_data "json" st) as [o st1]. cbn [fst] in Hok. subst o.
  unfold bind.
  destruct (save_to_s3_returns backup_data "yaml" st1) as [ok' Hok'].
  destruct (save backup_data "yaml" st1) as [o st2]. cbn [fst] in Hok'. subst o.
  reflexivity.
Qed.

(** The capture returns failure exactly when [list_vpcs] returns no
    network: on an empty listing, on a listing without the key, and on a
    listing the client refuses. An upload that fails, or a missing bucket,
    never makes it return failure. *)
Theorem backup_fails_iff_nothing_listed st :
  fst (backup st) = Ret false <-> fst (list_vpcs ec2_describe_vpcs st) = Ret [].
Proof.
  unfold backup_vpc_configuration. unfold bind at 1.
  destruct (list_vpcs ec2_describe_vpcs st) as [[[|vpc rest]|e] st1]; cbn [fst nonempty negb].
  - split; reflexivity.
  - split; [|discriminate]. unfold bind at 1. unfold log at 1. cbn [fst snd].
    unfold bind at 1.
    destruct (capture _ _ _ _ _) as [[backup_data|e] st2]; [|discriminate].
    rewrite saves_return_true. discriminate.
  - split; discriminate.
Qed.
End Uploads.

(** Whether the capture returns success, returns failure or raises does
    not depend on the encoders, the blob store, the bucket or the prefix:
    two runs on the same EC2 client end the same, whatever happens to
    their uploads. *)
Theorem backup_result_ignores_uploads
    json_dumps yaml_dump s3_put_object self_bucket self_prefix
    json_dumps' yaml_dump' s3_put_object' self_bucket' self_prefix' st st' :
  fst (backup_vpc_configuration ec2_describe_vpcs ec2_describe json_dumps yaml_dump
         s3_put_object session_region_name self_region self_bucket self_prefix
         self_timestamp self_account_id st)
  = fst (backup_vpc_configuration ec2_describe_vpcs ec2_describe json_dumps' yaml_dump'
           s3_put_object' session_region_name self_region self_bucket' self_prefix'
           self_timestamp self_account_id st').
Proof.
  revert st st'. change (agree
    (backup_vpc_configuration ec2_describe_vpcs ec2_describe json_dumps yaml_dump
       s3_put_object session_region_name self_region self_bucket self_prefix
       self_timestamp self_account_id)
    (backup_vpc_configuration ec2_describe_vpcs ec2_describe json_dumps' yaml_dump'
       s3_put_object' session_region_name self_region self_bucket' self_prefix'
       self_timestamp self_account_id)).
  unfold backup_vpc_configuration.
  apply agree_bind; [apply list_vpcs_agree|intros vpcs].
  destruct (negb (nonempty vpcs)).
  { apply agree_bind; [apply agree_log|intros _; apply agree_ret]. }
  apply agree_bind; [apply agree_log|intros _].
  apply agree_bind; [apply capture_agree|intros backup_data].
  intros st st'. now rewrite !saves_return_true.
Qed.

(** ** What [get_vpc_details] captures *)

Lemma data_key_inj c c' : data_key c = data_key c' -> c = c'.
Proof. destruct c, c'; try reflexivity; discriminate. Qed.

Lemma describe_component_returns c vpc_id vpc_data st vpc_data' st' :
  describe_component ec2_describe c vpc_id vpc_data st = (Ret vpc_data', st') ->
  (forall k, k <> data_key c ->
     dict_get string_dec k vpc_data' = dict_get string_dec k vpc_data)
  /\ (forall response,
        ec2_describe c vpc_id = Ret response ->
        dict_get string_dec (data_key c) vpc_data'
        = Some (List (get_default response [])))
  /\ (dict_mem string_dec (data_key c) vpc_data = true ->
      dict_mem string_dec (data_key c) vpc_data' = true).
Proof.
  unfold describe_component, try_ClientError, bind, lift, log, ret.
  destruct (ec2_describe c vpc_id) as [response|[code text|text]];
    intros [= <- <-].
  - split; [intros k Hk; now apply dict_get_set_other|].
    split; [intros ? [= <-]; apply dict_get_set_same|].
    intros _. unfold dict_mem. now rewrite dict_get_set_same.
  - split; [reflexivity|]. split; [discriminate|auto].
Qed.

Lemma describe_component_raises c vpc_id vpc_data st e st' :
  describe_component ec2_describe c vpc_id vpc_data st = (Raise e, st') ->
  is_OtherError e.
Proof.
  unfold describe_component, try_ClientError, bind, lift, log, ret.
  destruct (ec2_describe c vpc_id) as [response|[code text|text]];
    intros [= <- <-]. exact I.
Qed.
End Capture.

Section Details.
Import VpcBackup.
Local Open Scope backup_scope.
Variable ec2_describe_vpcs : option string -> outcome (option (list ListedVpc)).
Variable ec2_describe : Component -> string -> outcome (option (list value)).

Lemma update_mem k (vpc_data d : list (string * value)) :
  dict_mem string_dec k vpc_data = true ->
  dict_mem string_dec k (update vpc_data d) = true.
Proof.
  unfold update. revert vpc_data.
  induction d as [|[k' v'] d IH]; intros vpc_data H; cbn [fold_left fst snd];
    [exact H|].
  apply IH. now apply dict_mem_set.
Qed.

Ltac back_to_own_step :=
  repeat match goal with
         | H : forall k, k <> _ -> dict_get string_dec k ?d' = dict_get string_dec k _
           |- context [dict_get string_dec ?k0 ?d'] =>
             rewrite (H k0) by discriminate
         end.

(** Whatever the client does, the description [get_vpc_details] returns
    has the key [vpc_id] and the key of each of the eight component
    kinds; under the key of a kind whose [describe_*] call returned it
    holds what the call returned, whatever keys the description of the
    network itself carries. When a call is refused with a [ClientError]
    the capture of the network goes on: what [get_vpc_details] raises is no
    [ClientError]. *)
Theorem get_vpc_details_components vpc_id st :
  match fst (get_vpc_details ec2_describe_vpcs ec2_describe vpc_id st) with
  | Ret vpc_data =>
      dict_mem string_dec "vpc_id" vpc_data = true
      /\ forall c,
           dict_mem string_dec (data_key c) vpc_data = true
           /\ forall response,
                ec2_describe c vpc_id = Ret response ->
                dict_get string_dec (data_key c) vpc_data
                = Some (List (get_default response []))
  | Raise e => is_OtherError e
  end.
Proof.
  unfold get_vpc_details.
  match goal with |- context [bind (try_ClientError ?body ?handler)] =>
    set (first_block := try_ClientError body handler) end.
  assert (match first_block st with
          | (Ret d0, _) =>
              forall k,
                In k ["vpc_id"; "subnets"; "route_tables"; "security_groups";
                      "network_acls"; "internet_gateways"; "nat_gateways";
                      "vpc_endpoints"; "vpc_peering_connections"] ->
                dict_mem string_dec k d0 = true
          | (Raise e, _) => is_OtherError e
          end) as Hfirst.
  { unfold first_block, try_ClientError, bind, lift, log, ret, raise.
    destruct (ec2_describe_vpcs (Some vpc_id)) as [[[|vpc rest]|]|[code text|text]];
      try exact I;
      intros k Hk; cbn [In] in Hk;
      repeat (destruct Hk as [<-|Hk];
              [first [reflexivity|apply update_mem; reflexivity]|]);
      destruct Hk. }
  unfold bind at 1. destruct (first_block st) as [[d0|e] st0]; [|exact Hfirst].
  clear first_block.
  repeat (unfold bind at 1;
          match goal with
          | |- context [describe_component ec2_describe ?c vpc_id ?d ?s] =>
              let H := fresh "Hstep" in
              destruct (describe_component ec2_describe c vpc_id d s)
                as [[?d|?e] ?st] eqn:H;
              [apply describe_component_returns in H;
               destruct H as (? & ? & ?)
              |apply describe_component_raises in H; exact H]
          end).
  cbn [ret fst data_key] in *.
  split.
  { unfold dict_mem. back_to_own_step.
    apply (Hfirst "vpc_id"). cbn [In]. auto. }
  intros c. split.
  - destruct c; cbn [data_key];
      unfold dict_mem; back_to_own_step;
      match goal with
      | H : dict_mem string_dec ?k ?d = true -> dict_mem string_dec ?k ?d' = true
        |- context [dict_get string_dec ?k ?d'] =>
          fold (dict_mem string_dec k d'); apply H
      end;
      unfold dict_mem; back_to_own_step;
      match goal with
      | |- context [dict_get string_dec ?k d0] =>
          apply (Hfirst k); cbn [In]; tauto
      end.
  - intros response Hresponse.
    destruct c; cbn [data_key] in *; back_to_own_step; eauto.
Qed.
End Details.

(** ** The document the capture writes and the one the restore reads *)

Lemma string_length_app (a b : string) :
  String.length (a ++ b) = String.length a + String.length b.
Proof. induction a as [|c a IH]; simpl; [reflexivity|now rewrite IH]. Qed.

Lemma string_app_inv_head (a x y : string) : a ++ x = a ++ y -> x = y.
Proof. induction a as [|c a IH]; simpl; [auto|]. intros [= H]. auto. Qed.

Lemma string_app_same_length (a b x y : string) :
  a ++ x = b ++ y -> String.length a = String.length b -> a = b.
Proof.
  revert b. induction a as [|c a IH]; intros [|c' b]; simpl; try discriminate;
    [reflexivity|].
  intros [= -> H] [= Hlen]. now rewrite (IH b H Hlen).
Qed.

Section BackupThenRestore.
Variable s3_list_objects_v2 : string -> string -> outcome (option (list string)).
Variable s3_get_object : string -> string -> outcome string.
Variable json_loads : string -> outcome (option Backup.t).
Variable yaml_safe_load : string -> outcome (option Backup.t).
Variable bucket : string.
Variable region : option string.
Variable account_id : string.
Variable current_region : option string.

Local Abbreviation load :=
  (load_backup_data s3_list_objects_v2 s3_get_object json_loads yaml_safe_load
     bucket region account_id current_region).
Local Abbreviation written ts format_type :=
  (VpcBackup.s3_key region "vpc-backups" ts account_id format_type).
Local Abbreviation read ts name :=
  ((backups_prefix region account_id current_region ++ ts ++ "/") ++ name).

Lemma written_key_of_region ts format_type :
  truthy region = true ->
  written ts format_type = read ts ("vpc_config." ++ format_type).
Proof.
  intros H. unfold VpcBackup.s3_key, backups_prefix, py_or. rewrite H.
  rewrite !string_app_assoc. reflexivity.
Qed.

Lemma load_with_timestamp st ts :
  self_timestamp st = Some ts -> ts <> "" ->
  load st
  = load_from s3_get_object json_loads yaml_safe_load bucket
      (backups_prefix region account_id current_region ++ ts ++ "/") st.
Proof.
  intros Hts Hne. unfold load_backup_data. unfold bind at 1, get_timestamp at 1.
  rewrite Hts. cbn [truthy get_default].
  apply String.eqb_neq in Hne. now rewrite Hne.
Qed.

(** A restore for the region, the account and the timestamp of a capture
    that was given a region and the default prefix loads the JSON document
    that capture wrote: the key the restore reads is the key the capture
    wrote. *)
Theorem restore_loads_backup_document st ts body data :
  truthy region = true ->
  self_timestamp st = Some ts ->
  ts <> "" ->
  s3_get_object bucket (written ts "json") = Ret body ->
  json_loads body = Ret data ->
  fst (load st) = Ret data.
Proof.
  intros Hregion Hts Hne Hget Hloads.
  rewrite (load_with_timestamp st Hts Hne).
  rewrite (written_key_of_region ts "json" Hregion) in Hget. cbn [append] in Hget.
  unfold load_from, try_ClientError. unfold bind at 1, log at 1. cbn [fst snd].
  unfold bind at 1, lift at 1. rewrite Hget.
  unfold bind at 1, lift at 1. rewrite Hloads. reflexivity.
Qed.

Lemma written_key_without_region ts format_type name :
  truthy region = false ->
  fmt current_region <> "default" ->
  String.length name = String.length ("vpc_config." ++ format_type) ->
  written ts format_type <> read ts name.
Proof.
  intros Hregion Hcurrent Hlen E.
  unfold VpcBackup.s3_key, backups_prefix, py_or in E. rewrite Hregion in E.
  cbn [fmt] in E.
  change ("vpc-backups" ++ "/" ++ account_id ++ "/" ++ "default" ++ "/" ++ ts
          ++ "/vpc_config." ++ format_type)
    with ("vpc-backups/" ++ account_id ++ "/" ++ "default" ++ "/" ++ ts
          ++ "/vpc_config." ++ format_type) in E.
  rewrite !string_app_assoc in E.
  apply string_app_inv_head, string_app_inv_head in E.
  change ("/" ++ fmt current_region ++ "/" ++ ts ++ "/" ++ name)
    with (String "/" (fmt current_region ++ "/" ++ ts ++ "/" ++ name)) in E.
  change ("/" ++ "default" ++ "/" ++ ts ++ "/vpc_config." ++ format_type)
    with (String "/" ("default" ++ "/" ++ ts ++ "/vpc_config." ++ format_type)) in E.
  injection E as E.
  apply Hcurrent. symmetry in E.
  apply (@string_app_same_length (fmt current_region) "default"
           (String "/" (ts ++ String "/" name))
           (String "/" (ts ++ "/vpc_config." ++ format_type)) E).
  apply (f_equal String.length) in E.
  rewrite string_length_app in E.
  cbn [String.length append] in E, Hlen.
  rewrite !string_length_app in E.
  cbn [String.length append] in E. cbn [String.length]. lia.
Qed.

(** A capture that was given no region writes under [default]; a restore
    that is given no region reads under the region of its session. So on a
    blob store that holds nothing but the two documents of such a capture,
    a restore for the same account and timestamp loads nothing, unless the
    region of its session prints as [default]. *)
Theorem restore_misses_backup_without_region st ts :
  truthy region = false ->
  fmt current_region <> "default" ->
  self_timestamp st = Some ts ->
  ts <> "" ->
  (forall key,
      key <> written ts "json" -> key <> written ts "yaml" ->
      exists text, s3_get_object bucket key = Raise (ClientError "NoSuchKey" text)) ->
  fst (load st) = Ret None.
Proof.
  intros Hregion Hcurrent Hts Hne Hstore.
  rewrite (load_with_timestamp st Hts Hne).
  assert (forall name,
            String.length name = 15 ->
            exists text,
              s3_get_object bucket (read ts name)
              = Raise (ClientError "NoSuchKey" text)) as Hmiss.
  { intros name Hlen. apply Hstore; intros E; symmetry in E; revert E;
      apply written_key_without_region; auto. }
  destruct (Hmiss "vpc_config.json" eq_refl) as [text1 H1].
  destruct (Hmiss "vpc_config.yaml" eq_refl) as [text2 H2].
  unfold load_from, try_ClientError. unfold bind at 1, log at 1. cbn [fst snd].
  unfold bind at 1, lift at 1. rewrite H1. cbn [String.eqb Ascii.eqb Bool.eqb].
  unfold bind at 1, log at 1. cbn [fst snd].
  unfold bind at 1, lift at 1. rewrite H2. reflexivity.
Qed.
End BackupThenRestore.

Lemma restore_loads_backup_document_witness :
  fst (load_backup_data s3_no_listing
         (s3_holding
            [VpcBackup.s3_key (Some "eu-west-1") "vpc-backups" "2024-06-01-00-00-00"
               "123456789012" "json"])
         (decode_as (snapshot_of two_vpcs)) (decode_as (snapshot_of two_vpcs))
         "backups" (Some "eu-west-1") "123456789012" (Some "eu-west-1") state_at_june)
  = Ret (Some (snapshot_of two_vpcs)).
Proof.
  refine (@restore_loads_backup_document s3_no_listing
            (s3_holding
               [VpcBackup.s3_key (Some "eu-west-1") "vpc-backups" "2024-06-01-00-00-00"
                  "123456789012" "json"])
            (decode_as (snapshot_of two_vpcs)) (decode_as (snapshot_of two_vpcs))
            "backups" (Some "eu-west-1") "123456789012" (Some "eu-west-1")
            state_at_june "2024-06-01-00-00-00" "{}" (Some (snapshot_of two_vpcs))
            eq_refl eq_refl _ eq_refl eq_refl).
  discriminate.
Defined.

Lemma restore_misses_backup_without_region_witness :
  fst (load_backup_data s3_no_listing
         (s3_holding
            [VpcBackup.s3_key None "vpc-backups" "2024-06-01-00-00-00"
               "123456789012" "json";
             VpcBackup.s3_key None "vpc-backups" "2024-06-01-00-00-00"
               "123456789012" "yaml"])
         (decode_as (snapshot_of two_vpcs)) (decode_as (snapshot_of two_vpcs))
         "backups" None "123456789012" (Some "eu-west-1") state_at_june)
  = Ret None.
Proof.
  refine (@restore_misses_backup_without_region s3_no_listing
            (s3_holding
               [VpcBackup.s3_key None "vpc-backups" "2024-06-01-00-00-00"
                  "123456789012" "json";
                VpcBackup.s3_key None "vpc-backups" "2024-06-01-00-00-00"
                  "123456789012" "yaml"])
            (decode_as (snapshot_of two_vpcs)) (decode_as (snapshot_of two_vpcs))
            "backups" None "123456789012" (Some "eu-west-1")
            state_at_june "2024-06-01-00-00-00" eq_refl _ eq_refl _ _).
  - discriminate.
  - discriminate.
  - intros key Hjson Hyaml. unfold s3_holding. cbn [existsb].
    destruct (String.eqb_spec key
                (VpcBackup.s3_key None "vpc-backups" "2024-06-01-00-00-00"
                   "123456789012" "json")) as [E|_]; [contradiction|].
    destruct (String.eqb_spec key
                (VpcBackup.s3_key None "vpc-backups" "2024-06-01-00-00-00"
                   "123456789012" "yaml")) as [E|_]; [contradiction|].
    eexists. reflexivity.
Defined.

(** A capture whose uploads are all refused ends with the exit code of a
    success, and one in an account that lists no network with the exit
    code of a failure. *)
Example cmd_backup_runs :
  VpcBackup.cmd_backup VpcBackup.describe_vpcs_one VpcBackup.describe_one_subnet
    VpcBackup.dumps_ok VpcBackup.dumps_ok VpcBackup.s3_put_refused None session_ok
    "2024-06-01-00-00-00" VpcBackup.backup_args = 0%Z
  /\ VpcBackup.cmd_backup (fun _ => Ret (Some [])) VpcBackup.describe_one_subnet
       VpcBackup.dumps_ok VpcBackup.dumps_ok VpcBackup.s3_put_ok None session_ok
       "2024-06-01-00-00-00" VpcBackup.backup_args = 1%Z.
Proof. split; reflexivity. Qed.

(** The description captured for [vpc-a] when every component call is
    refused: the components are empty lists. *)
Example get_vpc_details_refused_run :
  fst (VpcBackup.get_vpc_details VpcBackup.describe_vpcs_one VpcBackup.describe_refused
         "vpc-a" VpcBackup.empty_state)
  = Ret [ ("vpc_id", VpcBackup.Str "vpc-a");
          ("subnets", VpcBackup.List []);
          ("route_tables", VpcBackup.List []);
          ("security_groups", VpcBackup.List []);
          ("network_acls", VpcBackup.List []);
          ("internet_gateways", VpcBackup.List []);
          ("nat_gateways", VpcBackup.List []);
          ("vpc_endpoints", VpcBackup.List []);
          ("vpc_peering_connections", VpcBackup.List []);
          ("VpcId", VpcBackup.Str "vpc-a");
          ("CidrBlock", VpcBackup.Str "10.0.0.0/16");
          ("IsDefault", VpcBackup.Bool false) ].
Proof. reflexivity. Qed.
